(** * Calculator: the expression engine of the repository, embedded in Rocq

    The repository holds two versions of the calculator script:
    - [src/script.js], the basic calculator (display, operand
      accumulation, unary operations, memory register);
    - [src/unnamed/part_000], the scientific calculator, which adds the
      expression evaluator ([toRPN], [evalRPN]), the token-building input
      handlers and the degree/radian flag.

    The file has three layers.
    - [JS]: the part of the ECMAScript runtime the scripts call: IEEE 754
      binary64 numbers (on [SpecFloat], the specification of floats of the
      standard library), [parseFloat], [String(n)], [toExponential],
      [Math.round], [isFinite], [isNaN] and the [Math] functions.
    - [Basic] and [Sci]: the two scripts, function by function, under the
      names of the source: the formatter, the evaluator, the input
      handlers, the memory operations and the click and keydown
      listeners, as functions of the state; the page itself (display
      element, history panel, clipboard) is left out.
    - the theorems about them. *)

From Stdlib Require Import ZArith List String Ascii Bool Lia Permutation.
From Stdlib Require Import SpecFloat.
Import ListNotations.

Local Open Scope string_scope.
Local Open Scope list_scope.
Local Open Scope Z_scope.

(** String concatenation, the [+] of JavaScript on two strings. *)
Local Infix "+++" := String.append (right associativity, at level 60).

(* ================================================================= *)
(** * The ECMAScript runtime used by the scripts *)

Module JS.

(** ** Numbers: IEEE 754 binary64 *)

Definition prec : Z := 53.
Definition emax : Z := 1024.

Definition number : Type := spec_float.

Definition NaN : number := S754_nan.
Definition Infinity : number := S754_infinity false.

Definition add : number -> number -> number := SFadd prec emax.
Definition sub : number -> number -> number := SFsub prec emax.
Definition mul : number -> number -> number := SFmul prec emax.
Definition div : number -> number -> number := SFdiv prec emax.
Definition neg : number -> number := SFopp.
Definition lt : number -> number -> bool := SFltb.
(** [a === b] on two numbers: [NaN] differs from itself, [+0 === -0]. *)
Definition strict_eq : number -> number -> bool := SFeqb.

(** The double nearest to an integer literal of the source ([0], [100],
    [180], [1e12]). *)
Definition of_Z (z : Z) : number := binary_normalize prec emax z 0 false.

Definition zero : number := S754_zero false.

(** Structural equality of two numbers (same bits, up to the single NaN). *)
Definition same (x y : number) : bool :=
  match x, y with
  | S754_zero a, S754_zero b => Bool.eqb a b
  | S754_infinity a, S754_infinity b => Bool.eqb a b
  | S754_nan, S754_nan => true
  | S754_finite a m e, S754_finite b m' e' =>
      Bool.eqb a b && Pos.eqb m m' && Z.eqb e e'
  | _, _ => false
  end.

Definition is_nan (x : number) : bool :=
  match x with S754_nan => true | _ => false end.

Definition is_finite (x : number) : bool :=
  match x with S754_zero _ | S754_finite _ _ _ => true | _ => false end.

(** The double nearest (ties to even) to the rational [num / den], with the
    sign [s]: the quotient step of the IEEE division on integer operands. *)
Definition round_ratio (s : bool) (num den : positive) : number :=
  let '(mz, ez, lz) :=
    SFdiv_core_binary prec emax (Zpos num) 0 (Zpos den) 0 in
  binary_round_aux prec emax s mz ez lz.

(** The double nearest to [d * 10 ^ e10], for a natural [d]: the Number
    value of a decimal literal. *)
Definition dec_to_number (s : bool) (d e10 : Z) : number :=
  match d with
  | Zpos p =>
      round_ratio s (p * Z.to_pos (10 ^ Z.max e10 0))
                    (Z.to_pos (10 ^ Z.max (- e10) 0))
  | _ => S754_zero s
  end.

(** ** JavaScript values on the evaluator's stack

    [Array.prototype.pop] on an empty array returns [undefined]; every
    other value the evaluator handles is a Number. *)
Inductive value : Type :=
| Undefined
| Number (x : number).

Definition ToNumber (v : value) : number :=
  match v with
  | Undefined => NaN
  | Number x => x
  end.

(** The global [isFinite] converts its argument first. *)
Definition isFinite (v : value) : bool := is_finite (ToNumber v).

(** ** Decimal digit strings *)

Definition is_digit (c : ascii) : bool :=
  let n := N_of_ascii c in (48 <=? n)%N && (n <=? 57)%N.

Definition digit_val (c : ascii) : Z := Z.of_N (N_of_ascii c) - 48.

Definition digit_char (d : Z) : ascii := ascii_of_N (Z.to_N (d + 48)).

(** The longest prefix of decimal digits, and what follows it. *)
Fixpoint span_digits (s : string) : string * string :=
  match s with
  | String c r =>
      if is_digit c
      then let (d, t) := span_digits r in (String c d, t)
      else (EmptyString, s)
  | EmptyString => (EmptyString, EmptyString)
  end.

(** The value of a digit string, most significant digit first. *)
Fixpoint digits_val (acc : Z) (s : string) : Z :=
  match s with
  | EmptyString => acc
  | String c r => digits_val (acc * 10 + digit_val c) r
  end.

Fixpoint print_digits (fuel : nat) (n : Z) (acc : string) : string :=
  match fuel with
  | O => acc
  | S f =>
      let acc' := String (digit_char (n mod 10)) acc in
      if n <? 10 then acc' else print_digits f (n / 10) acc'
  end.

(** The decimal digits of a natural number, without leading zeros ("0"
    for zero). *)
Definition decimal (n : Z) : string :=
  print_digits (S (Z.to_nat (Z.log2 n))) n EmptyString.

Definition slen (s : string) : Z := Z.of_nat (String.length s).

Fixpoint zeros (n : nat) : string :=
  match n with
  | O => EmptyString
  | S k => String "0" (zeros k)
  end.

Fixpoint all_digits (s : string) : bool :=
  match s with
  | EmptyString => true
  | String c r => is_digit c && all_digits r
  end.

(** [/^[0-9]$/.test(s)]: one decimal digit. *)
Definition is_one_digit (s : string) : bool :=
  match s with
  | String c EmptyString => is_digit c
  | _ => false
  end.

(** [s.includes('.')] *)
Fixpoint includes_dot (s : string) : bool :=
  match s with
  | EmptyString => false
  | String c r => Ascii.eqb c "." || includes_dot r
  end.

(** [s.slice(0, -1)]: the string without its last character. *)
Fixpoint drop_last (s : string) : string :=
  match s with
  | EmptyString => EmptyString
  | String c EmptyString => EmptyString
  | String c r => String c (drop_last r)
  end.

(** ** [parseFloat]

    [parseFloat(string)] skips leading white space and converts the longest
    prefix that is a decimal literal (an optional sign, then [Infinity] or
    digits with an optional fraction and an optional exponent); the result
    is [NaN] when there is no such prefix. *)

Definition is_white (c : ascii) : bool :=
  let n := N_of_ascii c in
  ((9 <=? n)%N && (n <=? 13)%N) || (n =? 32)%N.

Fixpoint skip_white (s : string) : string :=
  match s with
  | String c r => if is_white c then skip_white r else s
  | EmptyString => s
  end.

Definition is_empty (s : string) : bool :=
  match s with EmptyString => true | _ => false end.

(** An optional sign; [true] for [-]. *)
Definition read_sign (s : string) : bool * string :=
  match s with
  | String "-" r => (true, r)
  | String "+" r => (false, r)
  | _ => (false, s)
  end.

(** The exponent part [e], [e+] or [e-] followed by digits; [0] when the
    text does not continue with a complete exponent part. *)
Definition exponent_part (s : string) : Z :=
  match s with
  | String c r =>
      if (Ascii.eqb c "e" || Ascii.eqb c "E")%bool then
        let '(sg, r') := read_sign r in
        let (ed, _) := span_digits r' in
        if is_empty ed then 0
        else if sg then - digits_val 0 ed else digits_val 0 ed
      else 0
  | EmptyString => 0
  end.

(** The literal after the sign. *)
Definition read_unsigned (sg : bool) (s2 : string) : number :=
  if String.prefix "Infinity" s2 then S754_infinity sg
  else
    let (ip, s3) := span_digits s2 in
    let '(fp, s4) :=
      match s3 with
      | String "." r => span_digits r
      | _ => (EmptyString, s3)
      end in
    if (is_empty ip && is_empty fp)%bool then NaN
    else dec_to_number sg (digits_val 0 (ip +++ fp))
                          (exponent_part s4 - slen fp).

Definition parseFloat (str : string) : number :=
  let '(sg, s2) := read_sign (skip_white str) in
  read_unsigned sg s2.

(** ** [String(n)]: Number::toString in radix 10 *)

(** A positive finite double [m * 2 ^ e] as a fraction. *)
Definition ratio_of (m : positive) (e : Z) : Z * Z :=
  if 0 <=? e then (Zpos m * 2 ^ e, 1) else (Zpos m, 2 ^ (- e)).

(** The fraction [(a / b) / 10 ^ j]. *)
Definition scale10 (ab : Z * Z) (j : Z) : Z * Z :=
  let (a, b) := ab in
  if 0 <=? j then (a, b * 10 ^ j) else (a * 10 ^ (- j), b).

(** The integer [n] with [10 ^ (n - 1) <= a / b < 10 ^ n], for a positive
    fraction that is not a negative power of ten. *)
Definition decimal_exponent (ab : Z * Z) : Z :=
  let (a, b) := ab in
  if b <=? a then slen (decimal (a / b))
  else 1 - slen (decimal (b / a)).

(** The candidates with [k] digits for the digit string of [m * 2 ^ e]:
    the two [k]-digit decimals around the value, the closer one first (the
    even one on a tie), each as (digits [s], exponent [n]) standing for
    [s * 10 ^ (n - k)]. *)
Definition candidates (ab : Z * Z) (n0 k : Z) : list (Z * Z) :=
  let (a, b) := scale10 ab (n0 - k) in
  let lo := a / b in
  let r := a mod b in
  let up := if lo + 1 =? 10 ^ k then (10 ^ (k - 1), n0 + 1) else (lo + 1, n0) in
  if r =? 0 then [(lo, n0)]
  else match 2 * r ?= b with
       | Lt => [(lo, n0); up]
       | Gt => [up; (lo, n0)]
       | Eq => if Z.even lo then [(lo, n0); up] else [up; (lo, n0)]
       end.

(** [10 ^ (k - 1) <= s < 10 ^ k] and the Number value of
    [s * 10 ^ (n - k)] is [x]. *)
Definition reads_back (x : number) (k : Z) (sn : Z * Z) : bool :=
  let (s, n) := sn in
  (10 ^ (k - 1) <=? s) && (s <? 10 ^ k)
  && same (dec_to_number false s (n - k)) x.

(** The least number of digits [k], from [k] on and within [fuel] steps,
    for which a candidate converts back to [x]; with it the digits and the
    exponent. *)
Fixpoint shortest (fuel : nat) (x : number) (ab : Z * Z) (n0 k : Z)
  : option (Z * Z * Z) :=
  match fuel with
  | O => None
  | S f =>
      match List.find (reads_back x k) (candidates ab n0 k) with
      | Some (s, n) => Some (k, s, n)
      | None => shortest f x ab n0 (k + 1)
      end
  end.

Definition head_tail (s : string) : string * string :=
  match s with
  | String c r => (String c EmptyString, r)
  | EmptyString => (EmptyString, EmptyString)
  end.

(** The text of [s * 10 ^ (n - k)], [k] the number of digits of [s]. *)
Definition layout (k s n : Z) : string :=
  let ds := decimal s in
  if (-5 <=? n) && (n <=? 21) then
    if k <=? n then ds +++ zeros (Z.to_nat (n - k))
    else if 0 <? n then
      String.substring 0 (Z.to_nat n) ds +++ "."
      +++ String.substring (Z.to_nat n) (Z.to_nat (k - n)) ds
    else "0." +++ zeros (Z.to_nat (- n)) +++ ds
  else
    let ex := (if 0 <? n - 1 then "+" else "-") +++ decimal (Z.abs (n - 1)) in
    if k =? 1 then ds +++ "e" +++ ex
    else let (d, r) := head_tail ds in d +++ "." +++ r +++ "e" +++ ex.

(** A bound on the search: written with enough digits a decimal is the
    double itself, so the search ends, and for every double within this
    bound (lemma [digits_found]; seventeen digits in fact suffice). *)
Definition max_digits : nat := 1100.

Definition Number_toString (x : number) : string :=
  match x with
  | S754_nan => "NaN"
  | S754_zero _ => "0"
  | S754_infinity s => if s then "-Infinity" else "Infinity"
  | S754_finite sg m e =>
      let ab := ratio_of m e in
      match shortest max_digits (S754_finite false m e) ab
                     (decimal_exponent ab) 1 with
      | Some (k, s, n) => (if sg then "-" else "") +++ layout k s n
      | None => "NaN"             (* not reached on a double *)
      end
  end.

(** ** [Number.prototype.toExponential(fractionDigits)] *)

Definition toExponential (x : number) (f : Z) : string :=
  match x with
  | S754_nan | S754_infinity _ => Number_toString x
  | S754_zero _ =>
      if f =? 0 then "0e+0" else "0." +++ zeros (Z.to_nat f) +++ "e+0"
  | S754_finite sg m e =>
      let ab := ratio_of m e in
      let e0 := decimal_exponent ab - 1 in
      let (a, b) := scale10 ab (e0 - f) in
      let n := (2 * a + b) / (2 * b) in
      let '(n, e1) := if n =? 10 ^ (f + 1) then (10 ^ f, e0 + 1) else (n, e0) in
      let (d, r) := head_tail (decimal n) in
      (if sg then "-" else "")
      +++ d +++ (if f =? 0 then "" else "." +++ r)
      +++ "e" +++ (if 0 <=? e1 then "+" else "-") +++ decimal (Z.abs e1)
  end.

(** ** [Math] *)

(** [Math.round]: the integer nearest to [x], ties towards [+Infinity];
    [-0] for [-0.5 <= x < 0]. *)
Definition Math_round (x : number) : number :=
  match x with
  | S754_finite sg m e =>
      if 0 <=? e then x
      else
        let den := 2 ^ (- e) in
        let r := (2 * (if sg then Zneg m else Zpos m) + den) / (2 * den) in
        if r =? 0 then S754_zero sg else of_Z r
  | _ => x
  end.

Definition Math_PI : number := S754_finite false 7074237752028440 (-51).
Definition Math_E : number := S754_finite false 6121026514868073 (-51).

(** [Math.sqrt] is the IEEE square root ([NaN] below zero). *)
Definition Math_sqrt : number -> number := SFsqrt prec emax.

(** The standard fixes the [Math] functions on the special arguments and
    leaves the other results to the implementation, "implementation-
    approximated": that part of the engine is an interface. *)
Class MathImpl : Type := {
  impl_sin : number -> number;
  impl_cos : number -> number;
  impl_tan : number -> number;
  impl_log : number -> number;
  impl_log10 : number -> number;
  impl_pow : number -> number -> number
}.

Definition one : number := of_Z 1.

(** An integral Number that is odd. *)
Definition is_odd_integer (x : number) : bool :=
  match x with
  | S754_finite _ m e =>
      if 0 <? e then false
      else (Zpos m mod 2 ^ (- e) =? 0) && Z.odd (Zpos m / 2 ^ (- e))
  | _ => false
  end.

Definition is_integer (x : number) : bool :=
  match x with
  | S754_zero _ => true
  | S754_finite _ m e => (0 <=? e) || (Zpos m mod 2 ^ (- e) =? 0)
  | _ => false
  end.

Section Math.
Context {rt : MathImpl}.

Definition Math_sin (x : number) : number :=
  match x with
  | S754_nan | S754_infinity _ => NaN
  | S754_zero _ => x
  | S754_finite _ _ _ => impl_sin x
  end.

Definition Math_cos (x : number) : number :=
  match x with
  | S754_nan | S754_infinity _ => NaN
  | S754_zero _ => one
  | S754_finite _ _ _ => impl_cos x
  end.

Definition Math_tan (x : number) : number :=
  match x with
  | S754_nan | S754_infinity _ => NaN
  | S754_zero _ => x
  | S754_finite _ _ _ => impl_tan x
  end.

Definition log_like (impl : number -> number) (x : number) : number :=
  match x with
  | S754_nan => NaN
  | S754_zero _ => S754_infinity true
  | S754_infinity s => if s then NaN else x
  | S754_finite s _ _ =>
      if s then NaN else if same x one then zero else impl x
  end.

Definition Math_log : number -> number := log_like impl_log.
Definition Math_log10 : number -> number := log_like impl_log10.

(** [Math.pow]: Number::exponentiate. *)
Definition Math_pow (base exponent : number) : number :=
  let positive_exponent := lt zero exponent in
  let odd := is_odd_integer exponent in
  match exponent with
  | S754_nan => NaN
  | S754_zero _ => one
  | _ =>
      match base with
      | S754_nan => NaN
      | S754_infinity false =>
          if positive_exponent then Infinity else zero
      | S754_infinity true =>
          if positive_exponent then S754_infinity odd else S754_zero odd
      | S754_zero false =>
          if positive_exponent then zero else Infinity
      | S754_zero true =>
          if positive_exponent then S754_zero odd else S754_infinity odd
      | S754_finite sb _ _ =>
          match exponent with
          | S754_infinity se =>
              match SFcompare (SFabs base) one with
              | Some Gt => if se then zero else Infinity
              | Some Lt => if se then Infinity else zero
              | _ => NaN
              end
          | _ =>
              if sb && negb (is_integer exponent) then NaN
              else impl_pow base exponent
          end
      end
  end.

End Math.

End JS.

Import JS.

(* ================================================================= *)
(** * What both scripts share

    [MAX_DISPLAY_LENGTH], [formatNumber] and [unaryOps] have the same text
    in [src/script.js] and in [src/unnamed/part_000]. *)

Definition MAX_DISPLAY_LENGTH : Z := 16.

(** The literal [1e12]. *)
Definition ten_to_12 : number := of_Z (10 ^ 12).

(** [Math.round(n * 1e12) / 1e12], the value [formatNumber] renders. *)
Definition round12 (n : number) : number :=
  div (Math_round (mul n ten_to_12)) ten_to_12.

Definition formatNumber (n : number) : string :=
  if negb (is_finite n) then "Error"
  else
    let rounded := div (Math_round (mul n ten_to_12)) ten_to_12 in
    let s := Number_toString rounded in
    if MAX_DISPLAY_LENGTH <? slen s then toExponential rounded 10 else s.

(** The keys of [unaryOps]. *)
Inductive unary : Type := negate | sqrt | square | reciprocal.

Definition unaryOps (op : unary) (x : number) : number :=
  match op with
  | negate => neg x
  | sqrt => if lt x zero then NaN else Math_sqrt x
  | square => mul x x
  | reciprocal => if strict_eq x zero then Infinity else div one x
  end.

(** The literal [100]. *)
Definition hundred : number := of_Z 100.

(** The action names the handlers pass to [applyUnary]. *)
Definition unary_of_action (action : string) : option unary :=
  if String.eqb action "negate" then Some negate
  else if String.eqb action "sqrt" then Some sqrt
  else if String.eqb action "square" then Some square
  else if String.eqb action "reciprocal" then Some reciprocal
  else None.

(** A string used as a condition is true when it is not empty. *)
Definition truthy (s : string) : bool := negb (is_empty s).

(* ================================================================= *)
(** * [src/script.js]: the basic calculator *)

Module Basic.

Record state : Type := mkState {
  displayValue : string;
  firstOperand : option number;     (* [null] or a Number *)
  operator : option string;         (* [null] or an action name *)
  waitingForSecondOperand : bool;
  memory : number
}.

Definition initial : state :=
  {| displayValue := "0"; firstOperand := None; operator := None;
     waitingForSecondOperand := false; memory := zero |}.

Definition resetCalculator (st : state) : state :=
  {| displayValue := "0"; firstOperand := None; operator := None;
     waitingForSecondOperand := false; memory := memory st |}.

Definition inputDigit (digit : string) (st : state) : state :=
  if waitingForSecondOperand st then
    {| displayValue := digit; firstOperand := firstOperand st;
       operator := operator st; waitingForSecondOperand := false;
       memory := memory st |}
  else
    {| displayValue :=
         if String.eqb (displayValue st) "0" then digit
         else displayValue st +++ digit;
       firstOperand := firstOperand st; operator := operator st;
       waitingForSecondOperand := waitingForSecondOperand st;
       memory := memory st |}.

Definition set_display (d : string) (st : state) : state :=
  {| displayValue := d; firstOperand := firstOperand st;
     operator := operator st;
     waitingForSecondOperand := waitingForSecondOperand st;
     memory := memory st |}.

Definition applyUnary (op : unary) (st : state) : state :=
  let value := parseFloat (displayValue st) in
  if is_nan value then st
  else
    let result := unaryOps op value in
    let formatted := formatNumber result in
    let st1 := set_display formatted st in
    if String.eqb formatted "Error" then
      set_display "Error" (resetCalculator st1)
    else
      {| displayValue := displayValue st1; firstOperand := firstOperand st1;
         operator := operator st1; waitingForSecondOperand := false;
         memory := memory st1 |}.

Definition set_memory (m : number) (st : state) : state :=
  {| displayValue := displayValue st; firstOperand := firstOperand st;
     operator := operator st;
     waitingForSecondOperand := waitingForSecondOperand st;
     memory := m |}.

Definition memoryClear (st : state) : state := set_memory zero st.

Definition memoryRecall (st : state) : state :=
  {| displayValue := formatNumber (memory st);
     firstOperand := firstOperand st; operator := operator st;
     waitingForSecondOperand := false; memory := memory st |}.

Definition memoryPlus (st : state) : state :=
  let v := parseFloat (displayValue st) in
  if negb (is_nan v) then set_memory (add (memory st) v) st else st.

Definition memoryMinus (st : state) : state :=
  let v := parseFloat (displayValue st) in
  if negb (is_nan v) then set_memory (sub (memory st) v) st else st.

(** [null] is read as [0] by the arithmetic. *)
Definition operand (first : option number) : number :=
  match first with
  | Some x => x
  | None => zero
  end.

Definition inputDecimal (st : state) : state :=
  if waitingForSecondOperand st then
    {| displayValue := "0."; firstOperand := firstOperand st;
       operator := operator st; waitingForSecondOperand := false;
       memory := memory st |}
  else if negb (includes_dot (displayValue st)) then
    set_display (displayValue st +++ ".") st
  else st.

Definition backspace (st : state) : state :=
  if waitingForSecondOperand st then
    {| displayValue := "0"; firstOperand := firstOperand st;
       operator := operator st; waitingForSecondOperand := false;
       memory := memory st |}
  else if 1 <? slen (displayValue st) then
    set_display (drop_last (displayValue st)) st
  else set_display "0" st.

Definition inputPercent (st : state) : state :=
  let value := parseFloat (displayValue st) in
  if is_nan value then st
  else set_display (formatNumber (div value hundred)) st.

Definition calculate (first : option number) (second : number)
  (operator : string) : number :=
  if String.eqb operator "add" then add (operand first) second
  else if String.eqb operator "subtract" then sub (operand first) second
  else if String.eqb operator "multiply" then mul (operand first) second
  else if String.eqb operator "divide" then
    if strict_eq second zero then Infinity
    else div (operand first) second
  else second.

(** [state.operator] used as a condition: neither [null] nor empty. *)
Definition pending (op : option string) : bool :=
  match op with
  | Some name => truthy name
  | None => false
  end.

Definition handleOperator (nextOperator : string) (st : state) : state :=
  let inputValue := parseFloat (displayValue st) in
  if is_nan inputValue then st
  else if pending (operator st) && waitingForSecondOperand st then
    {| displayValue := displayValue st; firstOperand := firstOperand st;
       operator := Some nextOperator;
       waitingForSecondOperand := waitingForSecondOperand st;
       memory := memory st |}
  else
    match firstOperand st, operator st with
    | None, _ =>
        {| displayValue := displayValue st; firstOperand := Some inputValue;
           operator := Some nextOperator; waitingForSecondOperand := true;
           memory := memory st |}
    | Some first, Some name =>
        if truthy name then
          let result := calculate (Some first) inputValue name in
          let formatted := formatNumber result in
          if String.eqb formatted "Error" then
            {| displayValue := formatted; firstOperand := None;
               operator := None; waitingForSecondOperand := false;
               memory := memory st |}
          else
            {| displayValue := formatted;
               firstOperand := Some (parseFloat formatted);
               operator := Some nextOperator;
               waitingForSecondOperand := true; memory := memory st |}
        else
          {| displayValue := displayValue st; firstOperand := Some first;
             operator := Some nextOperator; waitingForSecondOperand := true;
             memory := memory st |}
    | Some first, None =>
        {| displayValue := displayValue st; firstOperand := Some first;
           operator := Some nextOperator; waitingForSecondOperand := true;
           memory := memory st |}
    end.

Definition equals (st : state) : state :=
  match operator st with
  | None => st
  | Some name =>
      if waitingForSecondOperand st then st
      else
        let inputValue := parseFloat (displayValue st) in
        let result := calculate (firstOperand st) inputValue name in
        {| displayValue := formatNumber result; firstOperand := None;
           operator := None; waitingForSecondOperand := false;
           memory := memory st |}
  end.

Definition setConstant (constant : string) (st : state) : state :=
  let value := if String.eqb constant "pi" then Math_PI else Math_E in
  {| displayValue := formatNumber value; firstOperand := firstOperand st;
     operator := operator st; waitingForSecondOperand := false;
     memory := memory st |}.

(** The click on a button with a [data-number]. *)
Definition click_number (number : string) (st : state) : state :=
  if (MAX_DISPLAY_LENGTH <=? slen (displayValue st))
     && negb (waitingForSecondOperand st)
  then st
  else inputDigit number st.

(** The click on a button with a [data-action]: the [switch]. *)
Definition click_action (action : string) (st : state) : state :=
  if String.eqb action "decimal" then inputDecimal st
  else if String.eqb action "clear" then resetCalculator st
  else if String.eqb action "backspace" then backspace st
  else if String.eqb action "percent" then inputPercent st
  else if String.eqb action "add" || String.eqb action "subtract"
          || String.eqb action "multiply" || String.eqb action "divide"
  then handleOperator action st
  else if String.eqb action "equals" then equals st
  else if String.eqb action "pi" then setConstant "pi" st
  else if String.eqb action "e" then setConstant "e" st
  else if String.eqb action "mem-clear" then memoryClear st
  else if String.eqb action "mem-recall" then memoryRecall st
  else if String.eqb action "mem-plus" then memoryPlus st
  else if String.eqb action "mem-minus" then memoryMinus st
  else
    match unary_of_action action with
    | Some op => applyUnary op st
    | None => st
    end.

(** The [keydown] listener, on the [key] of the event. *)
Definition keydown (key : string) (st : state) : state :=
  if is_one_digit key then inputDigit key st
  else if String.eqb key "." then inputDecimal st
  else if String.eqb key "+" then handleOperator "add" st
  else if String.eqb key "-" then handleOperator "subtract" st
  else if String.eqb key "*" || String.eqb key "x" || String.eqb key "X"
  then handleOperator "multiply" st
  else if String.eqb key "/" then handleOperator "divide" st
  else if String.eqb key "Enter" || String.eqb key "=" then equals st
  else if String.eqb key "Backspace" then backspace st
  else if String.eqb key "Escape" then resetCalculator st
  else if String.eqb key "%" then inputPercent st
  else st.

End Basic.

(* ================================================================= *)
(** * [src/unnamed/part_000]: the scientific calculator *)

Module Sci.

(** ** The expression evaluator (shunting-yard and RPN) *)

Inductive associativity : Type := L | R.

Record OperatorSpec : Type := mkOp {
  prec : Z;
  assoc : associativity;
  fn : value -> value -> number
}.

(** A call either returns or throws; the script has no [throw] of its own,
    the one exception it can meet is the [TypeError] of calling something
    that is not a function. *)
Inductive exception : Type := TypeError.

Inductive outcome (A : Type) : Type :=
| Returns (a : A)
| Throws (e : exception).
Arguments Returns {A} a.
Arguments Throws {A} e.

(** The optional [-] of the pattern. *)
Definition strip_minus (t : string) : string :=
  match t with String "-" r => r | _ => t end.

(** [/^-?\d+(?:\.\d+)?$/.test(t)] *)
Definition isNumberToken (t : string) : bool :=
  let (ip, rest) := span_digits (strip_minus t) in
  truthy ip &&
  match rest with
  | EmptyString => true
  | String "." f => truthy f && all_digits f
  | _ => false
  end.

(** The property names every object inherits from [Object.prototype]: the
    [in] operator finds them in [OPERATORS] too. *)
Definition inherited (t : string) : bool :=
  existsb (String.eqb t)
    ["constructor"; "hasOwnProperty"; "isPrototypeOf";
     "propertyIsEnumerable"; "toLocaleString"; "toString"; "valueOf";
     "__proto__"; "__defineGetter__"; "__defineSetter__";
     "__lookupGetter__"; "__lookupSetter__"].

(** [a <= b] and [a < b] on two property reads that may be [undefined]
    ([None]): a comparison with [undefined] is false. *)
Definition le_undef (a b : option Z) : bool :=
  match a, b with Some x, Some y => x <=? y | _, _ => false end.
Definition lt_undef (a b : option Z) : bool :=
  match a, b with Some x, Some y => x <? y | _, _ => false end.

Definition is_assoc (a : option associativity) (d : associativity) : bool :=
  match a, d with
  | Some L, L | Some R, R => true
  | _, _ => false
  end.

Fixpoint flush (output ops : list string) : list string :=
  match ops with
  | [] => output
  | o :: ops' => flush (output ++ [o]) ops'
  end.

Section Evaluator.
Context {rt : MathImpl}.

(** The own properties of the object [OPERATORS]. *)
Definition OPERATORS (t : string) : option OperatorSpec :=
  if String.eqb t "+" then
    Some (mkOp 2 L (fun a b => add (ToNumber a) (ToNumber b)))
  else if String.eqb t "-" then
    Some (mkOp 2 L (fun a b => sub (ToNumber a) (ToNumber b)))
  else if String.eqb t "*" then
    Some (mkOp 3 L (fun a b => mul (ToNumber a) (ToNumber b)))
  else if String.eqb t "/" then
    Some (mkOp 3 L (fun a b => div (ToNumber a) (ToNumber b)))
  else if String.eqb t "^" then
    Some (mkOp 4 R (fun a b => Math_pow (ToNumber a) (ToNumber b)))
  else None.

(** [t in OPERATORS] *)
Definition in_OPERATORS (t : string) : bool :=
  match OPERATORS t with
  | Some _ => true
  | None => inherited t
  end.

(** [OPERATORS[t].prec] and [OPERATORS[t].assoc]; [undefined] on the
    inherited properties, which have no such fields. *)
Definition prec_of (t : string) : option Z := option_map prec (OPERATORS t).
Definition assoc_of (t : string) : option associativity :=
  option_map assoc (OPERATORS t).

(** The condition of the inner loop of [toRPN], for the incoming operator
    [t] and the top [o2] of the stack. *)
Definition pops (t o2 : string) : bool :=
  in_OPERATORS o2 &&
  ((is_assoc (assoc_of t) L && le_undef (prec_of t) (prec_of o2))
   || (is_assoc (assoc_of t) R && lt_undef (prec_of t) (prec_of o2))).

(** The arrays [output] and [ops] of [toRPN]. [output] is in array order;
    [ops] is used as a stack and kept top first: [ops.push(t)] is
    [t :: ops], [ops[ops.length - 1]] is the head and [ops.pop()] removes
    it (and does nothing on the empty array). *)

(** [while (ops.length) { ... pops ... output.push(ops.pop()) } ] *)
Fixpoint pop_operators (t : string) (output ops : list string)
  : list string * list string :=
  match ops with
  | [] => (output, [])
  | o2 :: ops' =>
      if pops t o2 then pop_operators t (output ++ [o2]) ops'
      else (output, ops)
  end.

(** [while (ops.length && ops[ops.length - 1] !== '(') output.push(ops.pop())] *)
Fixpoint pop_to_paren (output ops : list string)
  : list string * list string :=
  match ops with
  | [] => (output, [])
  | o :: ops' =>
      if String.eqb o "(" then (output, ops)
      else pop_to_paren (output ++ [o]) ops'
  end.

(** One turn of the [for] loop of [toRPN]. *)
Definition toRPN_step (st : list string * list string) (t : string)
  : list string * list string :=
  let (output, ops) := st in
  if isNumberToken t || String.eqb t "pi" || String.eqb t "e" then
    (output ++ [t], ops)
  else if in_OPERATORS t then
    let (output', ops') := pop_operators t output ops in
    (output', t :: ops')
  else if String.eqb t "(" then
    (output, t :: ops)
  else if String.eqb t ")" then
    let (output', ops') := pop_to_paren output ops in
    (output', tl ops')
  else
    (output, t :: ops).

Definition toRPN (tokens : list string) : list string :=
  let (output, ops) := fold_left toRPN_step tokens ([], []) in
  flush output ops.

(** [stack.pop()] on the value stack, kept top first. *)
Definition pop (stack : list number) : value * list number :=
  match stack with
  | [] => (Undefined, [])
  | x :: stack' => (Number x, stack')
  end.

(** The literal [180]. *)
Definition n180 : number := of_Z 180.

Definition to_radians (a : number) : number := div (mul a Math_PI) n180.

(** The [switch] on the function name. *)
Definition apply_function (degMode : bool) (t : string) (a : value) : number :=
  let x := ToNumber a in
  if String.eqb t "sin" then
    if degMode then Math_sin (to_radians x) else Math_sin x
  else if String.eqb t "cos" then
    if degMode then Math_cos (to_radians x) else Math_cos x
  else if String.eqb t "tan" then
    if degMode then Math_tan (to_radians x) else Math_tan x
  else if String.eqb t "ln" then Math_log x
  else if String.eqb t "log" then Math_log10 x
  else if String.eqb t "sqrt" then
    if lt x zero then NaN else Math_sqrt x
  else if String.eqb t "neg" then neg x
  else if String.eqb t "square" then mul x x
  else if String.eqb t "reciprocal" then
    if strict_eq x zero then Infinity else div one x
  else NaN.

(** One turn of the [for] loop of [evalRPN]. *)
Definition evalRPN_step (degMode : bool) (stack : list number) (t : string)
  : outcome (list number) :=
  if isNumberToken t then Returns (parseFloat t :: stack)
  else if String.eqb t "pi" then Returns (Math_PI :: stack)
  else if String.eqb t "e" then Returns (Math_E :: stack)
  else if in_OPERATORS t then
    let (b, stack1) := pop stack in
    let (a, stack2) := pop stack1 in
    match OPERATORS t with
    | Some o => Returns (fn o a b :: stack2)
    | None => Throws TypeError      (* [OPERATORS[t].fn] is [undefined] *)
    end
  else
    let (a, stack1) := pop stack in
    Returns (apply_function degMode t a :: stack1).

Fixpoint evalRPN_loop (degMode : bool) (rpn : list string)
  (stack : list number) : outcome (list number) :=
  match rpn with
  | [] => Returns stack
  | t :: rpn' =>
      match evalRPN_step degMode stack t with
      | Returns stack' => evalRPN_loop degMode rpn' stack'
      | Throws e => Throws e
      end
  end.

(** [evalRPN] reads [state.degMode]; it is an argument here. *)
Definition evalRPN (degMode : bool) (rpn : list string) : outcome value :=
  match evalRPN_loop degMode rpn [] with
  | Returns stack => Returns (fst (pop stack))
  | Throws e => Throws e
  end.

Definition evaluateExpression (degMode : bool) (tokens : list string)
  : value :=
  match evalRPN degMode (toRPN tokens) with
  | Returns val => val
  | Throws _ => Number NaN
  end.

End Evaluator.

(** ** The engine state and its input handlers *)

Record state : Type := mkState {
  displayValue : string;
  firstOperand : option number;     (* [null] or a Number *)
  operator : option string;         (* [null] or an action name *)
  waitingForSecondOperand : bool;
  memory : number;
  exprTokens : list string;         (* in array order *)
  currentToken : string;
  degMode : bool
}.

Definition initial : state :=
  {| displayValue := "0"; firstOperand := None; operator := None;
     waitingForSecondOperand := false; memory := zero;
     exprTokens := []; currentToken := ""; degMode := false |}.

Definition set_display (d : string) (st : state) : state :=
  {| displayValue := d; firstOperand := firstOperand st;
     operator := operator st;
     waitingForSecondOperand := waitingForSecondOperand st;
     memory := memory st; exprTokens := exprTokens st;
     currentToken := currentToken st; degMode := degMode st |}.

Definition set_token (t : string) (st : state) : state :=
  {| displayValue := displayValue st; firstOperand := firstOperand st;
     operator := operator st;
     waitingForSecondOperand := waitingForSecondOperand st;
     memory := memory st; exprTokens := exprTokens st;
     currentToken := t; degMode := degMode st |}.

Definition set_tokens (ts : list string) (st : state) : state :=
  {| displayValue := displayValue st; firstOperand := firstOperand st;
     operator := operator st;
     waitingForSecondOperand := waitingForSecondOperand st;
     memory := memory st; exprTokens := ts;
     currentToken := currentToken st; degMode := degMode st |}.

Definition set_memory (m : number) (st : state) : state :=
  {| displayValue := displayValue st; firstOperand := firstOperand st;
     operator := operator st;
     waitingForSecondOperand := waitingForSecondOperand st;
     memory := m; exprTokens := exprTokens st;
     currentToken := currentToken st; degMode := degMode st |}.

Definition resetCalculator (st : state) : state :=
  {| displayValue := "0"; firstOperand := None; operator := None;
     waitingForSecondOperand := false;
     memory := memory st; exprTokens := exprTokens st;
     currentToken := currentToken st; degMode := degMode st |}.

Definition inputDigit (digit : string) (st : state) : state :=
  let st1 :=
    if String.eqb (currentToken st) "0" then set_token digit st
    else set_token (currentToken st +++ digit) st in
  set_display (currentToken st1) st1.

(** [if (state.currentToken) { state.exprTokens.push(state.currentToken);
    state.currentToken = ''; }] *)
Definition push_current (st : state) : state :=
  if truthy (currentToken st) then
    set_token "" (set_tokens (exprTokens st ++ [currentToken st]) st)
  else st.

(** The own properties of [map] in [handleOperator]; the handlers call it
    with the four action names only. *)
Definition operator_symbol (nextOperator : string) : string :=
  if String.eqb nextOperator "add" then "+"
  else if String.eqb nextOperator "subtract" then "-"
  else if String.eqb nextOperator "multiply" then "*"
  else if String.eqb nextOperator "divide" then "/"
  else nextOperator.

Definition handleOperator (nextOperator : string) (st : state) : state :=
  let st1 := push_current st in
  set_tokens (exprTokens st1 ++ [operator_symbol nextOperator]) st1.

Section Equals.
Context {rt : MathImpl}.

(** [equals]; the entry it adds to the history kept in [localStorage] is
    outside the engine state. *)
Definition equals (st : state) : state :=
  let st1 := push_current st in
  match exprTokens st1 with
  | [] => st1
  | _ :: _ =>
      let val := evaluateExpression (degMode st1) (exprTokens st1) in
      let formatted :=
        if isFinite val then formatNumber (ToNumber val) else "Error" in
      {| displayValue := formatted; firstOperand := None; operator := None;
         waitingForSecondOperand := false; memory := memory st1;
         exprTokens := []; currentToken := currentToken st1;
         degMode := degMode st1 |}
  end.

End Equals.

Definition applyUnary (op : unary) (st : state) : state :=
  let target :=
    if truthy (currentToken st) then currentToken st else displayValue st in
  let value := parseFloat target in
  if is_nan value then st
  else
    let result := unaryOps op value in
    let formatted := formatNumber result in
    let st1 :=
      if truthy (currentToken st) then set_token (Number_toString result) st
      else st in
    let st2 := set_display formatted st1 in
    if String.eqb formatted "Error" then
      set_display "Error" (resetCalculator st2)
    else st2.

Definition memoryClear (st : state) : state := set_memory zero st.

Definition memoryRecall (st : state) : state :=
  {| displayValue := formatNumber (memory st);
     firstOperand := firstOperand st; operator := operator st;
     waitingForSecondOperand := false; memory := memory st;
     exprTokens := exprTokens st; currentToken := currentToken st;
     degMode := degMode st |}.

Definition memoryPlus (st : state) : state :=
  let v := parseFloat (displayValue st) in
  if negb (is_nan v) then set_memory (add (memory st) v) st else st.

Definition memoryMinus (st : state) : state :=
  let v := parseFloat (displayValue st) in
  if negb (is_nan v) then set_memory (sub (memory st) v) st else st.

Definition inputDecimal (st : state) : state :=
  let st1 :=
    if negb (truthy (currentToken st)) then set_token "0." st
    else if negb (includes_dot (currentToken st)) then
      set_token (currentToken st +++ ".") st
    else st in
  set_display (currentToken st1) st1.

Definition backspace (st : state) : state :=
  if truthy (currentToken st) && (0 <? slen (currentToken st)) then
    let st1 := set_token (drop_last (currentToken st)) st in
    set_display (if truthy (currentToken st1) then currentToken st1 else "0")
                st1
  else
    match exprTokens st with
    | [] => st
    | _ :: _ => set_display "0" (set_tokens (removelast (exprTokens st)) st)
    end.

Definition inputPercent (st : state) : state :=
  let target :=
    if truthy (currentToken st) then currentToken st else displayValue st in
  let value := parseFloat target in
  if is_nan value then st
  else
    let result := div value hundred in
    let st1 :=
      if truthy (currentToken st) then set_token (Number_toString result) st
      else st in
    set_display (formatNumber result) st1.

Definition clearEntry (st : state) : state :=
  set_display "0" (set_token "" st).

Definition setConstant (constant : string) (st : state) : state :=
  let value := if String.eqb constant "pi" then Math_PI else Math_E in
  {| displayValue := formatNumber value; firstOperand := firstOperand st;
     operator := operator st; waitingForSecondOperand := false;
     memory := memory st; exprTokens := exprTokens st;
     currentToken := Number_toString value; degMode := degMode st |}.

(** The click on a button with a [data-number]. *)
Definition click_number (number : string) (st : state) : state :=
  if (MAX_DISPLAY_LENGTH <=? slen (displayValue st))
     && negb (waitingForSecondOperand st)
  then st
  else inputDigit number st.

(** [state.exprTokens.push(t)] *)
Definition push_token (t : string) (st : state) : state :=
  set_tokens (exprTokens st ++ [t]) st.

Section Click.
Context {rt : MathImpl}.

(** The click on a button with a [data-action]: the [switch]. The actions
    [copy] and [history] do not touch the state. *)
Definition click_action (action : string) (st : state) : state :=
  if String.eqb action "decimal" then inputDecimal st
  else if String.eqb action "clear" then resetCalculator st
  else if String.eqb action "clear-entry" then clearEntry st
  else if String.eqb action "backspace" then backspace st
  else if String.eqb action "percent" then inputPercent st
  else if String.eqb action "paren-open" then push_token "(" st
  else if String.eqb action "paren-close" then
    push_token ")" (push_current st)
  else if String.eqb action "power" then push_token "^" (push_current st)
  else if String.eqb action "add" || String.eqb action "subtract"
          || String.eqb action "multiply" || String.eqb action "divide"
  then handleOperator action st
  else if String.eqb action "equals" then equals st
  else if String.eqb action "sin" || String.eqb action "cos"
          || String.eqb action "tan" || String.eqb action "ln"
          || String.eqb action "log"
  then push_token action (push_current st)
  else if String.eqb action "deg-toggle" then
    {| displayValue := displayValue st; firstOperand := firstOperand st;
       operator := operator st;
       waitingForSecondOperand := waitingForSecondOperand st;
       memory := memory st; exprTokens := exprTokens st;
       currentToken := currentToken st; degMode := negb (degMode st) |}
  else if String.eqb action "pi" then setConstant "pi" st
  else if String.eqb action "e" then setConstant "e" st
  else if String.eqb action "mem-clear" then memoryClear st
  else if String.eqb action "mem-recall" then memoryRecall st
  else if String.eqb action "mem-plus" then memoryPlus st
  else if String.eqb action "mem-minus" then memoryMinus st
  else
    match unary_of_action action with
    | Some op => applyUnary op st
    | None => st
    end.

(** The [keydown] listener, on the [key] of the event. *)
Definition keydown (key : string) (st : state) : state :=
  if is_one_digit key then inputDigit key st
  else if String.eqb key "." then inputDecimal st
  else if String.eqb key "+" then handleOperator "add" st
  else if String.eqb key "-" then handleOperator "subtract" st
  else if String.eqb key "*" || String.eqb key "x" || String.eqb key "X"
  then handleOperator "multiply" st
  else if String.eqb key "/" then handleOperator "divide" st
  else if String.eqb key "Enter" || String.eqb key "=" then equals st
  else if String.eqb key "Backspace" then backspace st
  else if String.eqb key "Escape" then resetCalculator st
  else if String.eqb key "%" then inputPercent st
  else st.

(** The click listener: the attributes [data-number] and [data-action] of
    the button ([null] when the button has none). *)
Definition click (number action : option string) (st : state) : state :=
  match number with
  | Some n => click_number n st
  | None =>
      match action with
      | Some a => if truthy a then click_action a st else st
      | None => st
      end
  end.

End Click.

End Sci.

(* ================================================================= *)
(** * Infix expressions under the standard precedence

    The reference against which the evaluator is checked: syntax trees of
    numbers and the five binary operators, with the parentheses that were
    written, and their value computed by recursion on the tree. *)

Inductive binop : Type := Add | Sub | Mul | Div | Pow.

Inductive expr : Type :=
| Lit (t : string)
| Bin (o : binop) (a b : expr)
| Paren (a : expr).

Definition symbol (o : binop) : string :=
  match o with
  | Add => "+" | Sub => "-" | Mul => "*" | Div => "/" | Pow => "^"
  end.

(** Binding strength: additive, multiplicative, power. *)
Definition level (o : binop) : nat :=
  match o with
  | Add | Sub => 1
  | Mul | Div => 2
  | Pow => 3
  end.

(** Only the power groups to the right. *)
Definition right_assoc (o : binop) : bool :=
  match o with Pow => true | _ => false end.

(** The tokens of an expression, left to right. *)
Fixpoint tokens (e : expr) : list string :=
  match e with
  | Lit t => [t]
  | Bin o a b => tokens a ++ symbol o :: tokens b
  | Paren a => "(" :: tokens a ++ [")"]
  end.

(** [well_formed l e]: the tokens of [e] read back as the tree [e] where an
    operand of strength at least [l] is expected. An operator weaker than
    its position needs parentheses; of two operators of the same strength
    the left one groups first, except for the power. *)
Fixpoint well_formed (l : nat) (e : expr) : bool :=
  match e with
  | Lit t => Sci.isNumberToken t
  | Paren a => well_formed 1 a
  | Bin o a b =>
      (l <=? level o)%nat &&
      if right_assoc o
      then well_formed (S (level o)) a && well_formed (level o) b
      else well_formed (level o) a && well_formed (S (level o)) b
  end.

(** The postfix form of an expression. *)
Fixpoint postfix (e : expr) : list string :=
  match e with
  | Lit t => [t]
  | Bin o a b => postfix a ++ postfix b ++ [symbol o]
  | Paren a => postfix a
  end.

Section Denotation.
Context {rt : MathImpl}.

Definition apply_binop (o : binop) (x y : number) : number :=
  match o with
  | Add => add x y
  | Sub => sub x y
  | Mul => mul x y
  | Div => div x y
  | Pow => Math_pow x y
  end.

(** The value of an expression. *)
Fixpoint denote (e : expr) : number :=
  match e with
  | Lit t => parseFloat t
  | Bin o a b => apply_binop o (denote a) (denote b)
  | Paren a => denote a
  end.

End Denotation.

(** ** Assumptions on the engine's [Math.pow] *)

(** The integer a Number is, when it is integral. *)
Definition to_integer (x : number) : option Z :=
  match x with
  | S754_zero _ => Some 0
  | S754_finite s m e =>
      let v := if s then Zneg m else Zpos m in
      if 0 <=? e then Some (v * 2 ^ e)
      else if Zpos m mod 2 ^ (- e) =? 0 then Some (v / 2 ^ (- e))
      else None
  | _ => None
  end.

(** [Math.pow] is exact on the integer powers a double holds exactly. *)
Definition exact_integer_powers (rt : MathImpl) : Prop :=
  forall (x y : number) (a b : Z),
    to_integer x = Some a -> to_integer y = Some b ->
    a <> 0 -> 0 < b -> Z.abs (a ^ b) < 2 ^ 53 ->
    impl_pow x y = of_Z (a ^ b).

(** An engine that is exact on those powers (and says [NaN] wherever the
    standard leaves the result to the implementation): the assumption can
    be met. *)
Definition integer_powers : MathImpl :=
  {| impl_sin := fun _ => NaN;
     impl_cos := fun _ => NaN;
     impl_tan := fun _ => NaN;
     impl_log := fun _ => NaN;
     impl_log10 := fun _ => NaN;
     impl_pow := fun x y =>
       match to_integer x, to_integer y with
       | Some a, Some b =>
           if (0 <? b) && (Z.abs (a ^ b) <? 2 ^ 53) then of_Z (a ^ b)
           else NaN
       | _, _ => NaN
       end |}.

(** ** Tokens by the branch of the converter that takes them *)

Section Tokens.
Context {rt : MathImpl}.

(** Numbers and the two constants go to the output. *)
Definition is_operand (t : string) : bool :=
  Sci.isNumberToken t || String.eqb t "pi" || String.eqb t "e".

(** The tokens of the last branch of [toRPN], "function names". *)
Definition is_function (t : string) : bool :=
  negb (is_operand t) && negb (Sci.in_OPERATORS t)
  && negb (String.eqb t "(") && negb (String.eqb t ")").

End Tokens.

(** The operator stack [toRPN] holds when its [for] loop ends. *)
Definition final_stack {rt : MathImpl} (ts : list string) : list string :=
  snd (fold_left Sci.toRPN_step ts ([], [])).

Definition final_output {rt : MathImpl} (ts : list string) : list string :=
  fst (fold_left Sci.toRPN_step ts ([], [])).

(** ** What a memory operation must leave alone *)

Definition basic_frame (st st' : Basic.state) : Prop :=
  Basic.displayValue st' = Basic.displayValue st
  /\ Basic.firstOperand st' = Basic.firstOperand st
  /\ Basic.operator st' = Basic.operator st
  /\ Basic.waitingForSecondOperand st' = Basic.waitingForSecondOperand st.

Definition sci_frame (st st' : Sci.state) : Prop :=
  Sci.displayValue st' = Sci.displayValue st
  /\ Sci.currentToken st' = Sci.currentToken st
  /\ Sci.exprTokens st' = Sci.exprTokens st
  /\ Sci.firstOperand st' = Sci.firstOperand st
  /\ Sci.operator st' = Sci.operator st
  /\ Sci.waitingForSecondOperand st' = Sci.waitingForSecondOperand st
  /\ Sci.degMode st' = Sci.degMode st.

(** ** The states in which a digit is typed on a displayed [Error] *)

(** The keys 2, +, 0, 1/x on the scientific calculator. *)
Definition sci_error_state : Sci.state :=
  Sci.applyUnary reciprocal
    (Sci.inputDigit "0"
       (Sci.handleOperator "add" (Sci.inputDigit "2" Sci.initial))).

(** The key 1/x on the basic calculator, just started. *)
Definition basic_error_state : Basic.state :=
  Basic.applyUnary reciprocal Basic.initial.

(** ** Notions for the proofs about the converter and the evaluator *)

(** The tokens the converter may put on its stack. *)
Definition stackable (t : string) : Prop := is_operand t = false.

(** The outcomes in which [evaluateExpression] gives [NaN]: an exception,
    or [NaN] on top of the stack. *)
Definition nan_on_top (o : Sci.outcome (list number)) : Prop :=
  match o with
  | Sci.Returns stack => exists below, stack = NaN :: below
  | Sci.Throws _ => True
  end.

(** The strengths expected on the two sides of an operator. *)
Definition left_level (o : binop) : nat :=
  if right_assoc o then S (level o) else level o.
Definition right_level (o : binop) : nat :=
  if right_assoc o then level o else S (level o).

Section Invariant.
Context {rt : MathImpl}.

(** Operators pending on the stack, all of strength at least [l]. *)
Definition pending (l : nat) (pend : list string) : Prop :=
  Forall (fun t => exists o, t = symbol o /\ (l <= level o)%nat) pend.

(** The stack below an operand of strength [l]: no operator of that operand
    pops its top. *)
Definition guards (l : nat) (ops : list string) : Prop :=
  match ops with
  | [] => True
  | o2 :: _ => forall o, (l <= level o)%nat -> Sci.pops (symbol o) o2 = false
  end.

End Invariant.

(** ** The text of [toExponential(10)]

    An optional [-], one digit, a point, ten digits, [e], a sign and the
    digits of the exponent. *)
Definition exponential_text (s : string) : bool :=
  match Sci.strip_minus s with
  | String d (String "." r) =>
      is_digit d &&
      let (frac, rest) := span_digits r in
      (slen frac =? 10) &&
      match rest with
      | String "e" (String sg ex) =>
          (Ascii.eqb sg "+" || Ascii.eqb sg "-") && truthy ex && all_digits ex
      | _ => false
      end
  | _ => false
  end.

(** ** Notions for the proofs about the formatter *)

(** A text that does not start with a digit. *)
Definition no_digit_head (s : string) : Prop :=
  match s with
  | EmptyString => True
  | String c _ => is_digit c = false
  end.

(** The number [x] with the sign [sg]. *)
Definition with_sign (sg : bool) (x : number) : number :=
  match x with
  | S754_zero _ => S754_zero sg
  | S754_infinity _ => S754_infinity sg
  | S754_nan => S754_nan
  | S754_finite _ m e => S754_finite sg m e
  end.

Definition sign_text (sg : bool) : string := if sg then "-" else "".

(** A negative zero is written [0] and read back as [0]. *)
Definition unsigned_zero (x : number) : number :=
  match x with
  | S754_zero _ => zero
  | _ => x
  end.

(** ** The popping rule in the words of the specification

    One rule for whatever is on top of the stack: an incoming operator pops
    it when the operator, grouping to the left, is of lower or equal
    precedence, or, grouping to the right, of lower precedence. The
    operators have the standard precedences; a function is the marker of
    the lowest precedence. *)

Definition spec_precedence (x : string) : Z :=
  if String.eqb x "+" || String.eqb x "-" then 1
  else if String.eqb x "*" || String.eqb x "/" then 2
  else if String.eqb x "^" then 3
  else 0.

Definition spec_boundary (t x : string) : bool :=
  if String.eqb t "^" then spec_precedence t <? spec_precedence x
  else spec_precedence t <=? spec_precedence x.

(** ** Notions for the properties of the converter *)

(** The tokens other than the two parentheses. *)
Definition not_paren (t : string) : bool :=
  negb (String.eqb t "(" || String.eqb t ")").

(** The function names that read the angle mode. *)
Definition reads_degMode (t : string) : bool :=
  String.eqb t "sin" || String.eqb t "cos" || String.eqb t "tan".

(** ** Notions for the properties of the keys *)

(** The number of decimal points of a text. *)
Fixpoint dots (s : string) : nat :=
  match s with
  | EmptyString => O
  | String c r => ((if Ascii.eqb c "." then 1 else 0) + dots r)%nat
  end.

(** The fields of the basic calculator the scientific script still carries. *)
Definition legacy_fields_unset (st : Sci.state) : Prop :=
  Sci.firstOperand st = None /\ Sci.operator st = None
  /\ Sci.waitingForSecondOperand st = false.

(** The names of the keys that read the display as a number and give up
    when it is none. *)
Definition numeric_keys : list string :=
  ["add"; "subtract"; "multiply"; "divide"; "percent"; "negate"; "sqrt";
   "square"; "reciprocal"; "mem-plus"; "mem-minus"].

(** The button that does what a key of the keyboard does. *)
Definition button_of_key (key : string) : option string :=
  if String.eqb key "." then Some "decimal"
  else if String.eqb key "+" then Some "add"
  else if String.eqb key "-" then Some "subtract"
  else if String.eqb key "*" || String.eqb key "x" || String.eqb key "X"
  then Some "multiply"
  else if String.eqb key "/" then Some "divide"
  else if String.eqb key "Enter" || String.eqb key "=" then Some "equals"
  else if String.eqb key "Backspace" then Some "backspace"
  else if String.eqb key "Escape" then Some "clear"
  else if String.eqb key "%" then Some "percent"
  else None.

(** ** Typing an expression on the buttons *)

(** A button, by its attributes [data-number] and [data-action]. *)
Definition button : Type := (option string * option string)%type.

Definition digit_button (c : ascii) : button :=
  (Some (String c EmptyString), None).

Definition action_button (a : string) : button := (None, Some a).

(** The buttons that type a literal, character by character. *)
Fixpoint literal_buttons (t : string) : list button :=
  match t with
  | EmptyString => []
  | String c r =>
      (if Ascii.eqb c "." then action_button "decimal" else digit_button c)
      :: literal_buttons r
  end.

(** The [data-action] of the button of an operator. *)
Definition action_of (o : binop) : string :=
  match o with
  | Add => "add" | Sub => "subtract" | Mul => "multiply" | Div => "divide"
  | Pow => "power"
  end.

(** The buttons that type an expression, left to right. *)
Fixpoint buttons (e : expr) : list button :=
  match e with
  | Lit t => literal_buttons t
  | Bin o a b => buttons a ++ action_button (action_of o) :: buttons b
  | Paren a =>
      action_button "paren-open" :: buttons a ++ [action_button "paren-close"]
  end.

(** The state in which the text [p] is under entry. *)
Definition entered (p : string) (st : Sci.state) : Sci.state :=
  Sci.set_display p (Sci.set_token p st).

Definition press {rt : MathImpl} (st : Sci.state) (b : button) : Sci.state :=
  Sci.click (fst b) (snd b) st.

(** A literal the buttons can type as it is written: a Number token
    without sign, shorter than the display, with no zero before its first
    digit. *)
Definition typed_as_written (t : string) : bool :=
  Sci.isNumberToken t && (slen t <? MAX_DISPLAY_LENGTH)
  && match t with
     | String "-" _ => false
     | String "0" (String c _) => negb (is_digit c)
     | _ => true
     end.

Fixpoint typable (e : expr) : bool :=
  match e with
  | Lit t => typed_as_written t
  | Bin _ a b => typable a && typable b
  | Paren a => typable a
  end.

(* ================================================================= *)
(** * Theorems *)

(** ** The memory register *)

(** C10. The memory operations [memoryClear], [memoryPlus] and
    [memoryMinus] of both scripts change nothing but the memory register:
    the display value, the current token, the expression tokens, the first
    operand, the operator and the waiting flag are the same before and
    after. The register itself becomes [0], [memory + v], [memory - v], for
    [v] the display value read by [parseFloat], and is left as it was by
    [memoryPlus] and [memoryMinus] when the display value does not parse
    ([v] is [NaN]). *)
Theorem memory_operations_frame :
  (forall st : Basic.state,
      basic_frame st (Basic.memoryClear st)
      /\ basic_frame st (Basic.memoryPlus st)
      /\ basic_frame st (Basic.memoryMinus st)
      /\ Basic.memory (Basic.memoryClear st) = zero
      /\ Basic.memory (Basic.memoryPlus st) =
           (let v := parseFloat (Basic.displayValue st) in
            if is_nan v then Basic.memory st else add (Basic.memory st) v)
      /\ Basic.memory (Basic.memoryMinus st) =
           (let v := parseFloat (Basic.displayValue st) in
            if is_nan v then Basic.memory st else sub (Basic.memory st) v))
  /\
  (forall st : Sci.state,
      sci_frame st (Sci.memoryClear st)
      /\ sci_frame st (Sci.memoryPlus st)
      /\ sci_frame st (Sci.memoryMinus st)
      /\ Sci.memory (Sci.memoryClear st) = zero
      /\ Sci.memory (Sci.memoryPlus st) =
           (let v := parseFloat (Sci.displayValue st) in
            if is_nan v then Sci.memory st else add (Sci.memory st) v)
      /\ Sci.memory (Sci.memoryMinus st) =
           (let v := parseFloat (Sci.displayValue st) in
            if is_nan v then Sci.memory st else sub (Sci.memory st) v)).
Proof.
  split; intro st.
  - unfold Basic.memoryClear, Basic.memoryPlus, Basic.memoryMinus.
    cbv zeta.
    destruct (is_nan (parseFloat (Basic.displayValue st))); cbn [negb];
      repeat split.
  - unfold Sci.memoryClear, Sci.memoryPlus, Sci.memoryMinus.
    cbv zeta.
    destruct (is_nan (parseFloat (Sci.displayValue st))); cbn [negb];
      repeat split.
Qed.

(** ** A digit typed on a displayed [Error] *)

(** After [equals] the expression is consumed and the current token is
    empty: a digit typed then starts a fresh token, also when [equals]
    displayed [Error]. *)
Lemma digit_after_equals_is_fresh {rt : MathImpl} (st : Sci.state)
  (digit : string) :
  Sci.exprTokens (Sci.push_current st) <> [] ->
  Sci.currentToken (Sci.inputDigit digit (Sci.equals st)) = digit
  /\ Sci.displayValue (Sci.inputDigit digit (Sci.equals st)) = digit
  /\ Sci.exprTokens (Sci.inputDigit digit (Sci.equals st)) = [].
Proof.
  intro H. unfold Sci.equals.
  assert (Hc : Sci.currentToken (Sci.push_current st) = "").
  { unfold Sci.push_current.
    destruct (Sci.currentToken st) eqn:E; cbn [truthy is_empty negb].
    - exact E.
    - reflexivity. }
  destruct (Sci.exprTokens (Sci.push_current st)) as [| t ts ];
    [ now destruct H | ].
  unfold Sci.inputDigit. cbn [Sci.currentToken]. rewrite Hc.
  repeat split.
Qed.

(** C9. The README promises that an [Error] resets the calculator on the
    next input, and the scripts do not do it. On the scientific calculator,
    after 2 + 0 1/x the display shows [Error], the current token is
    [Infinity] and the tokens [2 +] are pending; the digit 5 is appended to
    the token, the display shows [Infinity5] and [2 +] is still pending. On
    the basic calculator, after 1/x on the initial [0] the display shows
    [Error], and the digit 5 makes it [Error5]. *)
Theorem digit_after_error_appends :
  (Sci.displayValue sci_error_state = "Error"
   /\ Sci.currentToken sci_error_state = "Infinity"
   /\ Sci.exprTokens sci_error_state = ["2"; "+"]
   /\ Sci.currentToken (Sci.inputDigit "5" sci_error_state) = "Infinity5"
   /\ Sci.displayValue (Sci.inputDigit "5" sci_error_state) = "Infinity5"
   /\ Sci.exprTokens (Sci.inputDigit "5" sci_error_state) = ["2"; "+"])
  /\
  (Basic.displayValue basic_error_state = "Error"
   /\ Basic.displayValue (Basic.inputDigit "5" basic_error_state) = "Error5").
Proof. vm_compute. repeat split. Qed.

(** ** The formatter *)

(** Some renderings. The product [n * 1e12] overflows for a large [n],
    and the rendering is then [Infinity]; the rounding can add a digit, as
    on [4096.1]. *)
Lemma formatNumber_examples :
  formatNumber Math_PI = "3.14159265359"
  /\ formatNumber (div one (of_Z 3)) = "0.333333333333"
  /\ formatNumber (of_Z 20) = "20"
  /\ formatNumber (div one zero) = "Error"
  /\ formatNumber (parseFloat "1e21") = "1e+21"
  /\ formatNumber (parseFloat "1e300") = "Infinity"
  /\ formatNumber (parseFloat "4096.1") = "4.0961000000e+3".
Proof. vm_compute. repeat split. Qed.

(** ** The end of the postfix evaluation *)

(** [2 3] evaluates to [3]: the value below the top is dropped, and there
    is no error. *)
Lemma trailing_operand_is_dropped :
  @Sci.evalRPN_loop integer_powers false ["2"; "3"] []
  = Sci.Returns [parseFloat "3"; parseFloat "2"]
  /\ @Sci.evalRPN integer_powers false ["2"; "3"]
     = Sci.Returns (Number (parseFloat "3"))
  /\ @Sci.evaluateExpression integer_powers false ["2"; "3"]
     = Number (of_Z 3).
Proof. repeat split. Qed.

(** C5, as the script has it. When the postfix evaluation reaches the end
    of its input, the value on top of the stack is the result, whatever
    lies below it: with exactly one value left that value is the result,
    and with more than one the values below the top are dropped without
    any error. *)
Theorem evalRPN_returns_top {rt : MathImpl} (degMode : bool)
  (rpn : list string) (x : number) (below : list number) :
  Sci.evalRPN_loop degMode rpn [] = Sci.Returns (x :: below) ->
  Sci.evalRPN degMode rpn = Sci.Returns (Number x).
Proof.
  intro H. unfold Sci.evalRPN. rewrite H. reflexivity.
Qed.

Lemma evalRPN_returns_top_witness :
  @Sci.evalRPN_loop integer_powers false ["2"; "3"] []
  = Sci.Returns [parseFloat "3"; parseFloat "2"]
  /\ @Sci.evalRPN integer_powers false ["2"; "3"]
     = Sci.Returns (Number (parseFloat "3")).
Proof.
  split.
  - reflexivity.
  - apply (@evalRPN_returns_top integer_powers false ["2"; "3"]
             (parseFloat "3") [parseFloat "2"]).
    reflexivity.
Defined.

(** ** A pop from the empty value stack *)

Lemma add_nan_r (x : number) : add x NaN = NaN.
Proof. destruct x; reflexivity. Qed.

Lemma sub_nan_r (x : number) : sub x NaN = NaN.
Proof. destruct x; reflexivity. Qed.

Lemma mul_nan_r (x : number) : mul x NaN = NaN.
Proof. destruct x; reflexivity. Qed.

Lemma div_nan_r (x : number) : div x NaN = NaN.
Proof. destruct x; reflexivity. Qed.

Lemma Math_pow_nan_r {rt : MathImpl} (x : number) : Math_pow x NaN = NaN.
Proof. reflexivity. Qed.

(** Every function of the [switch], and its [default], maps [NaN] to
    [NaN]; a popped [undefined] is read as [NaN]. *)
Lemma apply_function_nan {rt : MathImpl} (degMode : bool) (t : string)
  (a : value) :
  ToNumber a = NaN -> Sci.apply_function degMode t a = NaN.
Proof.
  intro H. unfold Sci.apply_function. rewrite H.
  repeat match goal with
         | |- context [String.eqb t ?k] => destruct (String.eqb t k)
         end;
    destruct degMode; reflexivity.
Qed.

(** [+] alone evaluates to [NaN], normally. *)
Lemma lone_operator_is_not_an_error :
  @Sci.toRPN integer_powers ["+"] = ["+"]
  /\ @Sci.evalRPN integer_powers false ["+"] = Sci.Returns (Number NaN)
  /\ @Sci.evaluateExpression integer_powers false ["+"] = Number NaN.
Proof. repeat split. Qed.

(** C4, as the script has it. The postfix evaluation has no stack
    underflow error: a pop from the empty value stack gives [undefined],
    which the arithmetic reads as [NaN]. One of the operators [+ - * /]
    reached with fewer than two values on the stack, the operator [^]
    reached with an empty stack, and a function token reached with an empty
    stack push [NaN], and the evaluation goes on. An expression that
    consists of one operator and nothing else evaluates to [NaN], which
    [equals] displays as [Error]. *)
Theorem underflow_pushes_NaN {rt : MathImpl} (degMode : bool) :
  Sci.pop [] = (Undefined, [])
  /\ (forall (t : string) (stack : list number),
        In t ["+"; "-"; "*"; "/"] -> (List.length stack < 2)%nat ->
        Sci.evalRPN_step degMode stack t = Sci.Returns [NaN])
  /\ Sci.evalRPN_step degMode [] "^" = Sci.Returns [NaN]
  /\ (forall t : string,
        is_function t = true ->
        Sci.evalRPN_step degMode [] t = Sci.Returns [NaN])
  /\ (forall t : string,
        In t ["+"; "-"; "*"; "/"; "^"] ->
        Sci.evalRPN degMode (Sci.toRPN [t]) = Sci.Returns (Number NaN)
        /\ Sci.evaluateExpression degMode [t] = Number NaN
        /\ forall st : Sci.state,
             Sci.currentToken st = "" -> Sci.exprTokens st = [t] ->
             Sci.degMode st = degMode ->
             Sci.displayValue (Sci.equals st) = "Error").
Proof.
  split; [ reflexivity | ].
  split.
  { intros t stack Ht Hlen.
    destruct stack as [| b [| a stack ]]; [ | | simpl in Hlen; lia ];
      simpl in Ht;
      repeat (destruct Ht as [<- | Ht]; [ try reflexivity | ]);
      try contradiction;
      unfold Sci.evalRPN_step; cbn; f_equal; f_equal.
  }
  split; [ reflexivity | ].
  split.
  { intros t Hf. unfold is_function, is_operand in Hf.
    unfold Sci.evalRPN_step.
    destruct (Sci.isNumberToken t); [ discriminate Hf | ].
    destruct (String.eqb t "pi"); [ discriminate Hf | ].
    destruct (String.eqb t "e"); [ discriminate Hf | ].
    destruct (Sci.in_OPERATORS t); [ discriminate Hf | ].
    cbn [Sci.pop]. rewrite apply_function_nan; reflexivity. }
  intros t Ht.
  assert (E : Sci.evaluateExpression degMode [t] = Number NaN).
  { simpl in Ht.
    repeat (destruct Ht as [<- | Ht]; [ reflexivity | ]). contradiction. }
  split; [ | split; [ exact E | ] ].
  - simpl in Ht.
    repeat (destruct Ht as [<- | Ht]; [ reflexivity | ]). contradiction.
  - intros st Hc He Hd. unfold Sci.equals, Sci.push_current.
    rewrite Hc. cbn [truthy is_empty negb]. rewrite He, Hd, E.
    reflexivity.
Qed.

Lemma underflow_pushes_NaN_witness :
  In "*" ["+"; "-"; "*"; "/"] /\ (List.length [parseFloat "7"] < 2)%nat
  /\ @Sci.evalRPN_step integer_powers true [parseFloat "7"] "*"
     = Sci.Returns [NaN]
  /\ @is_function integer_powers "sqrt" = true
  /\ @Sci.evalRPN_step integer_powers true [] "sqrt" = Sci.Returns [NaN]
  /\ @Sci.evaluateExpression integer_powers true ["/"] = Number NaN.
Proof.
  pose proof (@underflow_pushes_NaN integer_powers true)
    as (_ & Hop & _ & Hfun & Hone).
  assert (Hin : In "*" ["+"; "-"; "*"; "/"]) by (simpl; auto).
  assert (Hlen : (List.length [parseFloat "7"] < 2)%nat) by (simpl; lia).
  assert (Hf : @is_function integer_powers "sqrt" = true) by reflexivity.
  assert (Hin' : In "/" ["+"; "-"; "*"; "/"; "^"]) by (simpl; auto).
  exact (conj Hin (conj Hlen (conj (Hop "*" [parseFloat "7"] Hin Hlen)
           (conj Hf (conj (Hfun "sqrt" Hf)
              (proj1 (proj2 (Hone "/" Hin')))))))).
Defined.

(** The operator [^] with one value on the stack computes
    [Math.pow(undefined, b)], which is [1] for a zero [b] and [NaN]
    otherwise. *)
Lemma power_of_undefined {rt : MathImpl} (degMode : bool) (b : number) :
  Sci.evalRPN_step degMode [b] "^"
  = Sci.Returns [match b with S754_zero _ => one | _ => NaN end].
Proof. destruct b; reflexivity. Qed.

(** ** Functions in the converter *)

Lemma flush_app (output ops : list string) :
  Sci.flush output ops = output ++ ops.
Proof.
  revert output. induction ops as [| o ops IH]; intro output; simpl.
  - now rewrite app_nil_r.
  - rewrite IH, <- app_assoc. reflexivity.
Qed.

Lemma toRPN_unfold {rt : MathImpl} (ts : list string) :
  Sci.toRPN ts = final_output ts ++ final_stack ts.
Proof.
  unfold Sci.toRPN, final_output, final_stack.
  destruct (fold_left Sci.toRPN_step ts ([], [])) as [output ops].
  apply flush_app.
Qed.

(** [sin 30 + 1]: the [+] is pushed above the [sin], which is of lower
    precedence; the postfix form is [30 1 + sin]. *)
Lemma operator_leaves_function_on_stack :
  @is_function integer_powers "sin" = true
  /\ @Sci.pops integer_powers "+" "sin" = false
  /\ @Sci.toRPN_step integer_powers (["30"], ["sin"]) "+"
     = (["30"], ["+"; "sin"])
  /\ @Sci.toRPN integer_powers ["sin"; "30"; "+"; "1"]
     = ["30"; "1"; "+"; "sin"].
Proof. repeat split. Qed.



(** ** Unbalanced parentheses *)

Section Unbalanced.
Context {rt : MathImpl}.

Lemma pop_operators_suffix (P : string -> Prop) (t : string)
  (output ops : list string) :
  Forall P ops -> Forall P (snd (Sci.pop_operators t output ops)).
Proof.
  revert output. induction ops as [| o ops IH]; intros output H; simpl.
  - constructor.
  - destruct (Sci.pops t o).
    + apply IH. now inversion H.
    + exact H.
Qed.

Lemma pop_to_paren_suffix (P : string -> Prop) (output ops : list string) :
  Forall P ops -> Forall P (snd (Sci.pop_to_paren output ops)).
Proof.
  revert output. induction ops as [| o ops IH]; intros output H; simpl.
  - constructor.
  - destruct (String.eqb o "(").
    + exact H.
    + apply IH. now inversion H.
Qed.

Lemma Forall_tl (P : string -> Prop) (l : list string) :
  Forall P l -> Forall P (tl l).
Proof. intro H. destruct l; [ constructor | now inversion H ]. Qed.

(** No number and no constant is ever put on the operator stack. *)
Lemma toRPN_step_stackable (st : list string * list string) (t : string) :
  Forall stackable (snd st) ->
  Forall stackable (snd (Sci.toRPN_step st t)).
Proof.
  destruct st as [output ops]. cbn [snd]. intro H.
  unfold Sci.toRPN_step. fold (is_operand t).
  destruct (is_operand t) eqn:Ht; [ exact H | ].
  destruct (Sci.in_OPERATORS t).
  { pose proof (pop_operators_suffix stackable t output ops H) as H'.
    destruct (Sci.pop_operators t output ops) as [o' s']. cbn [snd] in *.
    constructor; assumption. }
  destruct (String.eqb t "("); [ constructor; assumption | ].
  destruct (String.eqb t ")").
  { pose proof (pop_to_paren_suffix stackable output ops H) as H'.
    destruct (Sci.pop_to_paren output ops) as [o' s']. cbn [snd] in *.
    now apply Forall_tl. }
  constructor; assumption.
Qed.

Lemma fold_stackable (ts : list string) (st : list string * list string) :
  Forall stackable (snd st) ->
  Forall stackable (snd (fold_left Sci.toRPN_step ts st)).
Proof.
  revert st. induction ts as [| t ts IH]; intros st H; simpl.
  - exact H.
  - apply IH. now apply toRPN_step_stackable.
Qed.

Lemma final_stack_stackable (ts : list string) :
  Forall stackable (final_stack ts).
Proof. apply fold_stackable. constructor. Qed.

Lemma evalRPN_loop_app (degMode : bool) (r1 r2 : list string)
  (stack : list number) :
  Sci.evalRPN_loop degMode (r1 ++ r2) stack =
  match Sci.evalRPN_loop degMode r1 stack with
  | Sci.Returns stack' => Sci.evalRPN_loop degMode r2 stack'
  | Sci.Throws e => Sci.Throws e
  end.
Proof.
  revert stack. induction r1 as [| t r1 IH]; intro stack; simpl.
  - reflexivity.
  - destruct (Sci.evalRPN_step degMode stack t); [ apply IH | reflexivity ].
Qed.

Lemma fn_nan_r (t : string) (o : Sci.OperatorSpec) (a : value) :
  Sci.OPERATORS t = Some o -> Sci.fn o a (Number NaN) = NaN.
Proof.
  unfold Sci.OPERATORS.
  repeat match goal with
         | |- context [String.eqb t ?k] => destruct (String.eqb t k)
         end;
    intro H; inversion H; subst; cbn [Sci.fn ToNumber].
  - apply add_nan_r.
  - apply sub_nan_r.
  - apply mul_nan_r.
  - apply div_nan_r.
  - apply Math_pow_nan_r.
Qed.

(** With [NaN] on top of the stack, a token that is not an operand leaves
    [NaN] on top, or throws. *)
Lemma step_keeps_nan (degMode : bool) (t : string) (below : list number) :
  stackable t ->
  nan_on_top (Sci.evalRPN_step degMode (NaN :: below) t).
Proof.
  unfold stackable, is_operand, Sci.evalRPN_step. intro Ht.
  destruct (Sci.isNumberToken t); [ discriminate Ht | ].
  destruct (String.eqb t "pi"); [ discriminate Ht | ].
  destruct (String.eqb t "e"); [ discriminate Ht | ].
  destruct (Sci.in_OPERATORS t).
  - cbn [Sci.pop]. destruct (Sci.pop below) as [a stack2].
    destruct (Sci.OPERATORS t) as [o |] eqn:Ho; cbn [nan_on_top]; [ | exact I ].
    exists stack2. f_equal. now apply (fn_nan_r t).
  - cbn [Sci.pop nan_on_top]. exists below. f_equal.
    now apply apply_function_nan.
Qed.

Lemma loop_keeps_nan (degMode : bool) (r : list string) :
  Forall stackable r ->
  forall below, nan_on_top (Sci.evalRPN_loop degMode r (NaN :: below)).
Proof.
  induction 1 as [| t r Ht _ IH]; intro below; simpl.
  - now exists below.
  - pose proof (step_keeps_nan degMode t below Ht) as H.
    destruct (Sci.evalRPN_step degMode (NaN :: below) t) as [stack |];
      [ | exact I ].
    destruct H as [below' ->]. apply IH.
Qed.

(** An opening parenthesis in the postfix sequence is taken for a function
    name, and no function has that name. *)
Lemma paren_step (degMode : bool) (stack : list number) :
  nan_on_top (Sci.evalRPN_step degMode stack "(").
Proof.
  destruct stack as [| x stack ]; cbn.
  - now exists [].
  - now exists stack.
Qed.

Lemma nan_on_top_result (degMode : bool) (rpn : list string) :
  nan_on_top (Sci.evalRPN_loop degMode rpn []) ->
  match Sci.evalRPN degMode rpn with
  | Sci.Returns val => val
  | Sci.Throws _ => Number NaN
  end = Number NaN.
Proof.
  unfold Sci.evalRPN.
  destruct (Sci.evalRPN_loop degMode rpn []) as [stack |]; cbn.
  - now intros [below ->].
  - reflexivity.
Qed.

Lemma Forall_app_r (P : string -> Prop) (l1 l2 : list string) :
  Forall P (l1 ++ l2) -> Forall P l2.
Proof.
  induction l1 as [| x l1 IH]; simpl; intro H.
  - exact H.
  - apply IH. now inversion H.
Qed.

Lemma unclosed_paren_nan (degMode : bool) (ts : list string) :
  In "(" (final_stack ts) ->
  Sci.evaluateExpression degMode ts = Number NaN.
Proof.
  intro Hin. unfold Sci.evaluateExpression.
  apply nan_on_top_result. rewrite toRPN_unfold.
  pose proof (final_stack_stackable ts) as Hst.
  destruct (in_split _ _ Hin) as (above & under & E).
  rewrite E in *. rewrite app_assoc, evalRPN_loop_app.
  destruct (Sci.evalRPN_loop degMode (final_output ts ++ above) [])
    as [stack |]; [ | exact I ].
  cbn [Sci.evalRPN_loop].
  pose proof (paren_step degMode stack) as Hp.
  destruct (Sci.evalRPN_step degMode stack "(") as [stack' |]; [ | exact I ].
  destruct Hp as [below ->].
  apply loop_keeps_nan.
  apply Forall_app_r in Hst. now inversion Hst.
Qed.

End Unbalanced.

(** [( 2 + 3] is converted, to [2 3 + (]: the conversion does not fail. *)
Lemma unclosed_paren_is_converted :
  @Sci.toRPN integer_powers ["("; "2"; "+"; "3"] = ["2"; "3"; "+"; "("]
  /\ @Sci.toRPN integer_powers ["2"; "+"; "3"; ")"] = ["2"; "3"; "+"]
  /\ @Sci.evalRPN integer_powers false
       (@Sci.toRPN integer_powers ["("; "2"; "+"; "3"])
     = Sci.Returns (Number NaN).
Proof. repeat split. Qed.

(** C3, as the script has it. The conversion to postfix never fails and
    has no error for unbalanced parentheses. An opening parenthesis still
    on the stack at the end of the input is popped to the output with the
    rest of the stack; the evaluation of that output gives [NaN], and
    [equals] displays [Error]. So does [( 2 + 3], whose postfix form is
    [2 3 + (]. *)
Theorem unclosed_paren_displays_Error {rt : MathImpl} :
  (forall ts : list string,
      In "(" (final_stack ts) ->
      In "(" (Sci.toRPN ts)
      /\ (forall degMode : bool,
            Sci.evaluateExpression degMode ts = Number NaN)
      /\ (forall st : Sci.state,
            Sci.currentToken st = "" -> Sci.exprTokens st = ts ->
            Sci.displayValue (Sci.equals st) = "Error"
            /\ Sci.exprTokens (Sci.equals st) = []))
  /\ Sci.toRPN ["("; "2"; "+"; "3"] = ["2"; "3"; "+"; "("]
  /\ (forall degMode : bool,
        Sci.evaluateExpression degMode ["("; "2"; "+"; "3"] = Number NaN).
Proof.
  split; [ | split; reflexivity ].
  intros ts Hin. split; [ | split ].
  - rewrite toRPN_unfold. apply in_or_app. now right.
  - intro degMode. now apply unclosed_paren_nan.
  - intros st Hc He. unfold Sci.equals, Sci.push_current.
    rewrite Hc. cbn [truthy is_empty negb]. rewrite He.
    destruct ts as [| t ts' ]; [ destruct Hin | ].
    rewrite (unclosed_paren_nan _ _ Hin). split; reflexivity.
Qed.

Lemma unclosed_paren_displays_Error_witness :
  In "(" (@final_stack integer_powers ["("; "sin"; "45"])
  /\ In "(" (@Sci.toRPN integer_powers ["("; "sin"; "45"])
  /\ @Sci.evaluateExpression integer_powers true ["("; "sin"; "45"]
     = Number NaN.
Proof.
  assert (H : In "(" (@final_stack integer_powers ["("; "sin"; "45"])).
  { right. left. reflexivity. }
  pose proof (proj1 (@unclosed_paren_displays_Error integer_powers)
                ["("; "sin"; "45"] H) as (Hout & Hnan & _).
  exact (conj H (conj Hout (Hnan true))).
Defined.

(** ** The converter and the evaluator on well-formed expressions *)

Section Correctness.
Context {rt : MathImpl}.

Lemma symbol_not_operand (o : binop) : is_operand (symbol o) = false.
Proof. destruct o; reflexivity. Qed.

Lemma symbol_in_OPERATORS (o : binop) : Sci.in_OPERATORS (symbol o) = true.
Proof. destruct o; reflexivity. Qed.

Lemma symbol_not_paren (o : binop) : String.eqb (symbol o) "(" = false.
Proof. destruct o; reflexivity. Qed.

(** The test of the popping loop, on two operators: the table of the
    script agrees with the standard strengths. *)
Lemma pops_symbol (o1 o2 : binop) :
  Sci.pops (symbol o1) (symbol o2) =
  if right_assoc o1 then (level o1 <? level o2)%nat
  else (level o1 <=? level o2)%nat.
Proof. destruct o1, o2; reflexivity. Qed.

Lemma pops_paren (t : string) : Sci.pops t "(" = false.
Proof. reflexivity. Qed.

Lemma guards_weaken (l l' : nat) (ops : list string) :
  (l <= l')%nat -> guards l ops -> guards l' ops.
Proof.
  intros Hl H. destruct ops as [| o2 ops ]; [ exact I | ].
  intros o Ho. apply H. lia.
Qed.

Lemma pending_weaken (l l' : nat) (pend : list string) :
  (l <= l')%nat -> pending l' pend -> pending l pend.
Proof.
  intros Hl H. unfold pending in *.
  eapply Forall_impl; [ | exact H ].
  intros t (o & -> & Ho). exists o. split; [ reflexivity | lia ].
Qed.

Lemma pop_operators_pending (t : string) (pend ops output : list string) :
  Forall (fun o2 => Sci.pops t o2 = true) pend ->
  match ops with [] => True | o2 :: _ => Sci.pops t o2 = false end ->
  Sci.pop_operators t output (pend ++ ops) = (output ++ pend, ops).
Proof.
  intros Hp Hstop. revert output.
  induction Hp as [| o2 pend Ho2 _ IH]; intro output; simpl.
  - rewrite app_nil_r. destruct ops as [| o2 ops ]; [ reflexivity | ].
    simpl. now rewrite Hstop.
  - rewrite Ho2, IH, <- app_assoc. reflexivity.
Qed.

Lemma pop_to_paren_pending (l : nat) (pend ops output : list string) :
  pending l pend ->
  Sci.pop_to_paren output (pend ++ "(" :: ops)
  = (output ++ pend, "(" :: ops).
Proof.
  intro Hp. revert output.
  induction Hp as [| t pend (o & -> & _) _ IH]; intro output; simpl.
  - now rewrite app_nil_r.
  - rewrite symbol_not_paren, IH, <- app_assoc. reflexivity.
Qed.

Lemma well_formed_Bin (l : nat) (o : binop) (a b : expr) :
  well_formed l (Bin o a b) = true ->
  (l <= level o)%nat
  /\ well_formed (left_level o) a = true
  /\ well_formed (right_level o) b = true.
Proof.
  simpl. unfold left_level, right_level. intro H.
  apply andb_prop in H as [Hl H]. apply Nat.leb_le in Hl.
  destruct (right_assoc o); apply andb_prop in H as [Ha Hb]; auto.
Qed.

(** The operator [o] pops what its left operand left pending. *)
Lemma pops_left (o o' : binop) :
  (left_level o <= level o')%nat ->
  Sci.pops (symbol o) (symbol o') = true.
Proof.
  rewrite pops_symbol. unfold left_level.
  destruct (right_assoc o); intro H.
  - apply Nat.ltb_lt. lia.
  - apply Nat.leb_le. lia.
Qed.

(** No operator of the right operand of [o] pops [o]. *)
Lemma guards_right (o : binop) (ops : list string) :
  guards (right_level o) (symbol o :: ops).
Proof.
  intros o' H. rewrite pops_symbol. revert H. unfold right_level.
  destruct o, o'; simpl; intro H; try reflexivity; lia.
Qed.

(** The converter on the tokens of a well-formed expression: the postfix
    form of the expression is added to the output, up to the operators
    still pending on the stack, and the stack below is untouched. *)
Lemma convert_expr (e : expr) :
  forall (l : nat) (output ops : list string),
    well_formed l e = true -> guards l ops ->
    exists output' pend,
      fold_left Sci.toRPN_step (tokens e) (output, ops)
      = (output', pend ++ ops)
      /\ output' ++ pend = output ++ postfix e
      /\ pending l pend.
Proof.
  induction e as [ t | o a IHa b IHb | a IHa ];
    intros l output ops Hwf Hg.
  - exists (output ++ [t]), []. simpl in *.
    rewrite Hwf. cbn [orb]. rewrite app_nil_r.
    repeat split. constructor.
  - apply well_formed_Bin in Hwf as (Hl & Ha & Hb).
    assert (Hla : (l <= left_level o)%nat).
    { unfold left_level. destruct (right_assoc o); lia. }
    destruct (IHa (left_level o) output ops Ha (guards_weaken _ _ _ Hla Hg))
      as (out1 & pend_a & E1 & P1 & Q1).
    assert (Estep : Sci.toRPN_step (out1, pend_a ++ ops) (symbol o)
                    = (output ++ postfix a, symbol o :: ops)).
    { unfold Sci.toRPN_step. fold (is_operand (symbol o)).
      rewrite symbol_not_operand, symbol_in_OPERATORS.
      rewrite pop_operators_pending, P1; [ reflexivity | | ].
      - eapply Forall_impl; [ | exact Q1 ].
        intros t (o' & -> & Ho'). now apply pops_left.
      - destruct ops as [| o2 ops ]; [ exact I | ]. now apply Hg. }
    destruct (IHb (right_level o) (output ++ postfix a) (symbol o :: ops)
                Hb (guards_right o ops))
      as (out2 & pend_b & E2 & P2 & Q2).
    exists out2, (pend_b ++ [symbol o]).
    cbn [tokens postfix]. rewrite fold_left_app, E1.
    cbn [fold_left]. rewrite Estep, E2.
    repeat split.
    + now rewrite <- app_assoc.
    + rewrite app_assoc, P2, <- !app_assoc. reflexivity.
    + apply Forall_app. split.
      * apply (pending_weaken l (right_level o)); [ | exact Q2 ].
        unfold right_level. destruct (right_assoc o); lia.
      * constructor; [ | constructor ]. now exists o.
  - simpl in Hwf.
    assert (Hg' : guards 1 ("(" :: ops)).
    { intros o _. apply pops_paren. }
    destruct (IHa 1%nat output ("(" :: ops) Hwf Hg')
      as (out1 & pend_a & E1 & P1 & Q1).
    exists (output ++ postfix a), [].
    cbn [tokens postfix fold_left].
    replace (Sci.toRPN_step (output, ops) "(") with (output, "(" :: ops)
      by reflexivity.
    rewrite fold_left_app, E1. cbn [fold_left].
    replace (Sci.toRPN_step (out1, pend_a ++ "(" :: ops) ")")
      with (let (output', ops') :=
              Sci.pop_to_paren out1 (pend_a ++ "(" :: ops) in
            (output', tl ops')) by reflexivity.
    rewrite (pop_to_paren_pending 1), P1. cbn [tl app].
    repeat split; [ now rewrite app_nil_r | constructor ].
    exact Q1.
Qed.

(** The converter gives the postfix form of a well-formed expression. *)
Lemma toRPN_postfix (e : expr) :
  well_formed 1 e = true -> Sci.toRPN (tokens e) = postfix e.
Proof.
  intro Hwf.
  destruct (convert_expr e 1%nat [] [] Hwf I) as (out & pend & E & P & _).
  unfold Sci.toRPN. rewrite E, app_nil_r, flush_app, P. reflexivity.
Qed.

Lemma evalRPN_step_symbol (degMode : bool) (o : binop) (x y : number)
  (stack : list number) :
  Sci.evalRPN_step degMode (y :: x :: stack) (symbol o)
  = Sci.Returns (apply_binop o x y :: stack).
Proof. destruct o; reflexivity. Qed.

(** The evaluator on a postfix form: the value of the expression is pushed
    on the stack. *)
Lemma evalRPN_postfix (degMode : bool) (e : expr) :
  forall (l : nat) (rest : list string) (stack : list number),
    well_formed l e = true ->
    Sci.evalRPN_loop degMode (postfix e ++ rest) stack
    = Sci.evalRPN_loop degMode rest (denote e :: stack).
Proof.
  induction e as [ t | o a IHa b IHb | a IHa ];
    intros l rest stack Hwf.
  - simpl in *. unfold Sci.evalRPN_step. now rewrite Hwf.
  - apply well_formed_Bin in Hwf as (_ & Ha & Hb).
    cbn [postfix denote]. rewrite <- !app_assoc.
    rewrite (IHa _ _ _ Ha), (IHb _ _ _ Hb).
    cbn [app Sci.evalRPN_loop]. now rewrite evalRPN_step_symbol.
  - simpl in *. now apply (IHa 1%nat).
Qed.

End Correctness.

(** C1. For every well-formed infix expression of numbers, the operators
    [+ - * / ^] and parentheses, converting its tokens with [toRPN] and
    evaluating the result with [evalRPN] gives the value of the expression
    under the standard precedence: [toRPN] returns the postfix form of the
    expression and [evaluateExpression] its value. In particular
    [5 + 3 * 2] evaluates to [11] and [( 2 + 3 ) * 4] to [20]. *)
Theorem evaluation_follows_precedence {rt : MathImpl} (degMode : bool) :
  (forall e : expr,
      well_formed 1 e = true ->
      Sci.toRPN (tokens e) = postfix e
      /\ Sci.evalRPN degMode (Sci.toRPN (tokens e))
         = Sci.Returns (Number (denote e))
      /\ Sci.evaluateExpression degMode (tokens e) = Number (denote e))
  /\ Sci.evaluateExpression degMode ["5"; "+"; "3"; "*"; "2"]
     = Number (of_Z 11)
  /\ Sci.evaluateExpression degMode ["("; "2"; "+"; "3"; ")"; "*"; "4"]
     = Number (of_Z 20).
Proof.
  split; [ | split; reflexivity ].
  intros e Hwf.
  assert (E : Sci.evalRPN degMode (Sci.toRPN (tokens e))
              = Sci.Returns (Number (denote e))).
  { rewrite (toRPN_postfix e Hwf). unfold Sci.evalRPN.
    rewrite <- (app_nil_r (postfix e)).
    rewrite (evalRPN_postfix degMode e 1%nat [] [] Hwf). reflexivity. }
  split; [ now apply toRPN_postfix | split; [ exact E | ] ].
  unfold Sci.evaluateExpression. now rewrite E.
Qed.

(** [5 + 3 * 2] is [11] and [( 2 + 3 ) * 4] is [20]. *)
Lemma evaluation_follows_precedence_witness :
  (well_formed 1 (Bin Add (Lit "5") (Bin Mul (Lit "3") (Lit "2"))) = true
   /\ tokens (Bin Add (Lit "5") (Bin Mul (Lit "3") (Lit "2")))
      = ["5"; "+"; "3"; "*"; "2"]
   /\ @Sci.evaluateExpression integer_powers false ["5"; "+"; "3"; "*"; "2"]
      = Number (of_Z 11))
  /\
  (well_formed 1 (Bin Mul (Paren (Bin Add (Lit "2") (Lit "3"))) (Lit "4"))
   = true
   /\ tokens (Bin Mul (Paren (Bin Add (Lit "2") (Lit "3"))) (Lit "4"))
      = ["("; "2"; "+"; "3"; ")"; "*"; "4"]
   /\ @Sci.evaluateExpression integer_powers false
        ["("; "2"; "+"; "3"; ")"; "*"; "4"]
      = Number (of_Z 20)).
Proof.
  split; (split; [ reflexivity | split; [ reflexivity | ] ]).
  - exact (proj2 (proj2 (proj1
             (@evaluation_follows_precedence integer_powers false)
             (Bin Add (Lit "5") (Bin Mul (Lit "3") (Lit "2"))) eq_refl))).
  - exact (proj2 (proj2 (proj1
             (@evaluation_follows_precedence integer_powers false)
             (Bin Mul (Paren (Bin Add (Lit "2") (Lit "3"))) (Lit "4"))
             eq_refl))).
Defined.

(** ** The power *)

Lemma integer_powers_exact : exact_integer_powers integer_powers.
Proof.
  intros x y a b Hx Hy _ Hb Hsmall. cbn [impl_pow integer_powers].
  rewrite Hx, Hy.
  apply Z.ltb_lt in Hb. apply Z.ltb_lt in Hsmall.
  now rewrite Hb, Hsmall.
Qed.

(** C2. The operator [^] groups to the right: [2 ^ 3 ^ 2] is converted to
    [2 3 2 ^ ^] and evaluated as [Math.pow(2, Math.pow(3, 2))], which is
    [512] on an engine whose [Math.pow] is exact on the integer powers a
    double holds; it is not [(2 ^ 3) ^ 2], which is [64]. *)
Theorem power_groups_to_the_right {rt : MathImpl} (degMode : bool) :
  exact_integer_powers rt ->
  Sci.toRPN ["2"; "^"; "3"; "^"; "2"] = ["2"; "3"; "2"; "^"; "^"]
  /\ Sci.evaluateExpression degMode ["2"; "^"; "3"; "^"; "2"]
     = Number (Math_pow (of_Z 2) (Math_pow (of_Z 3) (of_Z 2)))
  /\ Sci.evaluateExpression degMode ["2"; "^"; "3"; "^"; "2"]
     = Number (of_Z 512)
  /\ Math_pow (Math_pow (of_Z 2) (of_Z 3)) (of_Z 2) = of_Z 64
  /\ same (of_Z 512) (of_Z 64) = false.
Proof.
  intro Hpow.
  assert (H9 : Math_pow (of_Z 3) (of_Z 2) = of_Z 9).
  { exact (Hpow (of_Z 3) (of_Z 2) 3 2 eq_refl eq_refl
             ltac:(discriminate) eq_refl eq_refl). }
  assert (H512 : Math_pow (of_Z 2) (of_Z 9) = of_Z 512).
  { exact (Hpow (of_Z 2) (of_Z 9) 2 9 eq_refl eq_refl
             ltac:(discriminate) eq_refl eq_refl). }
  assert (H8 : Math_pow (of_Z 2) (of_Z 3) = of_Z 8).
  { exact (Hpow (of_Z 2) (of_Z 3) 2 3 eq_refl eq_refl
             ltac:(discriminate) eq_refl eq_refl). }
  assert (H64 : Math_pow (of_Z 8) (of_Z 2) = of_Z 64).
  { exact (Hpow (of_Z 8) (of_Z 2) 8 2 eq_refl eq_refl
             ltac:(discriminate) eq_refl eq_refl). }
  assert (E : Sci.evaluateExpression degMode ["2"; "^"; "3"; "^"; "2"]
              = Number (Math_pow (of_Z 2) (Math_pow (of_Z 3) (of_Z 2))))
    by reflexivity.
  split; [ reflexivity | split; [ exact E | split; [ | split ] ] ].
  - now rewrite E, H9, H512.
  - now rewrite H8, H64.
  - reflexivity.
Qed.

Lemma power_groups_to_the_right_witness :
  exact_integer_powers integer_powers
  /\ @Sci.evaluateExpression integer_powers false ["2"; "^"; "3"; "^"; "2"]
     = Number (of_Z 512).
Proof.
  exact (conj integer_powers_exact
           (proj1 (proj2 (proj2
              (@power_groups_to_the_right integer_powers false
                 integer_powers_exact))))).
Defined.

(** ** Formatting and reading back *)

(** *** Digit strings *)

Lemma digit_char_is_digit (d : Z) :
  0 <= d < 10 -> is_digit (digit_char d) = true.
Proof.
  intro H.
  assert (d = 0 \/ d = 1 \/ d = 2 \/ d = 3 \/ d = 4 \/ d = 5 \/ d = 6
          \/ d = 7 \/ d = 8 \/ d = 9) as Hd by lia.
  repeat (destruct Hd as [-> | Hd]; [ reflexivity | ]). now subst.
Qed.

Lemma digit_val_char (d : Z) :
  0 <= d < 10 -> digit_val (digit_char d) = d.
Proof.
  intro H.
  assert (d = 0 \/ d = 1 \/ d = 2 \/ d = 3 \/ d = 4 \/ d = 5 \/ d = 6
          \/ d = 7 \/ d = 8 \/ d = 9) as Hd by lia.
  repeat (destruct Hd as [-> | Hd]; [ reflexivity | ]). now subst.
Qed.

Lemma append_assoc (a b c : string) : (a +++ b) +++ c = a +++ b +++ c.
Proof. induction a as [| x a IH]; simpl; [ reflexivity | now rewrite IH ]. Qed.

Lemma append_nil_r (a : string) : a +++ "" = a.
Proof. induction a as [| x a IH]; simpl; [ reflexivity | now rewrite IH ]. Qed.

Lemma slen_append (a b : string) : slen (a +++ b) = slen a + slen b.
Proof.
  unfold slen. induction a as [| x a IH]; simpl String.length.
  - reflexivity.
  - rewrite !Nat2Z.inj_succ. lia.
Qed.

Lemma all_digits_append (a b : string) :
  all_digits (a +++ b) = all_digits a && all_digits b.
Proof.
  induction a as [| x a IH]; simpl; [ reflexivity | ].
  now rewrite IH, andb_assoc.
Qed.

Lemma digits_val_append (a b : string) (acc : Z) :
  digits_val acc (a +++ b) = digits_val (digits_val acc a) b.
Proof.
  revert acc. induction a as [| x a IH]; intro acc; simpl; [ reflexivity | ].
  apply IH.
Qed.

Lemma print_digits_acc (fuel : nat) (n : Z) (acc : string) :
  print_digits fuel n acc = print_digits fuel n "" +++ acc.
Proof.
  revert n acc. induction fuel as [| f IH]; intros n acc; simpl.
  - reflexivity.
  - destruct (n <? 10); [ reflexivity | ].
    rewrite IH, (IH _ (String _ "")), append_assoc. reflexivity.
Qed.

Lemma print_digits_all_digits (fuel : nat) (n : Z) :
  all_digits (print_digits fuel n "") = true.
Proof.
  revert n. induction fuel as [| f IH]; intro n; simpl; [ reflexivity | ].
  assert (Hd : is_digit (digit_char (n mod 10)) = true).
  { apply digit_char_is_digit. apply Z.mod_pos_bound. lia. }
  destruct (n <? 10); simpl.
  - now rewrite Hd.
  - rewrite print_digits_acc, all_digits_append, IH. simpl. now rewrite Hd.
Qed.

Lemma decimal_all_digits (n : Z) : all_digits (decimal n) = true.
Proof. apply print_digits_all_digits. Qed.

Lemma decimal_not_empty (n : Z) : exists c r, decimal n = String c r.
Proof.
  unfold decimal. simpl. destruct (n <? 10); [ eauto | ].
  rewrite print_digits_acc.
  destruct (print_digits _ _ "") as [| c r ]; simpl; eauto.
Qed.

(** The digits print and read back. *)
Lemma print_digits_val (fuel : nat) (n : Z) :
  0 <= n < 10 ^ Z.of_nat fuel ->
  digits_val 0 (print_digits fuel n "") = n.
Proof.
  revert n. induction fuel as [| f IH]; intros n H.
  - simpl in *. lia.
  - cbn [print_digits]. destruct (Z.ltb_spec n 10) as [Hlt | Hge].
    + simpl. rewrite Z.mod_small by lia. apply digit_val_char. lia.
    + rewrite print_digits_acc, digits_val_append, IH.
      * simpl. rewrite digit_val_char by (apply Z.mod_pos_bound; lia).
        pose proof (Z.div_mod n 10). lia.
      * rewrite Nat2Z.inj_succ, Z.pow_succ_r in H by lia.
        split; [ apply Z.div_pos; lia | ].
        apply Z.div_lt_upper_bound; lia.
Qed.

Lemma decimal_fuel (n : Z) :
  0 <= n -> n < 10 ^ Z.of_nat (S (Z.to_nat (Z.log2 n))).
Proof.
  intro H. rewrite Nat2Z.inj_succ, Z2Nat.id by apply Z.log2_nonneg.
  destruct (Z.eq_dec n 0) as [-> | Hn]; [ reflexivity | ].
  assert (n < 2 ^ Z.succ (Z.log2 n)) by (apply Z.log2_spec; lia).
  assert (2 ^ Z.succ (Z.log2 n) <= 10 ^ Z.succ (Z.log2 n)).
  { apply Z.pow_le_mono_l. lia. }
  lia.
Qed.

Lemma decimal_val (n : Z) : 0 <= n -> digits_val 0 (decimal n) = n.
Proof.
  intro H. apply print_digits_val. split; [ exact H | now apply decimal_fuel ].
Qed.

Lemma print_digits_length (fuel : nat) (n k : Z) :
  0 <= n < 10 ^ Z.of_nat fuel -> 1 <= k ->
  10 ^ (k - 1) <= n < 10 ^ k ->
  slen (print_digits fuel n "") = k.
Proof.
  revert n k. induction fuel as [| f IH]; intros n k H Hk Hn.
  - simpl in *. lia.
  - cbn [print_digits]. destruct (Z.ltb_spec n 10) as [Hlt | Hge].
    + destruct (Z.eq_dec k 1) as [-> | Hk1]; [ reflexivity | ].
      assert (10 ^ 1 <= 10 ^ (k - 1)) by (apply Z.pow_le_mono_r; lia).
      lia.
    + assert (2 <= k).
      { destruct (Z.eq_dec k 1) as [-> | Hk1]; [ simpl in *; lia | lia ]. }
      rewrite print_digits_acc, slen_append.
      rewrite (IH (n / 10) (k - 1)).
      * unfold slen. simpl. lia.
      * rewrite Nat2Z.inj_succ, Z.pow_succ_r in H by lia.
        split; [ apply Z.div_pos; lia | ].
        apply Z.div_lt_upper_bound; lia.
      * lia.
      * replace (10 ^ (k - 1)) with (10 * 10 ^ (k - 1 - 1)) in Hn.
        2:{ rewrite <- Z.pow_succ_r by lia. f_equal. lia. }
        replace (10 ^ k) with (10 * 10 ^ (k - 1)) in Hn.
        2:{ rewrite <- Z.pow_succ_r by lia. f_equal. lia. }
        split.
        -- apply Z.div_le_lower_bound; lia.
        -- apply Z.div_lt_upper_bound; lia.
Qed.

Lemma decimal_length (n k : Z) :
  1 <= k -> 10 ^ (k - 1) <= n < 10 ^ k -> slen (decimal n) = k.
Proof.
  intros Hk Hn. apply print_digits_length; try assumption.
  assert (0 <= n).
  { assert (0 <= 10 ^ (k - 1)) by (apply Z.pow_nonneg; lia). lia. }
  split; [ assumption | now apply decimal_fuel ].
Qed.

(** *** Reading digits back *)

Lemma span_digits_append (a b : string) :
  all_digits a = true -> no_digit_head b -> span_digits (a +++ b) = (a, b).
Proof.
  intros Ha Hb. induction a as [| c a IH]; simpl in *.
  - destruct b as [| c b ]; [ reflexivity | ]. simpl in *. now rewrite Hb.
  - apply andb_prop in Ha as [Hc Ha]. now rewrite Hc, IH.
Qed.

Lemma span_digits_all (a : string) :
  all_digits a = true -> span_digits a = (a, "").
Proof.
  intro Ha. rewrite <- (append_nil_r a) at 1.
  now apply span_digits_append.
Qed.

Lemma zeros_all_digits (j : nat) : all_digits (zeros j) = true.
Proof. induction j as [| j IH]; simpl; [ reflexivity | exact IH ]. Qed.

Lemma zeros_length (j : nat) : slen (zeros j) = Z.of_nat j.
Proof.
  unfold slen. induction j as [| j IH]; simpl String.length;
    [ reflexivity | ].
  rewrite !Nat2Z.inj_succ. lia.
Qed.

Lemma digits_val_zeros (j : nat) (acc : Z) :
  digits_val acc (zeros j) = acc * 10 ^ Z.of_nat j.
Proof.
  revert acc. induction j as [| j IH]; intro acc.
  - simpl. lia.
  - cbn [zeros digits_val]. rewrite IH, Nat2Z.inj_succ, Z.pow_succ_r by lia.
    change (digit_val "0") with 0. lia.
Qed.

(** A digit is no white space, no sign, and not the [I] of [Infinity]. *)
Lemma digit_head (c : ascii) (r : string) :
  is_digit c = true ->
  skip_white (String c r) = String c r
  /\ read_sign (String c r) = (false, String c r)
  /\ String.prefix "Infinity" (String c r) = false
  /\ Sci.strip_minus (String c r) = String c r.
Proof.
  destruct c as [[] [] [] [] [] [] [] []]; intro H;
    try discriminate H; repeat split.
Qed.

(** Splitting a string at a position. *)
Lemma substring_split (s : string) (n : nat) :
  (n <= String.length s)%nat ->
  String.substring 0 n s +++ String.substring n (String.length s - n) s = s
  /\ String.length (String.substring n (String.length s - n) s)
     = (String.length s - n)%nat.
Proof.
  revert n. induction s as [| c s IH]; intros n H.
  - simpl in H. assert (n = O) by lia. subst. split; reflexivity.
  - destruct n as [| n ].
    + cbn [String.substring]. simpl String.length. simpl.
      clear. split.
      * f_equal. induction s as [| d s IHs]; simpl; [ reflexivity | ].
        now rewrite IHs.
      * f_equal. induction s as [| d s IHs]; simpl; [ reflexivity | ].
        now rewrite IHs.
    + simpl in H. destruct (IH n) as [E L]; [ lia | ].
      cbn [String.substring String.length Nat.sub]. simpl.
      split; [ now rewrite E | exact L ].
Qed.

Lemma all_digits_split (a b : string) :
  all_digits (a +++ b) = true -> all_digits a = true /\ all_digits b = true.
Proof. rewrite all_digits_append. apply andb_prop. Qed.

(** *** The sign of a rounded fraction *)

Lemma binary_round_aux_sign (sg : bool) (m e : Z) (l : location) :
  binary_round_aux prec emax sg m e l
  = with_sign sg (binary_round_aux prec emax false m e l).
Proof.
  unfold binary_round_aux.
  destruct (shr_fexp prec emax m e l) as [mrs' e'].
  destruct (shr_fexp prec emax _ e' loc_Exact) as [mrs'' e''].
  destruct (shr_m mrs''); try reflexivity.
  destruct (e'' <=? emax - prec); reflexivity.
Qed.

Lemma dec_to_number_sign (sg : bool) (d e10 : Z) :
  dec_to_number sg d e10 = with_sign sg (dec_to_number false d e10).
Proof.
  unfold dec_to_number, round_ratio. destruct d; try reflexivity.
  destruct (SFdiv_core_binary _ _ _ _ _ _) as [[mz ez] lz].
  apply binary_round_aux_sign.
Qed.

Lemma same_eq (x y : number) : same x y = true -> x = y.
Proof.
  destruct x, y; simpl; intro H; try discriminate H.
  - apply Bool.eqb_prop in H. now subst.
  - apply Bool.eqb_prop in H. now subst.
  - reflexivity.
  - apply andb_prop in H as [H He]. apply andb_prop in H as [Hs Hm].
    apply Bool.eqb_prop in Hs. apply Pos.eqb_eq in Hm. apply Z.eqb_eq in He.
    now subst.
Qed.

(** What the search of the digits returns converts back to the number. *)
Lemma shortest_sound (fuel : nat) (x : number) (ab : Z * Z) (n0 k0 k s n : Z) :
  shortest fuel x ab n0 k0 = Some (k, s, n) ->
  10 ^ (k - 1) <= s < 10 ^ k /\ dec_to_number false s (n - k) = x.
Proof.
  revert k0. induction fuel as [| f IH]; intro k0; simpl; [ discriminate | ].
  destruct (find (reads_back x k0) (candidates ab n0 k0)) as [[s' n'] |] eqn:F.
  - intro H. inversion H; subst. apply find_some in F as [_ F].
    unfold reads_back in F.
    apply andb_prop in F as [F Hsame]. apply andb_prop in F as [Hlo Hhi].
    apply Z.leb_le in Hlo. apply Z.ltb_lt in Hhi.
    split; [ lia | now apply same_eq ].
  - apply IH.
Qed.

Lemma digits_bounds (k s : Z) (m : positive) (e n : Z) :
  10 ^ (k - 1) <= s < 10 ^ k ->
  dec_to_number false s n = S754_finite false m e ->
  1 <= k /\ 1 <= s.
Proof.
  intros H E.
  assert (0 <= 10 ^ (k - 1)) by (apply Z.pow_nonneg; lia).
  assert (Hs : s <> 0) by (intros ->; discriminate E).
  assert (1 <= s) by lia. split; [ | assumption ].
  destruct (Z_lt_le_dec k 1) as [Hk | Hk]; [ | exact Hk ].
  exfalso. destruct (Z.eq_dec k 0) as [-> | Hk0].
  - simpl in H. lia.
  - rewrite (Z.pow_neg_r 10 k) in H by lia. lia.
Qed.

(** *** [parseFloat] on a plain decimal rendering *)

Lemma parseFloat_signed (sg : bool) (c : ascii) (r : string) :
  is_digit c = true ->
  parseFloat (sign_text sg +++ String c r) = read_unsigned sg (String c r).
Proof.
  intro Hc. destruct (digit_head c r Hc) as (Hw & Hs & _ & _).
  unfold parseFloat. destruct sg; cbn [sign_text append].
  - reflexivity.
  - now rewrite Hw, Hs.
Qed.

Lemma isNumberToken_signed (sg : bool) (c : ascii) (r : string) :
  is_digit c = true ->
  Sci.isNumberToken (sign_text sg +++ String c r)
  = Sci.isNumberToken (String c r).
Proof.
  intro Hc. destruct (digit_head c r Hc) as (_ & _ & _ & Hm).
  unfold Sci.isNumberToken. destruct sg; cbn [sign_text append].
  - now rewrite Hm.
  - reflexivity.
Qed.

(** An integer: digits only. *)
Lemma read_unsigned_integer (sg : bool) (c : ascii) (r : string) :
  all_digits (String c r) = true ->
  read_unsigned sg (String c r)
  = dec_to_number sg (digits_val 0 (String c r)) 0.
Proof.
  intro Ha. pose proof Ha as Hc. simpl in Hc. apply andb_prop in Hc as [Hc _].
  destruct (digit_head c r Hc) as (_ & _ & Hp & _).
  unfold read_unsigned. rewrite Hp, (span_digits_all _ Ha).
  cbn [is_empty andb]. rewrite append_nil_r. reflexivity.
Qed.

(** Digits, a point, digits. *)
Lemma read_unsigned_fraction (sg : bool) (c : ascii) (r fp : string) :
  all_digits (String c r) = true -> all_digits fp = true ->
  read_unsigned sg (String c r +++ "." +++ fp)
  = dec_to_number sg (digits_val 0 (String c r +++ fp)) (- slen fp).
Proof.
  intros Ha Hf. pose proof Ha as Hc. simpl in Hc.
  apply andb_prop in Hc as [Hc _].
  destruct (digit_head c (r +++ "." +++ fp) Hc) as (_ & _ & Hp & _).
  unfold read_unsigned. cbn [append] in *. rewrite Hp.
  change (String c (r +++ String "." fp))
    with (String c r +++ String "." fp).
  rewrite (span_digits_append (String c r) (String "." fp) Ha)
    by reflexivity.
  rewrite (span_digits_all _ Hf). cbn [is_empty andb exponent_part].
  reflexivity.
Qed.

Lemma dec_to_number_shift (sg : bool) (s j : Z) :
  1 <= s -> 0 <= j ->
  dec_to_number sg (s * 10 ^ j) 0 = dec_to_number sg s j.
Proof.
  intros Hs Hj.
  assert (Hp : 0 < 10 ^ j) by (apply Z.pow_pos_nonneg; lia).
  destruct s as [| p | p ]; try lia.
  destruct (Zpos p * 10 ^ j) as [| q | q ] eqn:E; try lia.
  unfold dec_to_number. rewrite Z.max_r, (Z.max_l j 0), (Z.max_r (- j) 0)
    by lia.
  f_equal. apply Pos2Z.inj. rewrite !Pos2Z.inj_mul.
  change (Zpos (Z.to_pos (10 ^ 0))) with 1.
  rewrite (Z2Pos.id (10 ^ j)) by lia. lia.
Qed.

(** The plain layouts of [String] read back as the digits they show. *)
Lemma layout_reads_back (sg : bool) (k s n : Z) :
  1 <= s -> slen (decimal s) = k -> -5 <= n <= 21 ->
  parseFloat (sign_text sg +++ layout k s n) = dec_to_number sg s (n - k).
Proof.
  intros Hs Hk Hn. unfold layout.
  destruct (decimal_not_empty s) as (c & r & Hds).
  pose proof (decimal_all_digits s) as Hall.
  pose proof (decimal_val s ltac:(lia)) as Hval.
  assert (Hin : (-5 <=? n) && (n <=? 21) = true).
  { apply andb_true_intro. split; [ apply Z.leb_le | apply Z.leb_le ]; lia. }
  rewrite Hin. rewrite Hds in *.
  pose proof Hall as Hc. simpl in Hc. apply andb_prop in Hc as [Hc _].
  destruct (Z.leb_spec k n) as [Hkn | Hkn].
  - (* the digits, then zeros *)
    cbn [append]. rewrite parseFloat_signed by exact Hc.
    change (String c (r +++ zeros (Z.to_nat (n - k))))
      with (String c r +++ zeros (Z.to_nat (n - k))).
    assert (Ha : all_digits (String c r +++ zeros (Z.to_nat (n - k))) = true).
    { now rewrite all_digits_append, Hall, zeros_all_digits. }
    cbn [append] in Ha |- *. rewrite read_unsigned_integer by exact Ha.
    change (String c (r +++ zeros (Z.to_nat (n - k))))
      with (String c r +++ zeros (Z.to_nat (n - k))).
    rewrite digits_val_append, Hval, digits_val_zeros, Z2Nat.id by lia.
    apply dec_to_number_shift; lia.
  - destruct (Z.ltb_spec 0 n) as [Hpos | Hneg].
    + (* a point inside the digits *)
      assert (Hlen : (Z.to_nat n <= String.length (String c r))%nat).
      { unfold slen in Hk. lia. }
      destruct (substring_split (String c r) (Z.to_nat n) Hlen) as [E L].
      replace (Z.to_nat (k - n))
        with (String.length (String c r) - Z.to_nat n)%nat
        by (unfold slen in Hk; lia).
      set (a := String.substring 0 (Z.to_nat n) (String c r)) in *.
      set (b := String.substring (Z.to_nat n)
                  (String.length (String c r) - Z.to_nat n) (String c r)) in *.
      assert (Hab : all_digits a = true /\ all_digits b = true).
      { apply all_digits_split. now rewrite E. }
      destruct a as [| c' a' ] eqn:Ea.
      { exfalso. subst a. destruct (Z.to_nat n) eqn:En; [ lia | ].
        simpl in Ea. discriminate Ea. }
      destruct Hab as [Ha Hb].
      pose proof Ha as Hc'. simpl in Hc'. apply andb_prop in Hc' as [Hc' _].
      cbn [append]. rewrite parseFloat_signed by exact Hc'.
      change (String c' (a' +++ String "." b))
        with (String c' a' +++ "." +++ b).
      rewrite read_unsigned_fraction by assumption.
      rewrite E, Hval. f_equal.
      unfold slen in *. rewrite L. lia.
    + (* zero, a point, zeros, the digits *)
      cbn [append].
      rewrite (parseFloat_signed sg "0") by reflexivity.
      change (String "0" (String "." (zeros (Z.to_nat (- n)) +++ String c r)))
        with (String "0" "" +++ "." +++ zeros (Z.to_nat (- n)) +++ String c r).
      rewrite read_unsigned_fraction.
      2: reflexivity.
      2: now rewrite all_digits_append, zeros_all_digits, Hall.
      cbn [append digits_val]. change (0 * 10 + digit_val "0") with 0.
      rewrite digits_val_append, digits_val_zeros, Z.mul_0_l, Hval.
      f_equal. rewrite slen_append, zeros_length, Z2Nat.id by lia.
      rewrite Hk. lia.
Qed.

(** *** The renderings with an exponent are no Number tokens *)

Lemma isNumberToken_exponent (c : ascii) (r ex : string) :
  all_digits (String c r) = true ->
  Sci.isNumberToken (String c r +++ "e" +++ ex) = false.
Proof.
  intro Ha. unfold Sci.isNumberToken.
  pose proof Ha as Hc. simpl in Hc. apply andb_prop in Hc as [Hc _].
  destruct (digit_head c (r +++ "e" +++ ex) Hc) as (_ & _ & _ & Hm).
  cbn [append] in *. rewrite Hm.
  change (String c (r +++ String "e" ex)) with (String c r +++ String "e" ex).
  rewrite (span_digits_append _ (String "e" ex) Ha) by reflexivity.
  apply andb_false_r.
Qed.

Lemma isNumberToken_point_exponent (c : ascii) (r ex : string) :
  is_digit c = true ->
  Sci.isNumberToken (String c "" +++ "." +++ r +++ "e" +++ ex) = false.
Proof.
  intro Hc. unfold Sci.isNumberToken.
  destruct (digit_head c ("." +++ r +++ "e" +++ ex) Hc) as (_ & _ & _ & Hm).
  cbn [append] in *. rewrite Hm.
  change (String c (String "." (r +++ String "e" ex)))
    with (String c "" +++ String "." (r +++ String "e" ex)).
  rewrite (span_digits_append (String c "") _) by (simpl; now rewrite ?Hc).
  cbn [truthy is_empty negb andb].
  rewrite all_digits_append. cbn [all_digits is_digit].
  change (is_digit "e") with false.
  now rewrite andb_false_r, andb_false_r.
Qed.

Lemma layout_exponent_not_token (sg : bool) (k s n : Z) :
  (-5 <=? n) && (n <=? 21) = false ->
  Sci.isNumberToken (sign_text sg +++ layout k s n) = false.
Proof.
  intro Hn. unfold layout. rewrite Hn.
  destruct (decimal_not_empty s) as (c & r & Hds).
  pose proof (decimal_all_digits s) as Hall. rewrite Hds in *.
  pose proof Hall as Hc. simpl in Hc. apply andb_prop in Hc as [Hc _].
  destruct (k =? 1).
  - cbn [append]. rewrite isNumberToken_signed by exact Hc.
    now apply (isNumberToken_exponent c r).
  - cbn [head_tail append]. rewrite isNumberToken_signed by exact Hc.
    now apply (isNumberToken_point_exponent c r).
Qed.

Lemma toExponential_not_token (x : number) :
  Sci.isNumberToken (toExponential x 10) = false.
Proof.
  destruct x as [ s | s | | sg m e ]; try (destruct s; reflexivity);
    try reflexivity.
  unfold toExponential.
  destruct (scale10 _ _) as [a b].
  destruct (_ =? 10 ^ (10 + 1)).
  - destruct sg; reflexivity.
  - match goal with
    | |- context [decimal ?n] =>
        destruct (decimal_not_empty n) as (c & r & Hds);
        pose proof (decimal_all_digits n) as Hall
    end.
    rewrite Hds in *.
    pose proof Hall as Hc. simpl in Hc. apply andb_prop in Hc as [Hc _].
    cbn [head_tail Z.eqb append]. fold (sign_text sg).
    rewrite isNumberToken_signed by exact Hc.
    now apply (isNumberToken_point_exponent c r).
Qed.

(** *** The round trip *)

Lemma toString_reads_back (x : number) :
  Sci.isNumberToken (Number_toString x) = true ->
  parseFloat (Number_toString x) = unsigned_zero x.
Proof.
  destruct x as [ s | s | | sg m e ].
  - reflexivity.
  - destruct s; discriminate.
  - discriminate.
  - unfold Number_toString.
    destruct (shortest max_digits _ _ _ 1) as [[[k s] n] |] eqn:Hsh;
      [ | discriminate ].
    apply shortest_sound in Hsh as [Hrange Hback].
    destruct (digits_bounds _ _ _ _ _ Hrange Hback) as [Hk Hs].
    fold (sign_text sg).
    destruct ((-5 <=? n) && (n <=? 21)) eqn:Hn.
    + intros _. apply andb_prop in Hn as [H1 H2].
      apply Z.leb_le in H1. apply Z.leb_le in H2.
      rewrite layout_reads_back;
        [ | exact Hs | now apply decimal_length | lia ].
      rewrite dec_to_number_sign, Hback. reflexivity.
    + intro H. now rewrite layout_exponent_not_token in H.
Qed.

(** [formatNumber(0.0000001)] is [1e-7], which is no Number token; the
    rendering of [toExponential] drops digits of the rounded value; and
    [4096.1], the formatted [4096.099999999999], is formatted again as
    [4.0961000000e+3]. *)
Lemma formatted_text_is_not_always_a_token :
  (is_finite (parseFloat "0.0000001") = true
   /\ formatNumber (parseFloat "0.0000001") = "1e-7"
   /\ Sci.isNumberToken (formatNumber (parseFloat "0.0000001")) = false)
  /\
  (formatNumber (parseFloat "12345.678901234567") = "1.2345678901e+4"
   /\ Sci.isNumberToken (formatNumber (parseFloat "12345.678901234567"))
      = false
   /\ same (parseFloat (formatNumber (parseFloat "12345.678901234567")))
           (round12 (parseFloat "12345.678901234567")) = false)
  /\
  (formatNumber (parseFloat "4096.099999999999") = "4096.1"
   /\ formatNumber (parseFloat (formatNumber (parseFloat "4096.099999999999")))
      = "4.0961000000e+3").
Proof. vm_compute. repeat split. Qed.

(** C8, as the script has it. Whenever [formatNumber(n)] is accepted as a
    Number token, [n] is finite, the text is the plain decimal rendering of
    [Math.round(n * 1e12) / 1e12], and reading it back with [parseFloat]
    gives exactly that rounded value (a negative zero is read back as
    [0]). The renderings with an exponent, those of [toExponential]
    included, are never accepted as Number tokens. *)
Theorem formatted_token_reads_back (n : number) :
  Sci.isNumberToken (formatNumber n) = true ->
  is_finite n = true
  /\ formatNumber n = Number_toString (round12 n)
  /\ parseFloat (formatNumber n) = unsigned_zero (round12 n)
  /\ forall x : number, Sci.isNumberToken (toExponential x 10) = false.
Proof.
  unfold formatNumber. fold (round12 n).
  destruct (is_finite n); cbn [negb]; [ | discriminate ].
  destruct (MAX_DISPLAY_LENGTH <? slen (Number_toString (round12 n))).
  - intro H. now rewrite toExponential_not_token in H.
  - intro H. repeat split.
    + now apply toString_reads_back.
    + apply toExponential_not_token.
Qed.

Lemma formatted_token_reads_back_witness :
  Sci.isNumberToken
    (formatNumber (add (parseFloat "0.1") (parseFloat "0.2"))) = true
  /\ formatNumber (add (parseFloat "0.1") (parseFloat "0.2")) = "0.3"
  /\ parseFloat (formatNumber (add (parseFloat "0.1") (parseFloat "0.2")))
     = unsigned_zero (round12 (add (parseFloat "0.1") (parseFloat "0.2"))).
Proof.
  exact (conj eq_refl (conj eq_refl
           (proj1 (proj2 (proj2
              (formatted_token_reads_back
                 (add (parseFloat "0.1") (parseFloat "0.2")) eq_refl)))))).
Defined.

(** *** Rounding a value a double holds *)

Lemma digits2_pos_bounds (p : positive) :
  2 ^ (Zpos (digits2_pos p) - 1) <= Zpos p < 2 ^ Zpos (digits2_pos p).
Proof.
  induction p as [ p IH | p IH | ]; cbn [digits2_pos].
  - rewrite Pos2Z.inj_succ, Z.pow_succ_r by lia.
    replace (Z.succ (Zpos (digits2_pos p)) - 1)
      with (Z.succ (Zpos (digits2_pos p) - 1)) by lia.
    rewrite Z.pow_succ_r by lia. lia.
  - rewrite Pos2Z.inj_succ, Z.pow_succ_r by lia.
    replace (Z.succ (Zpos (digits2_pos p)) - 1)
      with (Z.succ (Zpos (digits2_pos p) - 1)) by lia.
    rewrite Z.pow_succ_r by lia. lia.
  - simpl. lia.
Qed.

(** The number of binary digits is determined by the bounds. *)
Lemma digits2_pos_unique (p : positive) (d : Z) :
  2 ^ (d - 1) <= Zpos p < 2 ^ d -> Zpos (digits2_pos p) = d.
Proof.
  intro H. pose proof (digits2_pos_bounds p) as B.
  set (d' := Zpos (digits2_pos p)) in *.
  assert (0 < d).
  { destruct (Z_lt_le_dec 0 d) as [|Hd]; [ assumption | ].
    exfalso. destruct (Z.eq_dec d 0) as [-> | ]; [ simpl in H; lia | ].
    rewrite (Z.pow_neg_r 2 d) in H by lia. lia. }
  assert (0 < d') by (unfold d'; lia).
  destruct (Z.lt_trichotomy d d') as [Hlt | [Heq | Hgt]]; [ | exact (eq_sym Heq) | ].
  - exfalso. assert (2 ^ d <= 2 ^ (d' - 1)) by (apply Z.pow_le_mono_r; lia). lia.
  - exfalso. assert (2 ^ d' <= 2 ^ (d - 1)) by (apply Z.pow_le_mono_r; lia). lia.
Qed.

Lemma iter_pos_iter {A : Type} (f : A -> A) (p : positive) (x : A) :
  iter_pos f p x = Pos.iter f x p.
Proof.
  revert x. induction p as [ p IH | p IH | ]; intro x; simpl.
  - rewrite !IH, !Pos.iter_swap. reflexivity.
  - rewrite !IH. reflexivity.
  - reflexivity.
Qed.

Lemma shr_exact (m : positive) (n : positive) :
  iter_pos shr_1 n (Build_shr_record (Zpos m * 2 ^ Zpos n) false false)
  = Build_shr_record (Zpos m) false false.
Proof.
  rewrite iter_pos_iter.
  induction n as [| n IH] using Pos.peano_ind.
  - change (2 ^ 1) with 2.
    replace (Zpos m * 2) with (Zpos (xO m)) by lia. reflexivity.
  - rewrite Pos.iter_succ_r.
    rewrite Pos2Z.inj_succ, Z.pow_succ_r by lia.
    replace (Zpos m * (2 * 2 ^ Zpos n)) with (Zpos (xO (m * Z.to_pos (2 ^ Zpos n))))%positive.
    2:{ rewrite Pos2Z.inj_xO, Pos2Z.inj_mul, Z2Pos.id by (apply Z.pow_pos_nonneg; lia). lia. }
    cbn [shr_1 orb].
    replace (Zpos (m * Z.to_pos (2 ^ Zpos n))) with (Zpos m * 2 ^ Zpos n).
    2:{ rewrite Pos2Z.inj_mul, Z2Pos.id by (apply Z.pow_pos_nonneg; lia). lia. }
    exact IH.
Qed.

Lemma fexp_mono (a b : Z) : a <= b -> fexp prec emax a <= fexp prec emax b.
Proof. unfold fexp. lia. Qed.

Lemma Zdigits2_shift (m : positive) (n : Z) :
  0 <= n -> Zdigits2 (Zpos m * 2 ^ n) = Zpos (digits2_pos m) + n.
Proof.
  intro Hn. assert (0 < 2 ^ n) by (apply Z.pow_pos_nonneg; lia).
  destruct (Zpos m * 2 ^ n) as [| q | q ] eqn:E; try lia.
  cbn [Zdigits2]. apply digits2_pos_unique. rewrite <- E.
  pose proof (digits2_pos_bounds m) as B.
  replace (Zpos (digits2_pos m) + n - 1) with ((Zpos (digits2_pos m) - 1) + n) by lia.
  rewrite !Z.pow_add_r by lia. nia.
Qed.

(** Rounding [q * 2 ^ e'] when it is the double [m * 2 ^ e]. *)
Lemma binary_round_aux_exact (m : positive) (e e' : Z) :
  bounded prec emax m e = true -> e' <= e ->
  binary_round_aux prec emax false (Zpos m * 2 ^ (e - e')) e' loc_Exact
  = S754_finite false m e.
Proof.
  intros Hb He. unfold bounded, canonical_mantissa in Hb.
  apply andb_prop in Hb as [Hc Hmax]. apply Z.eqb_eq in Hc. apply Z.leb_le in Hmax.
  unfold binary_round_aux.
  assert (E1 : shr_fexp prec emax (Zpos m * 2 ^ (e - e')) e' loc_Exact
               = (Build_shr_record (Zpos m) false false, e)).
  { unfold shr_fexp. rewrite Zdigits2_shift by lia.
    replace (Zpos (digits2_pos m) + (e - e') + e') with (Zpos (digits2_pos m) + e) by lia.
    rewrite Hc. cbn [shr_record_of_loc]. unfold shr.
    destruct (e - e') as [| n | n ] eqn:En; try lia.
    - rewrite Z.mul_1_r. f_equal. lia.
    - rewrite shr_exact. f_equal. lia. }
  rewrite E1. cbn [shr_m loc_of_shr_record round_nearest_even].
  assert (E2 : shr_fexp prec emax (Zpos m) e loc_Exact
               = (Build_shr_record (Zpos m) false false, e)).
  { unfold shr_fexp. cbn [Zdigits2]. rewrite Hc, Z.sub_diag. reflexivity. }
  rewrite E2. cbn [shr_m].
  apply Z.leb_le in Hmax. now rewrite Hmax.
Qed.

Lemma new_location_zero (q : Z) : new_location q 0 = loc_Exact.
Proof.
  unfold new_location, new_location_even, new_location_odd.
  destruct (Z.even q); reflexivity.
Qed.

(** The fraction [p / q] rounds to the double [m * 2 ^ e] it is equal
    to. *)
Lemma round_ratio_exact (p q m : positive) (e : Z) :
  bounded prec emax m e = true ->
  Zpos p * 2 ^ Z.max (- e) 0 = Zpos m * 2 ^ Z.max e 0 * Zpos q ->
  round_ratio false p q = S754_finite false m e.
Proof.
  intros Hb Heq. unfold round_ratio, SFdiv_core_binary.
  cbn [Zdigits2]. rewrite !Z.add_0_r, Z.sub_diag.
  set (d1 := Zpos (digits2_pos p)). set (d2 := Zpos (digits2_pos q)).
  set (D := Zpos (digits2_pos m)).
  pose proof (digits2_pos_bounds p) as Bp. fold d1 in Bp.
  pose proof (digits2_pos_bounds q) as Bq. fold d2 in Bq.
  pose proof (digits2_pos_bounds m) as Bm. fold D in Bm.
  assert (Hd1 : 0 < d1) by (unfold d1; lia).
  assert (Hd2 : 0 < d2) by (unfold d2; lia).
  assert (HD : 0 < D) by (unfold D; lia).
  pose proof Hb as Hb'. unfold bounded, canonical_mantissa in Hb'.
  apply andb_prop in Hb' as [Hc _]. apply Z.eqb_eq in Hc. fold D in Hc.
  (* the size of the quotient *)
  assert (Hsize : d1 - d2 <= D + e).
  { destruct (Z_le_gt_dec 0 e) as [He | He].
    - rewrite (Z.max_r (- e) 0), (Z.max_l e 0), Z.mul_1_r in Heq by lia.
      assert (0 < 2 ^ e) by (apply Z.pow_pos_nonneg; lia).
      assert (Zpos p < 2 ^ D * 2 ^ e * 2 ^ d2).
      { rewrite Heq. apply Z.mul_lt_mono_nonneg; try lia.
        apply Z.mul_lt_mono_pos_r; lia. }
      rewrite <- !Z.pow_add_r in H0 by lia.
      assert (2 ^ (d1 - 1) < 2 ^ (D + e + d2)) by lia.
      apply Z.pow_lt_mono_r_iff in H1; lia.
    - rewrite (Z.max_l (- e) 0), (Z.max_r e 0), Z.mul_1_r in Heq by lia.
      assert (0 < 2 ^ (- e)) by (apply Z.pow_pos_nonneg; lia).
      assert (2 ^ (d1 - 1) * 2 ^ (- e) < 2 ^ D * 2 ^ d2).
      { apply Z.le_lt_trans with (Zpos p * 2 ^ (- e)).
        - apply Z.mul_le_mono_nonneg_r; lia.
        - rewrite Heq. apply Z.mul_lt_mono_nonneg; lia. }
      rewrite <- !Z.pow_add_r in H0 by lia.
      apply Z.pow_lt_mono_r_iff in H0; lia. }
  set (e' := Z.min (fexp prec emax (d1 - d2)) 0).
  assert (He' : e' <= e /\ e' <= 0).
  { pose proof (fexp_mono (d1 - d2) (D + e) Hsize). unfold e'. lia. }
  destruct He' as [He'e He'0].
  replace (0 - e') with (- e') by lia.
  (* the shifted numerator is a multiple of the denominator *)
  assert (Hm' : match - e' with
                | Zpos _ => Z.shiftl (Zpos p) (- e')
                | 0 => Zpos p
                | Zneg _ => 0
                end = Zpos m * 2 ^ (e - e') * Zpos q).
  { assert (Hshift : match - e' with
                     | Zpos _ => Z.shiftl (Zpos p) (- e')
                     | 0 => Zpos p
                     | Zneg _ => 0
                     end = Zpos p * 2 ^ (- e')).
    { destruct (- e') as [| n | n ] eqn:En; try lia.
      now rewrite Z.shiftl_mul_pow2 by lia. }
    rewrite Hshift.
    destruct (Z_le_gt_dec 0 e) as [He | He].
    - rewrite (Z.max_r (- e) 0), (Z.max_l e 0), Z.mul_1_r in Heq by lia.
      rewrite Heq. replace (e - e') with (e + - e') by lia.
      rewrite Z.pow_add_r by lia. ring.
    - rewrite (Z.max_l (- e) 0), (Z.max_r e 0), Z.mul_1_r in Heq by lia.
      replace (- e') with (- e + (e - e')) by lia.
      rewrite Z.pow_add_r by lia.
      replace (Zpos p * (2 ^ (- e) * 2 ^ (e - e')))
        with (Zpos p * 2 ^ (- e) * 2 ^ (e - e')) by ring.
      rewrite Heq. ring. }
  rewrite Hm'.
  assert (Hdiv : Z.div_eucl (Zpos m * 2 ^ (e - e') * Zpos q) (Zpos q)
                 = (Zpos m * 2 ^ (e - e'), 0)).
  { transitivity ((Zpos m * 2 ^ (e - e') * Zpos q) / Zpos q,
                  (Zpos m * 2 ^ (e - e') * Zpos q) mod Zpos q).
    - unfold Z.div, Z.modulo.
      now destruct (Z.div_eucl (Zpos m * 2 ^ (e - e') * Zpos q) (Zpos q)).
    - rewrite Z.div_mul, Z.mod_mul by lia. reflexivity. }
  rewrite Hdiv, new_location_zero.
  now apply binary_round_aux_exact.
Qed.

(** The decimal [s * 10 ^ j] converts to the double [m * 2 ^ e] it is
    equal to. *)
Lemma dec_to_number_exact (s j : Z) (m : positive) (e : Z) :
  bounded prec emax m e = true -> 1 <= s ->
  s * 10 ^ Z.max j 0 * 2 ^ Z.max (- e) 0
  = Zpos m * 2 ^ Z.max e 0 * 10 ^ Z.max (- j) 0 ->
  dec_to_number false s j = S754_finite false m e.
Proof.
  intros Hb Hs Heq. destruct s as [| p | p ]; try lia.
  unfold dec_to_number. apply round_ratio_exact; [ exact Hb | ].
  assert (0 < 10 ^ Z.max j 0) by (apply Z.pow_pos_nonneg; lia).
  assert (0 < 10 ^ Z.max (- j) 0) by (apply Z.pow_pos_nonneg; lia).
  rewrite Pos2Z.inj_mul, !Z2Pos.id by assumption.
  rewrite Heq. ring.
Qed.

(** *** The decimal exponent *)

Lemma print_digits_bounds (fuel : nat) (n : Z) :
  1 <= n < 10 ^ Z.of_nat fuel ->
  10 ^ (slen (print_digits fuel n "") - 1) <= n
  < 10 ^ slen (print_digits fuel n "").
Proof.
  revert n. induction fuel as [| f IH]; intros n H.
  - simpl in H. lia.
  - cbn [print_digits]. destruct (Z.ltb_spec n 10) as [Hlt | Hge].
    + unfold slen. simpl. lia.
    + rewrite print_digits_acc, slen_append.
      change (slen (String (digit_char (n mod 10)) "")) with 1.
      assert (Hq : 1 <= n / 10 < 10 ^ Z.of_nat f).
      { rewrite Nat2Z.inj_succ, Z.pow_succ_r in H by lia.
        split; [ apply Z.div_le_lower_bound; lia | ].
        apply Z.div_lt_upper_bound; lia. }
      specialize (IH (n / 10) Hq).
      set (L := slen (print_digits f (n / 10) "")) in *.
      assert (HL : 1 <= L).
      { destruct (Z_lt_le_dec L 1) as [Hl | Hl]; [ | exact Hl ].
        exfalso. assert (0 <= L) by (unfold L, slen; lia).
        assert (L = 0) by lia.
        rewrite H1 in IH. simpl in IH. lia. }
      replace (L + 1 - 1) with (Z.succ (L - 1)) by lia.
      replace (L + 1) with (Z.succ L) by lia.
      rewrite !Z.pow_succ_r by lia.
      pose proof (Z.div_mod n 10 ltac:(lia)).
      pose proof (Z.mod_pos_bound n 10 ltac:(lia)).
      lia.
Qed.

Lemma decimal_bounds (n : Z) :
  1 <= n -> 10 ^ (slen (decimal n) - 1) <= n < 10 ^ slen (decimal n).
Proof.
  intro H. apply print_digits_bounds.
  split; [ exact H | apply decimal_fuel; lia ].
Qed.

Lemma decimal_length_pos (n : Z) : 1 <= slen (decimal n).
Proof.
  destruct (decimal_not_empty n) as (c & r & ->).
  unfold slen. simpl String.length. lia.
Qed.

(** No power of two is a multiple of five. *)
Lemma pow2_mod5 (n : nat) : 2 ^ Z.of_nat n mod 5 <> 0.
Proof.
  induction n as [| n IH].
  - simpl. discriminate.
  - rewrite Nat2Z.inj_succ, Z.pow_succ_r by lia.
    rewrite Z.mul_mod by lia.
    pose proof (Z.mod_pos_bound (2 ^ Z.of_nat n) 5 ltac:(lia)) as B.
    set (r := 2 ^ Z.of_nat n mod 5) in *.
    assert (r = 1 \/ r = 2 \/ r = 3 \/ r = 4) as [-> | [-> | [-> | ->]]] by lia;
      discriminate.
Qed.

Lemma pow2_not_decimal (a j n : Z) :
  1 <= j -> 0 <= n -> a * 10 ^ j <> 2 ^ n.
Proof.
  intros Hj Hn E.
  apply (pow2_mod5 (Z.to_nat n)). rewrite Z2Nat.id by lia.
  rewrite <- E.
  replace j with (Z.succ (j - 1)) by lia. rewrite Z.pow_succ_r by lia.
  replace (a * (10 * 10 ^ (j - 1))) with (a * 2 * 10 ^ (j - 1) * 5) by ring.
  apply Z.mod_mul. lia.
Qed.

(** [decimal_exponent] on a double: with [n0] the exponent and [c] decimal
    places after it, the scaled value lies between the powers of ten. *)
Lemma decimal_exponent_spec (m : positive) (e c : Z) :
  let a := fst (ratio_of m e) in
  let b := snd (ratio_of m e) in
  let n0 := decimal_exponent (ratio_of m e) in
  0 <= c -> 1 <= c + n0 ->
  10 ^ (c + n0 - 1) * b <= a * 10 ^ c < 10 ^ (c + n0) * b.
Proof.
  intros a b n0 Hc Hk.
  assert (Hab : 0 < a /\ 0 < b
                /\ (b = 1 \/ (a = Zpos m /\ exists n, 0 <= n /\ b = 2 ^ n))).
  { unfold a, b, ratio_of. destruct (Z.leb_spec 0 e); cbn [fst snd].
    - assert (0 < 2 ^ e) by (apply Z.pow_pos_nonneg; lia).
      split; [ nia | split; [ lia | now left ] ].
    - assert (0 < 2 ^ (- e)) by (apply Z.pow_pos_nonneg; lia).
      split; [ lia | split; [ lia | right ] ].
      split; [ reflexivity | exists (- e); split; [ lia | reflexivity ] ]. }
  destruct Hab as (Ha & Hb & Hform).
  assert (H10 : 0 < 10 ^ c) by (apply Z.pow_pos_nonneg; lia).
  unfold n0, decimal_exponent in *.
  destruct (ratio_of m e) as [a' b'] eqn:R. cbn [fst snd] in a, b.
  subst a b. rename a' into a, b' into b.
  destruct (Z.leb_spec b a) as [Hle | Hgt].
  - (* at least one *)
    assert (Hq : 1 <= a / b) by (apply Z.div_le_lower_bound; lia).
    pose proof (decimal_bounds (a / b) Hq) as B.
    set (d := slen (decimal (a / b))) in *.
    pose proof (decimal_length_pos (a / b)) as Hd. fold d in Hd.
    pose proof (Z.div_mod a b ltac:(lia)) as Hdm.
    pose proof (Z.mod_pos_bound a b ltac:(lia)) as Hr.
    replace (c + d - 1) with (c + (d - 1)) by lia.
    rewrite !Z.pow_add_r by lia.
    assert (0 < 10 ^ (d - 1)) by (apply Z.pow_pos_nonneg; lia).
    split.
    + replace (10 ^ c * 10 ^ (d - 1) * b) with (10 ^ c * (10 ^ (d - 1) * b))
        by ring.
      rewrite (Z.mul_comm a). apply Z.mul_le_mono_nonneg_l; [ lia | nia ].
    + replace (10 ^ c * 10 ^ d * b) with (10 ^ c * (10 ^ d * b)) by ring.
      rewrite (Z.mul_comm a). apply Z.mul_lt_mono_pos_l; [ lia | nia ].
  - (* below one *)
    assert (Hq : 1 <= b / a) by (apply Z.div_le_lower_bound; lia).
    pose proof (decimal_bounds (b / a) Hq) as B.
    set (d := slen (decimal (b / a))) in *.
    pose proof (decimal_length_pos (b / a)) as Hd. fold d in Hd.
    pose proof (Z.div_mod b a ltac:(lia)) as Hdm.
    pose proof (Z.mod_pos_bound b a ltac:(lia)) as Hr.
    assert (0 < 10 ^ (d - 1)) by (apply Z.pow_pos_nonneg; lia).
    assert (Hup : b < a * 10 ^ d) by nia.
    assert (Hlow : a * 10 ^ (d - 1) < b).
    { assert (a * 10 ^ (d - 1) <= b) by nia.
      assert (a * 10 ^ (d - 1) <> b); [ | lia ].
      destruct Hform as [-> | (-> & n & Hn & ->)]; [ lia | ].
      destruct (Z.eq_dec d 1) as [Hd1 | Hd1].
      - rewrite Hd1. simpl. lia.
      - apply pow2_not_decimal; lia. }
    assert (E10 : 10 ^ d = 10 * 10 ^ (d - 1)).
    { rewrite <- Z.pow_succ_r by lia. f_equal. lia. }
    assert (E1 : 10 ^ c = 10 ^ (c - d) * 10 ^ d).
    { rewrite <- Z.pow_add_r by lia. f_equal. lia. }
    assert (E2 : 10 ^ (c + (1 - d) - 1) = 10 ^ (c - d)) by (f_equal; lia).
    assert (E3 : 10 ^ (c + (1 - d)) = 10 ^ (c - d) * 10).
    { replace (c + (1 - d)) with (Z.succ (c - d)) by lia.
      rewrite Z.pow_succ_r by lia. ring. }
    rewrite E1, E2, E3.
    assert (0 < 10 ^ (c - d)) by (apply Z.pow_pos_nonneg; lia).
    split.
    + replace (a * (10 ^ (c - d) * 10 ^ d))
        with (10 ^ (c - d) * (a * 10 ^ d)) by ring.
      apply Z.mul_le_mono_nonneg_l; lia.
    + replace (a * (10 ^ (c - d) * 10 ^ d))
        with (10 ^ (c - d) * (a * 10 ^ (d - 1) * 10)) by (rewrite E10; ring).
      replace (10 ^ (c - d) * 10 * b) with (10 ^ (c - d) * (b * 10)) by ring.
      apply Z.mul_lt_mono_pos_l; lia.
Qed.

(** *** The search of the digits succeeds *)

Lemma same_refl (x : number) : same x x = true.
Proof.
  destruct x as [ s | s | | s m e ]; simpl; try reflexivity.
  - now destruct s.
  - now destruct s.
  - rewrite Pos.eqb_refl, Z.eqb_refl. now destruct s.
Qed.

Lemma ratio_of_spec (m : positive) (e : Z) :
  let a := fst (ratio_of m e) in
  let b := snd (ratio_of m e) in
  0 < a /\ 0 < b /\ a * 2 ^ Z.max (- e) 0 = Zpos m * 2 ^ Z.max e 0 * b
  /\ b = 2 ^ Z.max (- e) 0.
Proof.
  unfold ratio_of. destruct (Z.leb_spec 0 e); cbn [fst snd].
  - rewrite (Z.max_r (- e) 0), (Z.max_l e 0) by lia.
    assert (0 < 2 ^ e) by (apply Z.pow_pos_nonneg; lia).
    change (2 ^ 0) with 1. repeat split; lia.
  - rewrite (Z.max_l (- e) 0), (Z.max_r e 0) by lia.
    assert (0 < 2 ^ (- e)) by (apply Z.pow_pos_nonneg; lia).
    change (2 ^ 0) with 1. repeat split; lia.
Qed.

(** With enough decimal places the decimal is the double itself, and it is
    a candidate that reads back. *)
Lemma exact_candidate (m : positive) (e k : Z) :
  bounded prec emax m e = true ->
  let ab := ratio_of m e in
  let n0 := decimal_exponent ab in
  1 <= k -> Z.max (- e) 0 <= k - n0 ->
  List.find (reads_back (S754_finite false m e) k) (candidates ab n0 k)
  <> None.
Proof.
  intros Hb ab n0 Hk Hc.
  set (c := k - n0) in *.
  assert (Hc0 : 0 <= c) by lia.
  destruct (ratio_of_spec m e) as (Ha & Hbp & Hval & Hbform).
  pose proof (decimal_exponent_spec m e c Hc0 ltac:(unfold c; fold ab n0; lia))
    as Hspec.
  cbv zeta in Hspec. fold ab in Ha, Hbp, Hval, Hbform, Hspec. fold n0 in Hspec.
  replace (c + n0) with k in Hspec by (unfold c; lia).
  destruct ab as [a b] eqn:Rab. cbn [fst snd] in *.
  assert (H10 : 0 < 10 ^ c) by (apply Z.pow_pos_nonneg; lia).
  (* the denominator divides the scaled numerator *)
  assert (Hdiv : exists lo, a * 10 ^ c = lo * b).
  { set (n := Z.max (- e) 0) in *.
    exists (a * 10 ^ (c - n) * 5 ^ n).
    replace c with ((c - n) + n) at 1 by lia.
    rewrite Z.pow_add_r by lia.
    change 10 with (2 * 5) at 2. rewrite Z.pow_mul_l, Hbform. ring. }
  destruct Hdiv as [lo Hlo].
  assert (Hscale : scale10 (a, b) (n0 - k) = (a * 10 ^ c, b)).
  { unfold scale10. destruct (Z.leb_spec 0 (n0 - k)) as [Hj | Hj].
    - assert (c = 0) by (unfold c; lia).
      replace (n0 - k) with 0 by lia. rewrite H. change (10 ^ 0) with 1.
      f_equal; lia.
    - replace (- (n0 - k)) with c by (unfold c; lia). reflexivity. }
  unfold candidates. rewrite Hscale, Hlo.
  rewrite Z.mod_mul, Z.div_mul by lia. cbn [Z.eqb find].
  assert (Hrange : 10 ^ (k - 1) <= lo < 10 ^ k).
  { rewrite Hlo in Hspec. split; nia. }
  assert (Hlo1 : 1 <= lo).
  { assert (0 < 10 ^ (k - 1)) by (apply Z.pow_pos_nonneg; lia). lia. }
  assert (Hback : dec_to_number false lo (n0 - k) = S754_finite false m e).
  { apply dec_to_number_exact; [ exact Hb | exact Hlo1 | ].
    rewrite (Z.max_r (n0 - k) 0) by (unfold c in Hc0; lia).
    replace (Z.max (- (n0 - k)) 0) with c by (unfold c; lia).
    change (10 ^ 0) with 1. rewrite Z.mul_1_r.
    apply (Z.mul_reg_r _ _ b); [ lia | ].
    replace (lo * 2 ^ Z.max (- e) 0 * b) with (lo * b * 2 ^ Z.max (- e) 0)
      by ring.
    rewrite <- Hlo.
    replace (a * 10 ^ c * 2 ^ Z.max (- e) 0)
      with (a * 2 ^ Z.max (- e) 0 * 10 ^ c) by ring.
    rewrite Hval. ring. }
  unfold reads_back. rewrite Hback, same_refl.
  destruct Hrange as [H1 H2].
  apply Z.leb_le in H1. apply Z.ltb_lt in H2. rewrite H1, H2.
  discriminate.
Qed.

Lemma shortest_complete (x : number) (ab : Z * Z) (n0 k : Z) (fuel : nat) :
  forall k0 : Z,
    k0 <= k < k0 + Z.of_nat fuel ->
    List.find (reads_back x k) (candidates ab n0 k) <> None ->
    shortest fuel x ab n0 k0 <> None.
Proof.
  induction fuel as [| f IH]; intros k0 Hk Hfind.
  - simpl in Hk. lia.
  - cbn [shortest].
    destruct (find (reads_back x k0) (candidates ab n0 k0)) as [[s n] |] eqn:F.
    + discriminate.
    + apply IH; [ | exact Hfind ].
      destruct (Z.eq_dec k k0) as [-> | Hne]; [ now rewrite F in Hfind | ].
      rewrite Nat2Z.inj_succ in Hk. lia.
Qed.

Lemma bounded_range (m : positive) (e : Z) :
  bounded prec emax m e = true ->
  Zpos m < 2 ^ 53 /\ -1074 <= e <= 971.
Proof.
  unfold bounded, canonical_mantissa, fexp, emin, prec, emax. intro H.
  apply andb_prop in H as [Hc He].
  apply Z.eqb_eq in Hc. apply Z.leb_le in He.
  pose proof (digits2_pos_bounds m) as B.
  assert (Zpos (digits2_pos m) <= 53) by lia.
  assert (2 ^ Zpos (digits2_pos m) <= 2 ^ 53) by (apply Z.pow_le_mono_r; lia).
  lia.
Qed.

(** The decimal exponent of a double is at most 309. *)
Lemma decimal_exponent_le (m : positive) (e : Z) :
  bounded prec emax m e = true ->
  decimal_exponent (ratio_of m e) <= 309
  /\ (e < 0 -> decimal_exponent (ratio_of m e) <= 16).
Proof.
  intro Hb. destruct (bounded_range m e Hb) as [Hm He].
  destruct (ratio_of_spec m e) as (Ha & Hbp & Hval & Hbform).
  set (n0 := decimal_exponent (ratio_of m e)).
  destruct (Z_lt_le_dec n0 1) as [Hn | Hn]; [ lia | ].
  pose proof (decimal_exponent_spec m e 0 ltac:(lia) ltac:(fold n0; lia))
    as Hspec.
  cbv zeta in Hspec. fold n0 in Hspec.
  destruct (ratio_of m e) as [a b]. cbn [fst snd] in *.
  change (10 ^ 0) with 1 in Hspec. rewrite Z.mul_1_r, Z.add_0_l in Hspec.
  assert (Hp : 0 < 10 ^ (n0 - 1)) by (apply Z.pow_pos_nonneg; lia).
  assert (Hle : 10 ^ (n0 - 1) <= a) by nia.
  split.
  - destruct (Z_le_gt_dec n0 309) as [| Hgt]; [ assumption | exfalso ].
    assert (10 ^ 309 <= 10 ^ (n0 - 1)) by (apply Z.pow_le_mono_r; lia).
    assert (a < 2 ^ 1024).
    { destruct (Z_le_gt_dec 0 e).
      - rewrite (Z.max_r (- e) 0), (Z.max_l e 0) in * by lia.
        change (2 ^ 0) with 1 in *.
        assert (2 ^ e <= 2 ^ 971) by (apply Z.pow_le_mono_r; lia).
        assert (0 < 2 ^ e) by (apply Z.pow_pos_nonneg; lia).
        replace (2 ^ 1024) with (2 ^ 53 * 2 ^ 971) by reflexivity.
        rewrite Hbform in Hval. rewrite !Z.mul_1_r in Hval. rewrite Hval.
        apply Z.lt_le_trans with (2 ^ 53 * 2 ^ e).
        + apply Z.mul_lt_mono_pos_r; lia.
        + apply Z.mul_le_mono_nonneg_l; lia.
      - rewrite (Z.max_l (- e) 0), (Z.max_r e 0) in * by lia.
        change (2 ^ 0) with 1 in *.
        assert (a = Zpos m) by nia.
        assert (2 ^ 53 < 2 ^ 1024) by reflexivity. lia. }
    assert (2 ^ 1024 < 10 ^ 309) by reflexivity.
    lia.
  - intro Hneg.
    destruct (Z_le_gt_dec n0 16) as [| Hgt]; [ assumption | exfalso ].
    assert (10 ^ 16 <= 10 ^ (n0 - 1)) by (apply Z.pow_le_mono_r; lia).
    rewrite (Z.max_l (- e) 0), (Z.max_r e 0) in * by lia.
    change (2 ^ 0) with 1 in *.
    assert (a = Zpos m) by nia.
    assert (2 ^ 53 < 10 ^ 16) by reflexivity. lia.
Qed.

(** For every double the search finds digits: the text of a finite number
    is never the one of the exhausted search. *)
Lemma digits_found (m : positive) (e : Z) :
  bounded prec emax m e = true ->
  shortest max_digits (S754_finite false m e) (ratio_of m e)
           (decimal_exponent (ratio_of m e)) 1 <> None.
Proof.
  intro Hb.
  destruct (bounded_range m e Hb) as [_ He].
  destruct (decimal_exponent_le m e Hb) as [Hn Hn'].
  set (n0 := decimal_exponent (ratio_of m e)) in *.
  apply (shortest_complete _ _ _ (Z.max 1 (n0 + Z.max (- e) 0))).
  - unfold max_digits.
    change (Z.of_nat 1100) with 1100.
    destruct (Z_le_gt_dec 0 e); [ lia | ].
    specialize (Hn' ltac:(lia)). lia.
  - apply exact_candidate; [ exact Hb | lia | fold n0; lia ].
Qed.

(** ** The marker [Error] *)

Lemma layout_head (k s n : Z) :
  exists c r, layout k s n = String c r /\ is_digit c = true.
Proof.
  unfold layout.
  destruct (decimal_not_empty s) as (c & r & Hds).
  pose proof (decimal_all_digits s) as Hall. rewrite Hds in *.
  simpl in Hall. apply andb_prop in Hall as [Hc _].
  destruct ((-5 <=? n) && (n <=? 21)).
  - destruct (k <=? n); [ cbn [append]; eauto | ].
    destruct (Z.ltb_spec 0 n) as [Hn | Hn].
    + destruct (Z.to_nat n) as [| n' ] eqn:En; [ lia | ].
      cbn [String.substring append]. eauto.
    + exists "0"%char. cbn [append]. eauto.
  - destruct (k =? 1); cbn [head_tail append]; eauto.
Qed.

Lemma digit_not_E (c : ascii) (r : string) :
  is_digit c = true -> String c r <> "Error".
Proof.
  intros Hc E. inversion E; subst. discriminate Hc.
Qed.

Lemma Number_toString_not_Error (x : number) : Number_toString x <> "Error".
Proof.
  destruct x as [ s | s | | sg m e ]; cbn [Number_toString];
    try discriminate; try (destruct s; discriminate).
  destruct (shortest _ _ _ _ _) as [[[k s] n] |]; [ | discriminate ].
  destruct (layout_head k s n) as (c & r & -> & Hc).
  destruct sg; cbn [append]; [ discriminate | now apply digit_not_E ].
Qed.

Lemma toExponential_not_Error (x : number) : toExponential x 10 <> "Error".
Proof.
  intro E.
  destruct x as [ s | s | | sg m e ];
    try (destruct s; discriminate E); try discriminate E.
  unfold toExponential in E.
  destruct (scale10 _ _) as [a b].
  destruct (_ =? 10 ^ (10 + 1)).
  - destruct sg; discriminate E.
  - match type of E with
    | context [decimal ?n] =>
        destruct (decimal_not_empty n) as (c & r & Hds);
        pose proof (decimal_all_digits n) as Hall
    end.
    rewrite Hds in *. simpl in Hall. apply andb_prop in Hall as [Hc _].
    cbn [head_tail append] in E.
    destruct sg; cbn [append] in E; [ discriminate E | ].
    now apply digit_not_E in E.
Qed.

(** The formatter gives the marker [Error] for the numbers that are not
    finite, and for no other. *)
Lemma formatNumber_Error_iff (n : number) :
  formatNumber n = "Error" <-> is_finite n = false.
Proof.
  unfold formatNumber. destruct (is_finite n); cbn [negb].
  - split; [ | discriminate ]. intro E. exfalso.
    destruct (MAX_DISPLAY_LENGTH <? _).
    + now apply toExponential_not_Error in E.
    + now apply Number_toString_not_Error in E.
  - split; reflexivity.
Qed.

(** *** The text of [toExponential(10)] *)

(** The eleven digits [toExponential(10)] writes. *)
Lemma toExponential_digits (m : positive) (e : Z) :
  let ab := ratio_of m e in
  let e0 := decimal_exponent ab - 1 in
  let a := fst (scale10 ab (e0 - 10)) in
  let b := snd (scale10 ab (e0 - 10)) in
  0 < b /\ 10 ^ 10 <= (2 * a + b) / (2 * b) <= 10 ^ 11.
Proof.
  cbv zeta.
  destruct (ratio_of_spec m e) as (Ha & Hb & _ & _).
  set (n0 := decimal_exponent (ratio_of m e)).
  assert (Hbounds :
    0 < snd (scale10 (ratio_of m e) (n0 - 1 - 10))
    /\ 10 ^ 10 * snd (scale10 (ratio_of m e) (n0 - 1 - 10))
       <= fst (scale10 (ratio_of m e) (n0 - 1 - 10))
       < 10 ^ 11 * snd (scale10 (ratio_of m e) (n0 - 1 - 10))).
  { unfold scale10.
    destruct (ratio_of m e) as [a b] eqn:Eab. cbn [fst snd] in *.
    destruct (Z.leb_spec 0 (n0 - 1 - 10)) as [Hj | Hj]; cbn [fst snd].
    - pose proof (decimal_exponent_spec m e 0) as S.
      cbv zeta in S. rewrite Eab in S. cbn [fst snd] in S. fold n0 in S.
      rewrite Z.add_0_l, Z.pow_0_r, Z.mul_1_r in S.
      specialize (S ltac:(lia) ltac:(lia)).
      assert (P : 0 < 10 ^ (n0 - 1 - 10)) by (apply Z.pow_pos_nonneg; lia).
      assert (E1 : 10 ^ (n0 - 1) = 10 ^ 10 * 10 ^ (n0 - 1 - 10)).
      { rewrite <- Z.pow_add_r by lia. f_equal. lia. }
      assert (E2 : 10 ^ n0 = 10 ^ 11 * 10 ^ (n0 - 1 - 10)).
      { rewrite <- Z.pow_add_r by lia. f_equal. lia. }
      rewrite E1, E2 in S.
      split; [ now apply Z.mul_pos_pos | ].
      split; [ | ]; rewrite (Z.mul_comm b); rewrite Z.mul_assoc; apply S.
    - pose proof (decimal_exponent_spec m e (- (n0 - 1 - 10))) as S.
      cbv zeta in S. rewrite Eab in S. cbn [fst snd] in S. fold n0 in S.
      specialize (S ltac:(lia) ltac:(lia)).
      replace (- (n0 - 1 - 10) + n0 - 1) with 10 in S by lia.
      replace (- (n0 - 1 - 10) + n0) with 11 in S by lia.
      split; [ exact Hb | exact S ]. }
  destruct Hbounds as (Pb & Lo & Hi).
  set (a' := fst (scale10 (ratio_of m e) (n0 - 1 - 10))) in *.
  set (b' := snd (scale10 (ratio_of m e) (n0 - 1 - 10))) in *.
  split; [ exact Pb | ]. split.
  - apply Z.div_le_lower_bound; [ lia | ]. lia.
  - apply Z.lt_succ_r. apply Z.div_lt_upper_bound; [ lia | ]. lia.
Qed.

Lemma exponential_text_shape (sg : bool) (d : ascii) (r : string)
  (plus : bool) (k : Z) :
  is_digit d = true -> all_digits r = true -> slen r = 10 ->
  exponential_text
    ((if sg then "-" else "") +++ String d "" +++ "." +++ r +++ "e"
     +++ (if plus then "+" else "-") +++ decimal k) = true.
Proof.
  intros Hd Hr Hl. unfold exponential_text.
  assert (Hstrip : Sci.strip_minus
                     ((if sg then "-" else "") +++ String d "" +++ "." +++ r
                      +++ "e" +++ (if plus then "+" else "-") +++ decimal k)
                   = String d (String "." (r +++ "e"
                       +++ (if plus then "+" else "-") +++ decimal k))).
  { destruct sg; [ reflexivity | ]. cbn [String.append].
    exact (proj2 (proj2 (proj2 (digit_head d _ Hd)))). }
  rewrite Hstrip, Hd. cbn [andb].
  rewrite (span_digits_append r) by (assumption || reflexivity).
  rewrite Hl. cbn [Z.eqb Pos.eqb andb String.append].
  destruct (decimal_not_empty k) as (c & t & Hk).
  pose proof (decimal_all_digits k) as Hall. rewrite Hk in *.
  destruct plus; cbn [String.append Ascii.eqb Bool.eqb orb andb truthy
                      is_empty negb]; exact Hall.
Qed.

Lemma toExponential_shape (sg : bool) (m : positive) (e : Z) :
  exponential_text (toExponential (S754_finite sg m e) 10) = true.
Proof.
  unfold toExponential.
  pose proof (toExponential_digits m e) as H. cbv zeta in H.
  destruct (scale10 (ratio_of m e)
              (decimal_exponent (ratio_of m e) - 1 - 10)) as [a b].
  cbn [fst snd] in H. destruct H as (Hb & Lo & Hi).
  set (n := (2 * a + b) / (2 * b)) in *.
  assert (Hlen : forall n' : Z, 10 ^ 10 <= n' < 10 ^ 11 ->
            exists d r, decimal n' = String d r /\ is_digit d = true
                        /\ all_digits r = true /\ slen r = 10).
  { intros n' Hn'.
    pose proof (decimal_length n' 11 ltac:(lia) Hn') as L.
    pose proof (decimal_all_digits n') as A.
    destruct (decimal n') as [| d r ]; [ discriminate L | ].
    cbn [all_digits] in A. apply andb_prop in A as [Ad Ar].
    exists d, r. repeat split; try assumption.
    unfold slen in *. cbn [String.length] in L. lia. }
  change (10 =? 0) with false. cbv iota.
  destruct (Z.eqb_spec n (10 ^ (10 + 1))) as [E | NE].
  - destruct (Hlen (10 ^ 10) ltac:(lia)) as (d & r & Hd & Dd & Dr & Lr).
    rewrite Hd. cbn [head_tail].
    rewrite <- !append_assoc.
    rewrite !append_assoc.
    apply (exponential_text_shape sg d r
             (0 <=? decimal_exponent (ratio_of m e) - 1 + 1)); assumption.
  - assert (Hn : 10 ^ 10 <= n < 10 ^ 11).
    { change (10 ^ (10 + 1)) with (10 ^ 11) in NE. lia. }
    destruct (Hlen n Hn) as (d & r & Hd & Dd & Dr & Lr).
    rewrite Hd. cbn [head_tail].
    apply (exponential_text_shape sg d r
             (0 <=? decimal_exponent (ratio_of m e) - 1)); assumption.
Qed.

(** ** The renderings of the formatter *)




(* ================================================================= *)
(** * Further properties of the two scripts *)

(** ** What the converter keeps *)

Section Conservation.
Context {rt : MathImpl}.

Lemma pop_operators_split (t : string) (output ops : list string) :
  exists popped,
    Sci.pop_operators t output ops
    = (output ++ popped, skipn (List.length popped) ops)
    /\ popped = firstn (List.length popped) ops.
Proof.
  revert output. induction ops as [| o ops IH]; intro output; simpl.
  - exists []. now rewrite app_nil_r.
  - destruct (Sci.pops t o).
    + destruct (IH (output ++ [o])) as (popped & E & F).
      exists (o :: popped). rewrite E, <- app_assoc. simpl.
      split; [ reflexivity | now rewrite <- F ].
    + exists []. now rewrite app_nil_r.
Qed.

Lemma pop_to_paren_split (output ops : list string) :
  exists popped rest,
    Sci.pop_to_paren output ops = (output ++ popped, rest)
    /\ ops = popped ++ rest
    /\ ~ In "(" popped
    /\ (rest = [] \/ exists r, rest = "(" :: r).
Proof.
  revert output. induction ops as [| o ops IH]; intro output; simpl.
  - exists [], []. rewrite app_nil_r. repeat split; auto.
  - destruct (String.eqb_spec o "(") as [-> | Hne].
    + exists [], ("(" :: ops). rewrite app_nil_r.
      repeat split; eauto.
    + destruct (IH (output ++ [o])) as (popped & rest & E & F & N & R).
      exists (o :: popped), rest. rewrite E, <- app_assoc. simpl.
      repeat split; [ now rewrite F | | exact R ].
      intros [H | H]; [ now apply Hne | now apply N ].
Qed.

(** The tokens that are no parentheses. *)

Lemma filter_permutation (f : string -> bool) (l l' : list string) :
  Permutation l l' -> Permutation (filter f l) (filter f l').
Proof.
  induction 1 as [| x l l' _ IH | x y l | l l' l'' _ IH1 _ IH2 ]; simpl.
  - constructor.
  - destruct (f x); [ now constructor | exact IH ].
  - destruct (f x), (f y); try reflexivity. constructor.
  - now transitivity (filter f l').
Qed.

Lemma operand_not_paren (t : string) :
  is_operand t = true -> not_paren t = true.
Proof.
  intro H. unfold not_paren.
  destruct (String.eqb_spec t "(") as [-> | _]; [ discriminate H | ].
  destruct (String.eqb_spec t ")") as [-> | _]; [ discriminate H | ].
  reflexivity.
Qed.

Lemma operator_not_paren (t : string) :
  Sci.in_OPERATORS t = true -> not_paren t = true.
Proof.
  intro H. unfold not_paren.
  destruct (String.eqb_spec t "(") as [-> | _]; [ discriminate H | ].
  destruct (String.eqb_spec t ")") as [-> | _]; [ discriminate H | ].
  reflexivity.
Qed.

(** One turn of the loop adds the token to output and stack taken
    together, or removes a parenthesis. *)
Lemma toRPN_step_keeps (output ops : list string) (t : string) :
  let st' := Sci.toRPN_step (output, ops) t in
  Permutation (filter not_paren (fst st' ++ snd st'))
              (filter not_paren ((output ++ ops) ++ [t]))
  /\ (~ In ")" (output ++ ops) -> ~ In ")" (fst st' ++ snd st')).
Proof.
  unfold Sci.toRPN_step. fold (is_operand t).
  destruct (is_operand t) eqn:Hop.
  { cbn [fst snd]. split.
    - rewrite <- !app_assoc.
      rewrite !filter_app. apply Permutation_app_head.
      apply Permutation_app_comm.
    - intros N H. apply N.
      rewrite <- app_assoc in H. apply in_app_or in H as [H | H];
        [ apply in_or_app; now left | ].
      simpl in H. destruct H as [H | H]; [ subst t; discriminate Hop | ].
      apply in_or_app. now right. }
  destruct (Sci.in_OPERATORS t) eqn:Hin.
  { destruct (pop_operators_split t output ops) as (popped & E & F).
    rewrite E. cbn [fst snd].
    assert (Hcat : (output ++ popped) ++ skipn (List.length popped) ops
                   = output ++ ops).
    { rewrite <- app_assoc. f_equal. rewrite F at 1. apply firstn_skipn. }
    split.
    - rewrite <- Hcat.
      apply filter_permutation.
      rewrite <- !app_assoc. apply Permutation_app_head.
      apply Permutation_app_head. apply Permutation_cons_append.
    - intros N H. rewrite <- Hcat in N. apply N.
      apply in_app_or in H as [H | H]; [ apply in_or_app; now left | ].
      destruct H as [H | H]; [ subst t; discriminate Hin | ].
      apply in_or_app. now right. }
  destruct (String.eqb_spec t "(") as [-> | Hopen].
  { cbn [fst snd]. split.
    - rewrite !filter_app. simpl. rewrite app_nil_r. reflexivity.
    - intros N H. apply N.
      apply in_app_or in H as [H | [H | H]];
        [ apply in_or_app; now left | discriminate H | ].
      apply in_or_app. now right. }
  destruct (String.eqb_spec t ")") as [-> | Hclose].
  { destruct (pop_to_paren_split output ops)
      as (popped & rest & E & F & _ & R).
    rewrite E. cbn [fst snd]. rewrite F. split.
    - rewrite !filter_app. simpl. rewrite app_nil_r.
      rewrite <- app_assoc.
      destruct R as [-> | (r & ->)]; simpl; reflexivity.
    - intros N H. apply N. rewrite app_assoc.
      apply in_app_or in H as [H | H]; [ apply in_or_app; now left | ].
      apply in_or_app. right. destruct rest; [ assumption | now right ]. }
  cbn [fst snd]. split.
  - apply filter_permutation.
    rewrite <- !app_assoc. apply Permutation_app_head.
    apply Permutation_cons_append.
  - intros N H. apply N.
    apply in_app_or in H as [H | [H | H]];
      [ apply in_or_app; now left | now apply Hclose in H | ].
    apply in_or_app. now right.
Qed.

Lemma fold_keeps (ts : list string) :
  forall output ops,
    let st' := fold_left Sci.toRPN_step ts (output, ops) in
    Permutation (filter not_paren (fst st' ++ snd st'))
                (filter not_paren ((output ++ ops) ++ ts))
    /\ (~ In ")" (output ++ ops) -> ~ In ")" (fst st' ++ snd st')).
Proof.
  induction ts as [| t ts IH]; intros output ops; cbn [fold_left].
  - rewrite app_nil_r. split; [ reflexivity | auto ].
  - pose proof (toRPN_step_keeps output ops t) as [P N].
    destruct (Sci.toRPN_step (output, ops) t) as [o1 s1].
    cbn [fst snd] in P, N.
    destruct (IH o1 s1) as [P' N']. split.
    + etransitivity; [ exact P' | ].
      rewrite (filter_app _ (o1 ++ s1) ts).
      replace ((output ++ ops) ++ t :: ts)
        with (((output ++ ops) ++ [t]) ++ ts)
        by (rewrite <- (app_assoc _ [t] ts); reflexivity).
      rewrite (filter_app _ ((output ++ ops) ++ [t]) ts).
      now apply Permutation_app_tail.
    + intro H. apply N'. now apply N.
Qed.

Lemma toRPN_permutation (ts : list string) :
  Permutation (filter not_paren (Sci.toRPN ts)) (filter not_paren ts).
Proof.
  rewrite toRPN_unfold. unfold final_output, final_stack.
  now destruct (fold_keeps ts [] []) as [P _].
Qed.

End Conservation.

(** X1. Whatever the input, the converter loses and invents nothing but
    parentheses: the tokens of the output other than parentheses are those
    of the input, each as often, and the output holds no closing
    parenthesis. *)
Theorem toRPN_keeps_tokens {rt : MathImpl} (ts : list string) :
  Permutation (filter not_paren (Sci.toRPN ts)) (filter not_paren ts)
  /\ ~ In ")" (Sci.toRPN ts).
Proof.
  rewrite toRPN_unfold. unfold final_output, final_stack.
  destruct (fold_keeps ts [] []) as [P N]. split.
  - exact P.
  - apply N. intros [].
Qed.

(** ** The order of the operands *)

Section Operands.
Context {rt : MathImpl}.

Lemma filter_stackable (l : list string) :
  Forall stackable l -> filter is_operand l = [].
Proof.
  induction 1 as [| t l Ht _ IH]; simpl; [ reflexivity | ].
  unfold stackable in Ht. now rewrite Ht.
Qed.

Lemma Forall_firstn (P : string -> Prop) (n : nat) (l : list string) :
  Forall P l -> Forall P (firstn n l).
Proof.
  revert n. induction l as [| x l IH]; intros [| n] H; simpl;
    try constructor; inversion H; subst; auto.
Qed.

Lemma toRPN_step_operands (output ops : list string) (t : string) :
  Forall stackable ops ->
  filter is_operand (fst (Sci.toRPN_step (output, ops) t))
  = filter is_operand output ++ filter is_operand [t].
Proof.
  intro Hst. unfold Sci.toRPN_step. fold (is_operand t). simpl (filter _ [t]).
  destruct (is_operand t) eqn:Hop.
  { cbn [fst]. rewrite filter_app. simpl. now rewrite Hop. }
  rewrite app_nil_r.
  destruct (Sci.in_OPERATORS t).
  { destruct (pop_operators_split t output ops) as (popped & E & F).
    rewrite E. cbn [fst]. rewrite filter_app, (filter_stackable popped).
    - apply app_nil_r.
    - rewrite F. now apply Forall_firstn. }
  destruct (String.eqb t "("); [ reflexivity | ].
  destruct (String.eqb t ")"); [ | reflexivity ].
  destruct (pop_to_paren_split output ops) as (popped & rest & E & F & _ & _).
  rewrite E. cbn [fst]. rewrite filter_app, (filter_stackable popped).
  - apply app_nil_r.
  - rewrite F in Hst. now apply Forall_app in Hst as [Hst _].
Qed.

Lemma fold_operands (ts : list string) :
  forall output ops,
    Forall stackable ops ->
    filter is_operand (fst (fold_left Sci.toRPN_step ts (output, ops)))
    = filter is_operand output ++ filter is_operand ts.
Proof.
  induction ts as [| t ts IH]; intros output ops Hst; cbn [fold_left].
  - simpl. now rewrite app_nil_r.
  - pose proof (toRPN_step_operands output ops t Hst) as E.
    pose proof (toRPN_step_stackable (output, ops) t Hst) as Hst'.
    destruct (Sci.toRPN_step (output, ops) t) as [o1 s1].
    cbn [fst snd] in *. rewrite (IH o1 s1 Hst'), E, <- app_assoc.
    f_equal. change (t :: ts) with ([t] ++ ts). now rewrite filter_app.
Qed.

End Operands.

(** X2. The converter keeps the numbers and constants in the order of the
    input: the operands of the output, read left to right, are those of
    the input. *)
Theorem toRPN_keeps_operand_order {rt : MathImpl} (ts : list string) :
  filter is_operand (Sci.toRPN ts) = filter is_operand ts.
Proof.
  rewrite toRPN_unfold, filter_app.
  rewrite (filter_stackable _ (final_stack_stackable ts)), app_nil_r.
  unfold final_output. now rewrite fold_operands by constructor.
Qed.

(** ** A closing parenthesis without an opening one *)

Section Stray.
Context {rt : MathImpl}.

Lemma pop_operators_prefix (t : string) (pre output ops : list string) :
  Sci.pop_operators t (pre ++ output) ops
  = (pre ++ fst (Sci.pop_operators t output ops),
     snd (Sci.pop_operators t output ops)).
Proof.
  revert output. induction ops as [| o ops IH]; intro output; simpl.
  - reflexivity.
  - destruct (Sci.pops t o); [ | reflexivity ].
    rewrite <- app_assoc. apply IH.
Qed.

Lemma pop_to_paren_prefix (pre output ops : list string) :
  Sci.pop_to_paren (pre ++ output) ops
  = (pre ++ fst (Sci.pop_to_paren output ops),
     snd (Sci.pop_to_paren output ops)).
Proof.
  revert output. induction ops as [| o ops IH]; intro output; simpl.
  - reflexivity.
  - destruct (String.eqb o "("); [ reflexivity | ].
    rewrite <- app_assoc. apply IH.
Qed.

(** The loop never reads its output: what is already there stays in
    front. *)
Lemma toRPN_step_prefix (pre output ops : list string) (t : string) :
  Sci.toRPN_step (pre ++ output, ops) t
  = (pre ++ fst (Sci.toRPN_step (output, ops) t),
     snd (Sci.toRPN_step (output, ops) t)).
Proof.
  unfold Sci.toRPN_step.
  destruct (Sci.isNumberToken t || String.eqb t "pi" || String.eqb t "e").
  { cbn [fst snd]. now rewrite app_assoc. }
  destruct (Sci.in_OPERATORS t).
  { rewrite pop_operators_prefix.
    now destruct (Sci.pop_operators t output ops). }
  destruct (String.eqb t "("); [ reflexivity | ].
  destruct (String.eqb t ")"); [ | reflexivity ].
  rewrite pop_to_paren_prefix.
  now destruct (Sci.pop_to_paren output ops).
Qed.

Lemma fold_prefix (ts : list string) :
  forall pre output ops,
    fold_left Sci.toRPN_step ts (pre ++ output, ops)
    = (pre ++ fst (fold_left Sci.toRPN_step ts (output, ops)),
       snd (fold_left Sci.toRPN_step ts (output, ops))).
Proof.
  induction ts as [| t ts IH]; intros pre output ops; cbn [fold_left].
  - reflexivity.
  - rewrite toRPN_step_prefix.
    destruct (Sci.toRPN_step (output, ops) t) as [o1 s1]. apply IH.
Qed.

Lemma pop_to_paren_all (output ops : list string) :
  ~ In "(" ops -> Sci.pop_to_paren output ops = (output ++ ops, []).
Proof.
  revert output. induction ops as [| o ops IH]; intros output N; simpl.
  - now rewrite app_nil_r.
  - destruct (String.eqb_spec o "(") as [-> | Hne].
    + exfalso. apply N. now left.
    + rewrite IH, <- app_assoc; [ reflexivity | ].
      intro H. apply N. now right.
Qed.

End Stray.

(** X3. A closing parenthesis met when no opening parenthesis is on the
    stack ends the expression before it and is dropped: what comes before
    is converted as a whole, and what follows is converted on its own,
    after it. *)
Theorem stray_close_paren_splits {rt : MathImpl} (ts rest : list string) :
  ~ In "(" (final_stack ts) ->
  Sci.toRPN (ts ++ ")" :: rest) = Sci.toRPN ts ++ Sci.toRPN rest.
Proof.
  intro N. rewrite (toRPN_unfold ts). unfold Sci.toRPN at 1.
  rewrite fold_left_app. cbn [fold_left].
  unfold final_output, final_stack in *.
  destruct (fold_left Sci.toRPN_step ts ([], [])) as [output ops].
  cbn [fst snd] in *.
  replace (Sci.toRPN_step (output, ops) ")")
    with (let (output', ops') := Sci.pop_to_paren output ops in
          (output', tl ops')) by reflexivity.
  rewrite (pop_to_paren_all output ops N). cbn [tl].
  rewrite <- (app_nil_r (output ++ ops)) at 1.
  rewrite fold_prefix. unfold Sci.toRPN.
  destruct (fold_left Sci.toRPN_step rest ([], [])) as [o2 s2].
  cbn [fst snd]. rewrite !flush_app, app_assoc. reflexivity.
Qed.

Lemma stray_close_paren_splits_witness :
  ~ In "(" (@final_stack integer_powers ["2"; "+"; "3"])
  /\ @Sci.toRPN integer_powers ["2"; "+"; "3"; ")"; "*"; "4"]
     = ["2"; "3"; "+"; "4"; "*"].
Proof.
  assert (N : ~ In "(" (@final_stack integer_powers ["2"; "+"; "3"])).
  { intros [H | []]. discriminate H. }
  split; [ exact N | ].
  exact (@stray_close_paren_splits integer_powers ["2"; "+"; "3"]
           ["*"; "4"] N).
Defined.

(** ** A function before an expression *)

(** X4. A function name written before a well-formed expression is applied
    to the whole expression, also when its argument is in parentheses and
    an operator follows: [sin ( 30 ) + 1] is the sine of [31]. *)
Theorem function_takes_whole_expression {rt : MathImpl} (degMode : bool)
  (f : string) (e : expr) :
  is_function f = true -> well_formed 1 e = true ->
  Sci.toRPN (f :: tokens e) = postfix e ++ [f]
  /\ Sci.evaluateExpression degMode (f :: tokens e)
     = Number (Sci.apply_function degMode f (Number (denote e))).
Proof.
  intros Hf Hwf. unfold is_function in Hf.
  apply andb_prop in Hf as [Hf Hclose]. apply andb_prop in Hf as [Hf Hopen].
  apply andb_prop in Hf as [Hoperand Hop].
  apply negb_true_iff in Hclose, Hopen, Hoperand, Hop.
  assert (Hg : guards 1 [f]).
  { intros o _. unfold Sci.pops. now rewrite Hop. }
  destruct (convert_expr e 1%nat [] [f] Hwf Hg) as (out & pend & E & P & _).
  assert (Hrpn : Sci.toRPN (f :: tokens e) = postfix e ++ [f]).
  { unfold Sci.toRPN. cbn [fold_left].
    replace (Sci.toRPN_step ([], []) f) with (@nil string, [f]).
    - rewrite E, flush_app, app_assoc, P. reflexivity.
    - unfold Sci.toRPN_step. fold (is_operand f).
      now rewrite Hoperand, Hop, Hopen, Hclose. }
  split; [ exact Hrpn | ].
  unfold Sci.evaluateExpression, Sci.evalRPN. rewrite Hrpn.
  rewrite (evalRPN_postfix degMode e 1%nat [f] [] Hwf).
  cbn [Sci.evalRPN_loop]. unfold Sci.evalRPN_step.
  unfold is_operand in Hoperand.
  destruct (Sci.isNumberToken f); [ discriminate Hoperand | ].
  destruct (String.eqb f "pi"); [ discriminate Hoperand | ].
  destruct (String.eqb f "e"); [ discriminate Hoperand | ].
  rewrite Hop. reflexivity.
Qed.

Lemma function_takes_whole_expression_witness :
  @is_function integer_powers "neg" = true
  /\ well_formed 1 (Bin Add (Paren (Lit "30")) (Lit "1")) = true
  /\ @Sci.toRPN integer_powers ["neg"; "("; "30"; ")"; "+"; "1"]
     = ["30"; "1"; "+"; "neg"]
  /\ @Sci.evaluateExpression integer_powers false
       ["neg"; "("; "30"; ")"; "+"; "1"]
     = Number (neg (of_Z 31)).
Proof.
  pose proof (@function_takes_whole_expression integer_powers false "neg"
                (Bin Add (Paren (Lit "30")) (Lit "1")) eq_refl eq_refl)
    as [H1 H2].
  exact (conj eq_refl (conj eq_refl (conj H1 H2))).
Defined.

(** ** The exception of the evaluator *)

Section Exception.
Context {rt : MathImpl}.

Lemma inherited_throws (degMode : bool) (t : string) (stack : list number) :
  Sci.inherited t = true ->
  Sci.evalRPN_step degMode stack t = Sci.Throws Sci.TypeError.
Proof.
  unfold Sci.inherited. intro H. apply existsb_exists in H as (k & Hk & E).
  apply String.eqb_eq in E. subst k.
  simpl in Hk.
  repeat (destruct Hk as [<- | Hk];
          [ unfold Sci.evalRPN_step; cbn;
            now destruct (Sci.pop stack) as [b [| a s]] | ]).
  destruct Hk.
Qed.

Lemma not_inherited_returns (degMode : bool) (t : string)
  (stack : list number) :
  Sci.inherited t = false ->
  exists stack', Sci.evalRPN_step degMode stack t = Sci.Returns stack'.
Proof.
  intro H. unfold Sci.evalRPN_step.
  destruct (Sci.isNumberToken t); [ eauto | ].
  destruct (String.eqb t "pi"); [ eauto | ].
  destruct (String.eqb t "e"); [ eauto | ].
  unfold Sci.in_OPERATORS.
  destruct (Sci.pop stack) as [b stack1].
  destruct (Sci.pop stack1) as [a stack2].
  destruct (Sci.OPERATORS t); [ eauto | ].
  rewrite H. eauto.
Qed.

Lemma evalRPN_loop_throws (degMode : bool) (rpn : list string) :
  forall stack,
    Sci.evalRPN_loop degMode rpn stack = Sci.Throws Sci.TypeError
    <-> existsb Sci.inherited rpn = true.
Proof.
  induction rpn as [| t rpn IH]; intro stack; cbn [Sci.evalRPN_loop existsb].
  - split; discriminate.
  - destruct (Sci.inherited t) eqn:Ht.
    + rewrite (inherited_throws degMode t stack Ht). cbn [orb].
      split; reflexivity.
    + destruct (not_inherited_returns degMode t stack Ht) as [stack' ->].
      cbn [orb]. apply IH.
Qed.

End Exception.

(** X5. The evaluation throws exactly when a token is a property name that
    the table of operators inherits from [Object.prototype] (such as
    [toString]): the token passes the test [in OPERATORS] and has no
    function to call. [evaluateExpression] catches the exception and
    returns [NaN]. *)
Theorem evalRPN_throws_on_inherited {rt : MathImpl} (degMode : bool)
  (ts : list string) :
  (Sci.evalRPN degMode ts = Sci.Throws Sci.TypeError
   <-> existsb Sci.inherited ts = true)
  /\ (existsb Sci.inherited ts = true ->
      Sci.evaluateExpression degMode ts = Number NaN).
Proof.
  assert (H : Sci.evalRPN degMode ts = Sci.Throws Sci.TypeError
              <-> existsb Sci.inherited ts = true).
  { rewrite <- (evalRPN_loop_throws degMode ts []). unfold Sci.evalRPN.
    destruct (Sci.evalRPN_loop degMode ts []) as [stack | []].
    - split; discriminate.
    - split; reflexivity. }
  split; [ exact H | ].
  intro Hin. unfold Sci.evaluateExpression.
  assert (Hrpn : existsb Sci.inherited (Sci.toRPN ts) = true).
  { apply existsb_exists in Hin as (t & Ht & Hi).
    apply existsb_exists. exists t. split; [ | exact Hi ].
    pose proof (toRPN_permutation ts) as P.
    assert (Hnp : not_paren t = true).
    { apply operator_not_paren. unfold Sci.in_OPERATORS.
      destruct (Sci.OPERATORS t); [ reflexivity | exact Hi ]. }
    assert (In t (filter not_paren ts)) by (apply filter_In; auto).
    apply (Permutation_in _ (Permutation_sym P)) in H0.
    now apply filter_In in H0 as [H0 _]. }
  assert (E : Sci.evalRPN degMode (Sci.toRPN ts) = Sci.Throws Sci.TypeError).
  { unfold Sci.evalRPN.
    apply (evalRPN_loop_throws degMode (Sci.toRPN ts) []) in Hrpn.
    now rewrite Hrpn. }
  now rewrite E.
Qed.

Lemma evalRPN_throws_on_inherited_witness :
  existsb Sci.inherited ["2"; "toString"; "3"] = true
  /\ @Sci.evaluateExpression integer_powers false ["2"; "toString"; "3"]
     = Number NaN.
Proof.
  exact (conj eq_refl
           (proj2 (@evalRPN_throws_on_inherited integer_powers false
                     ["2"; "toString"; "3"]) eq_refl)).
Defined.

(** ** The key [=] of the scientific calculator *)

Section SciEquals.
Context {rt : MathImpl}.

Lemma evaluate_well_formed (degMode : bool) (e : expr) :
  well_formed 1 e = true ->
  Sci.evaluateExpression degMode (tokens e) = Number (denote e).
Proof.
  intro Hwf. unfold Sci.evaluateExpression, Sci.evalRPN.
  rewrite (toRPN_postfix e Hwf), <- (app_nil_r (postfix e)).
  now rewrite (evalRPN_postfix degMode e 1%nat [] [] Hwf).
Qed.

Lemma tokens_not_empty (e : expr) : tokens e <> [].
Proof.
  destruct e as [ t | o a b | a ]; simpl; try discriminate.
  destruct (tokens a); discriminate.
Qed.

Lemma push_current_token (st : Sci.state) :
  Sci.currentToken (Sci.push_current st) = "".
Proof.
  unfold Sci.push_current.
  destruct (Sci.currentToken st) eqn:E; cbn [truthy is_empty negb];
    [ exact E | reflexivity ].
Qed.

Lemma push_current_frame (st : Sci.state) :
  Sci.degMode (Sci.push_current st) = Sci.degMode st
  /\ Sci.memory (Sci.push_current st) = Sci.memory st
  /\ Sci.displayValue (Sci.push_current st) = Sci.displayValue st.
Proof.
  unfold Sci.push_current. destruct (truthy (Sci.currentToken st));
    repeat split.
Qed.

(** The state after [equals], when there is something to evaluate. *)
Lemma equals_unfold (st : Sci.state) :
  Sci.exprTokens (Sci.push_current st) <> [] ->
  Sci.equals st =
  let val := Sci.evaluateExpression (Sci.degMode st)
               (Sci.exprTokens (Sci.push_current st)) in
  {| Sci.displayValue :=
       if isFinite val then formatNumber (ToNumber val) else "Error";
     Sci.firstOperand := None; Sci.operator := None;
     Sci.waitingForSecondOperand := false;
     Sci.memory := Sci.memory st; Sci.exprTokens := [];
     Sci.currentToken := ""; Sci.degMode := Sci.degMode st |}.
Proof.
  intro H. unfold Sci.equals.
  destruct (push_current_frame st) as (Hd & Hm & _).
  destruct (Sci.exprTokens (Sci.push_current st)) as [| t ts ] eqn:E;
    [ now destruct H | ].
  cbv zeta. now rewrite Hd, Hm, push_current_token.
Qed.

End SciEquals.

(** X6. When the pending tokens, the current token included, are those of a
    well-formed expression, [equals] displays the formatted value of the
    expression, or [Error] when the value is not finite, and leaves an
    empty expression and an empty current token; memory and angle mode are
    kept. *)
Theorem equals_displays_value {rt : MathImpl} (st : Sci.state) (e : expr) :
  Sci.exprTokens (Sci.push_current st) = tokens e ->
  well_formed 1 e = true ->
  Sci.displayValue (Sci.equals st)
  = (if is_finite (denote e) then formatNumber (denote e) else "Error")
  /\ Sci.exprTokens (Sci.equals st) = []
  /\ Sci.currentToken (Sci.equals st) = ""
  /\ Sci.memory (Sci.equals st) = Sci.memory st
  /\ Sci.degMode (Sci.equals st) = Sci.degMode st.
Proof.
  intros Htok Hwf. rewrite equals_unfold.
  - cbv zeta. rewrite Htok, (evaluate_well_formed _ e Hwf).
    repeat split.
  - rewrite Htok. apply tokens_not_empty.
Qed.

Lemma equals_displays_value_witness :
  @Sci.displayValue
    (@Sci.equals integer_powers
       (Sci.inputDigit "4"
          (Sci.handleOperator "divide"
             (Sci.inputDigit "0" (Sci.inputDigit "1" Sci.initial)))))
  = "2.5".
Proof.
  exact (proj1 (@equals_displays_value integer_powers
                  (Sci.inputDigit "4"
                     (Sci.handleOperator "divide"
                        (Sci.inputDigit "0" (Sci.inputDigit "1" Sci.initial))))
                  (Bin Div (Lit "10") (Lit "4")) eq_refl eq_refl)).
Defined.

(** X7. [equals] does nothing when there is no token at all; otherwise it
    displays [Error] exactly when the value of the expression is not a
    finite number ([undefined], [NaN] or an infinity). *)
Theorem equals_Error_iff {rt : MathImpl} (st : Sci.state) :
  (Sci.currentToken st = "" -> Sci.exprTokens st = [] -> Sci.equals st = st)
  /\ (Sci.exprTokens (Sci.push_current st) <> [] ->
      (Sci.displayValue (Sci.equals st) = "Error"
       <-> isFinite (Sci.evaluateExpression (Sci.degMode st)
                       (Sci.exprTokens (Sci.push_current st))) = false)).
Proof.
  split.
  - intros Hc He. unfold Sci.equals, Sci.push_current.
    rewrite Hc. cbn [truthy is_empty negb]. now rewrite He.
  - intro H. rewrite (equals_unfold st H). cbv zeta. cbn [Sci.displayValue].
    set (val := Sci.evaluateExpression _ _).
    destruct (isFinite val) eqn:F.
    + split; [ | discriminate ]. intro E.
      apply formatNumber_Error_iff in E. unfold isFinite in F. congruence.
    + split; reflexivity.
Qed.

Lemma equals_Error_iff_witness :
  Sci.exprTokens (Sci.push_current
    (Sci.inputDigit "0" (Sci.handleOperator "divide"
       (Sci.inputDigit "0" Sci.initial)))) <> []
  /\ @Sci.displayValue
       (@Sci.equals integer_powers
          (Sci.inputDigit "0" (Sci.handleOperator "divide"
             (Sci.inputDigit "0" Sci.initial)))) = "Error".
Proof.
  assert (H : Sci.exprTokens (Sci.push_current
    (Sci.inputDigit "0" (Sci.handleOperator "divide"
       (Sci.inputDigit "0" Sci.initial)))) <> []) by discriminate.
  split; [ exact H | ].
  exact (proj2 (proj2 (@equals_Error_iff integer_powers
                         (Sci.inputDigit "0" (Sci.handleOperator "divide"
                            (Sci.inputDigit "0" Sci.initial)))) H) eq_refl).
Defined.

Lemma div_by_zero_not_finite (x z : number) :
  strict_eq z zero = true -> is_finite (div x z) = false.
Proof.
  destruct z as [ s | s | | s m e ]; intro H;
    try (destruct s; discriminate H); try discriminate H.
  destruct x; reflexivity.
Qed.

(** X8. A division by a number token that reads as zero displays [Error],
    whatever the dividend. *)
Theorem division_by_zero_displays_Error {rt : MathImpl} (st : Sci.state)
  (a b : string) :
  Sci.isNumberToken a = true -> Sci.isNumberToken b = true ->
  strict_eq (parseFloat b) zero = true ->
  Sci.exprTokens (Sci.push_current st) = [a; "/"; b] ->
  Sci.displayValue (Sci.equals st) = "Error".
Proof.
  intros Ha Hb Hz Htok.
  assert (Hwf : well_formed 1 (Bin Div (Lit a) (Lit b)) = true).
  { simpl. now rewrite Ha, Hb. }
  rewrite equals_unfold by (rewrite Htok; discriminate).
  cbv zeta. cbn [Sci.displayValue]. rewrite Htok.
  change [a; "/"; b] with (tokens (Bin Div (Lit a) (Lit b))).
  rewrite (evaluate_well_formed _ _ Hwf). cbn [denote apply_binop].
  unfold isFinite. cbn [ToNumber].
  now rewrite div_by_zero_not_finite.
Qed.

Lemma division_by_zero_displays_Error_witness :
  @Sci.displayValue
    (@Sci.equals integer_powers
       (Sci.inputDigit "0" (Sci.handleOperator "divide"
          (Sci.inputDigit "7" Sci.initial)))) = "Error".
Proof.
  exact (@division_by_zero_displays_Error integer_powers
           (Sci.inputDigit "0" (Sci.handleOperator "divide"
              (Sci.inputDigit "7" Sci.initial)))
           "7" "0" eq_refl eq_refl eq_refl eq_refl).
Defined.

(** X9. [resetCalculator] sets the display to [0] and keeps the pending
    tokens and the current token. When a token is pending or under entry,
    [equals] after it gives the state it would have given without it; when
    there is none, [equals] after it changes nothing more, and the display
    stays [0]. *)
Theorem clear_keeps_expression {rt : MathImpl} (st : Sci.state) :
  Sci.displayValue (Sci.resetCalculator st) = "0"
  /\ Sci.exprTokens (Sci.resetCalculator st) = Sci.exprTokens st
  /\ Sci.currentToken (Sci.resetCalculator st) = Sci.currentToken st
  /\ (Sci.exprTokens (Sci.push_current st) <> [] ->
      Sci.equals (Sci.resetCalculator st) = Sci.equals st)
  /\ (Sci.exprTokens (Sci.push_current st) = [] ->
      Sci.equals (Sci.resetCalculator st) = Sci.resetCalculator st).
Proof.
  split; [ reflexivity | split; [ reflexivity | split; [ reflexivity | ] ] ].
  assert (E : Sci.exprTokens (Sci.push_current (Sci.resetCalculator st))
              = Sci.exprTokens (Sci.push_current st)).
  { unfold Sci.push_current. cbn [Sci.currentToken Sci.resetCalculator].
    now destruct (truthy (Sci.currentToken st)). }
  split; intro H.
  - rewrite !equals_unfold by (rewrite ?E; exact H).
    now rewrite E.
  - unfold Sci.push_current in H.
    destruct (truthy (Sci.currentToken st)) eqn:Ht.
    + cbn [Sci.exprTokens Sci.set_token Sci.set_tokens] in H.
      now destruct (Sci.exprTokens st).
    + unfold Sci.equals, Sci.push_current.
      cbn [Sci.currentToken Sci.resetCalculator]. rewrite Ht.
      change (Sci.exprTokens (Sci.resetCalculator st))
        with (Sci.exprTokens st).
      cbv iota in H. now rewrite H.
Qed.

Lemma clear_keeps_expression_witness :
  @Sci.equals integer_powers
    (Sci.resetCalculator
       (Sci.handleOperator "add" (Sci.inputDigit "2" Sci.initial)))
  = @Sci.equals integer_powers
      (Sci.handleOperator "add" (Sci.inputDigit "2" Sci.initial))
  /\ @Sci.equals integer_powers (Sci.resetCalculator Sci.initial)
     = Sci.resetCalculator Sci.initial.
Proof.
  split.
  - refine (proj1 (proj2 (proj2 (proj2
             (@clear_keeps_expression integer_powers
                (Sci.handleOperator "add" (Sci.inputDigit "2" Sci.initial))))))
             _).
    discriminate.
  - exact (proj2 (proj2 (proj2 (proj2
             (@clear_keeps_expression integer_powers Sci.initial))))
             eq_refl).
Defined.

(** ** The editing keys *)

Lemma drop_last_append (t : string) (c : ascii) :
  drop_last (t +++ String c EmptyString) = t.
Proof.
  induction t as [| a t IH]; [ reflexivity | ].
  cbn [String.append drop_last]. rewrite IH.
  destruct t; reflexivity.
Qed.

Lemma one_character (d : string) :
  slen d = 1 -> exists c, d = String c EmptyString.
Proof.
  unfold slen. destruct d as [| c [| c' r ] ]; cbn [String.length]; intro H;
    [ lia | now exists c | lia ].
Qed.


Lemma truthy_append (t d : string) :
  truthy d = true -> truthy (t +++ d) = true.
Proof. destruct t; [ trivial | reflexivity ]. Qed.

Lemma eqb_false_iff (s t : string) : String.eqb s t = false <-> s <> t.
Proof.
  destruct (String.eqb_spec s t); split; congruence.
Qed.

(** X10. Scientific script: [backspace] undoes the digit just typed. Unless
    the current token was the text [0], which a digit replaces, the token
    and the pending tokens are those before the digit, and the display
    shows the token, or [0] when it is empty. *)
Theorem sci_backspace_undoes_digit (st : Sci.state) (digit : string) :
  slen digit = 1 ->
  Sci.currentToken st <> "0" ->
  Sci.currentToken (Sci.backspace (Sci.inputDigit digit st))
  = Sci.currentToken st
  /\ Sci.exprTokens (Sci.backspace (Sci.inputDigit digit st))
     = Sci.exprTokens st
  /\ Sci.displayValue (Sci.backspace (Sci.inputDigit digit st))
     = (if truthy (Sci.currentToken st) then Sci.currentToken st else "0").
Proof.
  intros Hd H0. destruct (one_character digit Hd) as [c ->].
  apply eqb_false_iff in H0.
  unfold Sci.inputDigit. rewrite H0.
  unfold Sci.backspace.
  cbn [Sci.currentToken Sci.set_display Sci.set_token Sci.exprTokens
       Sci.displayValue].
  rewrite truthy_append by reflexivity.
  assert (L : (0 <? slen (Sci.currentToken st +++ String c "")) = true).
  { rewrite slen_append. change (slen (String c "")) with 1. apply Z.ltb_lt. unfold slen. lia. }
  rewrite L. cbn [andb Sci.currentToken Sci.set_display Sci.set_token
                  Sci.exprTokens Sci.displayValue].
  rewrite drop_last_append. repeat split.
Qed.

Lemma sci_backspace_undoes_digit_witness :
  Sci.currentToken
    (Sci.backspace (Sci.inputDigit "7" (Sci.inputDigit "4" Sci.initial)))
  = "4".
Proof.
  refine (proj1 (sci_backspace_undoes_digit
                   (Sci.inputDigit "4" Sci.initial) "7" eq_refl _)).
  discriminate.
Defined.

(** X11. Basic script: when no second operand is awaited and the display is
    not empty, [backspace] after a digit gives back the very state before
    the digit (a digit typed on the display [0] replaces it, and
    [backspace] on a single character restores [0]). *)
Theorem basic_backspace_undoes_digit (st : Basic.state) (digit : string) :
  slen digit = 1 ->
  Basic.waitingForSecondOperand st = false ->
  Basic.displayValue st <> "" ->
  Basic.backspace (Basic.inputDigit digit st) = st.
Proof.
  intros Hd Hw Hne. destruct (one_character digit Hd) as [c ->].
  destruct st as [dv fo op w m]. cbn in Hw, Hne. subst w.
  unfold Basic.inputDigit, Basic.backspace.
  cbn [Basic.waitingForSecondOperand Basic.displayValue Basic.firstOperand
       Basic.operator Basic.memory].
  destruct (String.eqb_spec dv "0") as [-> | Hn0].
  - reflexivity.
  - cbn [Basic.waitingForSecondOperand Basic.displayValue].
    assert (L : (1 <? slen (dv +++ String c "")) = true).
    { rewrite slen_append. change (slen (String c "")) with 1. apply Z.ltb_lt. unfold slen.
      destruct dv; [ now destruct Hne | cbn [String.length]; lia ]. }
    rewrite L. unfold Basic.set_display.
    cbn [Basic.waitingForSecondOperand Basic.displayValue Basic.firstOperand
         Basic.operator Basic.memory].
    now rewrite drop_last_append.
Qed.

Lemma basic_backspace_undoes_digit_witness :
  Basic.backspace (Basic.inputDigit "7" Basic.initial) = Basic.initial.
Proof.
  refine (basic_backspace_undoes_digit Basic.initial "7" eq_refl eq_refl _).
  discriminate.
Defined.

(** *** The decimal point *)

Lemma includes_dot_dots (s : string) :
  includes_dot s = negb (dots s =? 0)%nat.
Proof.
  induction s as [| c s IH]; [ reflexivity | ].
  cbn [includes_dot dots]. rewrite IH.
  destruct (Ascii.eqb c "."); reflexivity.
Qed.

Lemma dots_append (s t : string) : dots (s +++ t) = (dots s + dots t)%nat.
Proof.
  induction s as [| c s IH]; [ reflexivity | ].
  cbn [String.append dots]. rewrite IH. lia.
Qed.

Lemma dots_drop_last (s : string) : (dots (drop_last s) <= dots s)%nat.
Proof.
  induction s as [| c s IH]; [ cbn; lia | ].
  destruct s as [| c' s ]; [ cbn; lia | ].
  change (drop_last (String c (String c' s)))
    with (String c (drop_last (String c' s))).
  cbn [dots] in *. lia.
Qed.

Lemma dots_digits (s : string) : all_digits s = true -> dots s = O.
Proof.
  induction s as [| c s IH]; [ reflexivity | ].
  cbn [all_digits dots]. intro H. apply andb_prop in H as [Hc Hs].
  rewrite (IH Hs).
  destruct (Ascii.eqb_spec c "."); [ subst c; discriminate Hc | reflexivity ].
Qed.

(** X12. The text under entry never gets a second decimal point: in both
    scripts a digit, the decimal point and [backspace] keep the number of
    points at most one (the current token of the scientific script, the
    display of the basic one). *)
Theorem entry_has_one_point_at_most (digit : string) :
  all_digits digit = true ->
  (forall st : Sci.state,
      (dots (Sci.currentToken st) <= 1)%nat ->
      (dots (Sci.currentToken (Sci.inputDigit digit st)) <= 1)%nat
      /\ (dots (Sci.currentToken (Sci.inputDecimal st)) <= 1)%nat
      /\ (dots (Sci.currentToken (Sci.backspace st)) <= 1)%nat)
  /\ (forall st : Basic.state,
      (dots (Basic.displayValue st) <= 1)%nat ->
      (dots (Basic.displayValue (Basic.inputDigit digit st)) <= 1)%nat
      /\ (dots (Basic.displayValue (Basic.inputDecimal st)) <= 1)%nat
      /\ (dots (Basic.displayValue (Basic.backspace st)) <= 1)%nat).
Proof.
  intro Hd. pose proof (dots_digits digit Hd) as D0. split.
  - intros st H. split; [ | split ].
    + unfold Sci.inputDigit.
      destruct (String.eqb (Sci.currentToken st) "0"); cbn;
        rewrite ?dots_append; lia.
    + unfold Sci.inputDecimal.
      destruct (truthy (Sci.currentToken st)); cbn; [ | lia ].
      rewrite includes_dot_dots.
      destruct (dots (Sci.currentToken st)) eqn:E; cbn.
      * rewrite dots_append, E. cbn. lia.
      * lia.
    + unfold Sci.backspace.
      destruct (truthy (Sci.currentToken st) && _).
      * cbn. pose proof (dots_drop_last (Sci.currentToken st)). lia.
      * destruct (Sci.exprTokens st); cbn; lia.
  - intros st H. split; [ | split ].
    + unfold Basic.inputDigit.
      destruct (Basic.waitingForSecondOperand st); cbn; [ lia | ].
      destruct (String.eqb (Basic.displayValue st) "0");
        rewrite ?dots_append; lia.
    + unfold Basic.inputDecimal.
      destruct (Basic.waitingForSecondOperand st); cbn; [ lia | ].
      rewrite includes_dot_dots.
      destruct (dots (Basic.displayValue st)) eqn:E; cbn.
      * rewrite dots_append, E. cbn. lia.
      * lia.
    + unfold Basic.backspace.
      destruct (Basic.waitingForSecondOperand st); cbn; [ lia | ].
      destruct (1 <? slen (Basic.displayValue st)); cbn; [ | lia ].
      pose proof (dots_drop_last (Basic.displayValue st)). lia.
Qed.

Lemma entry_has_one_point_at_most_witness :
  (dots (Sci.currentToken
           (Sci.inputDecimal
              (Sci.inputDigit "5" (Sci.inputDecimal Sci.initial)))) <= 1)%nat.
Proof.
  refine (proj1 (proj2 (proj1 (entry_has_one_point_at_most "5" eq_refl)
                          (Sci.inputDigit "5" (Sci.inputDecimal Sci.initial))
                          _))).
  cbn. lia.
Defined.

(** ** A unary key on the token under entry *)



(** ** The fields the scientific script does not use *)

(** X14. Scientific script: no click sets [firstOperand], [operator] or
    [waitingForSecondOperand]; once unset they stay unset, whatever the
    button. The guard of the digit buttons therefore depends on the length
    of the display only. *)
Theorem sci_legacy_fields_stay_unset {rt : MathImpl} (st : Sci.state)
  (button : string) :
  legacy_fields_unset st ->
  legacy_fields_unset (Sci.click_action button st)
  /\ legacy_fields_unset (Sci.click_number button st)
  /\ Sci.click_number button st
     = (if MAX_DISPLAY_LENGTH <=? slen (Sci.displayValue st) then st
        else Sci.inputDigit button st).
Proof.
  intros (H1 & H2 & H3). split; [ | split ].
  - unfold Sci.click_action.
    repeat match goal with
           | |- context [String.eqb button ?k] =>
               destruct (String.eqb button k); cbn [orb]; cbv iota
           end.
    all: try (destruct (unary_of_action button)).
    all: unfold legacy_fields_unset.
    all: try (cbn; now auto).
    all: try (unfold Sci.inputDecimal;
              destruct (truthy (Sci.currentToken st)); cbn;
              [ destruct (includes_dot (Sci.currentToken st)) | ]; cbn;
              now auto).
    all: try (unfold Sci.backspace;
              destruct (truthy (Sci.currentToken st) && _);
              [ | destruct (Sci.exprTokens st) ]; cbn; now auto).
    all: try (unfold Sci.inputPercent;
              destruct (is_nan _); [ now auto | ];
              destruct (truthy (Sci.currentToken st)); cbn; now auto).
    all: try (unfold Sci.push_token, Sci.handleOperator, Sci.push_current;
              destruct (truthy (Sci.currentToken st)); cbn; now auto).
    all: try (unfold Sci.equals, Sci.push_current;
              destruct (truthy (Sci.currentToken st)); cbn;
              match goal with
              | |- context [match ?l with [] => _ | _ :: _ => _ end] =>
                  destruct l
              end; cbn; now auto).
    all: try (unfold Sci.memoryPlus, Sci.memoryMinus;
              destruct (negb _); cbn; now auto).
    all: try (unfold Sci.applyUnary;
              destruct (is_nan _); [ now auto | ]; cbv zeta;
              destruct (String.eqb _ "Error");
              destruct (truthy (Sci.currentToken st)); cbn; now auto).
  - unfold Sci.click_number, Sci.inputDigit, legacy_fields_unset.
    destruct (_ && _); [ now auto | ].
    destruct (String.eqb (Sci.currentToken st) "0"); cbn; now auto.
  - unfold Sci.click_number. rewrite H3. cbn [negb]. now rewrite andb_true_r.
Qed.

Lemma sci_legacy_fields_stay_unset_witness :
  legacy_fields_unset
    (@Sci.click_action integer_powers "equals"
       (Sci.click_number "2" Sci.initial)).
Proof.
  refine (proj1 (@sci_legacy_fields_stay_unset integer_powers
                   (Sci.click_number "2" Sci.initial) "equals" _)).
  repeat split.
Defined.

(** ** The angle mode *)

Section AngleMode.
Context {rt : MathImpl}.

Lemma evalRPN_step_degMode (t : string) (stack : list number) :
  reads_degMode t = false ->
  Sci.evalRPN_step true stack t = Sci.evalRPN_step false stack t.
Proof.
  unfold reads_degMode. intro H.
  apply orb_false_elim in H as [H Htan]. apply orb_false_elim in H as [Hsin Hcos].
  unfold Sci.evalRPN_step, Sci.apply_function.
  now rewrite Hsin, Hcos, Htan.
Qed.

Lemma evalRPN_loop_degMode (rpn : list string) (stack : list number) :
  existsb reads_degMode rpn = false ->
  Sci.evalRPN_loop true rpn stack = Sci.evalRPN_loop false rpn stack.
Proof.
  revert stack. induction rpn as [| t rpn IH]; intros stack H; [ reflexivity | ].
  cbn [existsb] in H. apply orb_false_elim in H as [Ht Hr].
  cbn [Sci.evalRPN_loop]. rewrite (evalRPN_step_degMode t stack Ht).
  destruct (Sci.evalRPN_step false stack t); [ now apply IH | reflexivity ].
Qed.

Lemma toRPN_no_new_token (P : string -> bool) (ts : list string) :
  P "(" = false -> P ")" = false ->
  existsb P ts = false -> existsb P (Sci.toRPN ts) = false.
Proof.
  intros Ho Hc H.
  destruct (existsb P (Sci.toRPN ts)) eqn:E; [ exfalso | reflexivity ].
  apply existsb_exists in E as (t & Hin & Pt).
  assert (Hnp : not_paren t = true).
  { unfold not_paren.
    destruct (String.eqb_spec t "("); [ subst t; congruence | ].
    destruct (String.eqb_spec t ")"); [ subst t; congruence | reflexivity ]. }
  pose proof (toRPN_permutation ts) as Perm.
  assert (Hin' : In t (filter not_paren ts)).
  { apply (Permutation_in _ Perm). apply filter_In. now split. }
  apply filter_In in Hin' as [Hin' _].
  assert (existsb P ts = true) by (apply existsb_exists; now exists t).
  congruence.
Qed.

End AngleMode.

(** X15. The angle mode is read by [sin], [cos] and [tan] only: an expression
    without these three tokens has the same value in degrees and in
    radians. *)
Theorem degMode_matters_to_trig_only {rt : MathImpl} (ts : list string) :
  existsb reads_degMode ts = false ->
  Sci.evaluateExpression true ts = Sci.evaluateExpression false ts.
Proof.
  intro H. unfold Sci.evaluateExpression, Sci.evalRPN.
  rewrite evalRPN_loop_degMode; [ reflexivity | ].
  now apply toRPN_no_new_token.
Qed.

Lemma degMode_matters_to_trig_only_witness :
  @Sci.evaluateExpression integer_powers true ["ln"; "("; "2"; "*"; "3"; ")"]
  = @Sci.evaluateExpression integer_powers false
      ["ln"; "("; "2"; "*"; "3"; ")"].
Proof.
  exact (@degMode_matters_to_trig_only integer_powers
           ["ln"; "("; "2"; "*"; "3"; ")"] eq_refl).
Defined.

(** ** After [=] *)

Lemma operator_then_number {rt : MathImpl} (degMode : bool)
  (sym digit : string) :
  In sym ["+"; "-"; "*"; "/"] -> Sci.isNumberToken digit = true ->
  Sci.evaluateExpression degMode [sym; digit] = Number NaN.
Proof.
  intros Hs Hd.
  assert (S1 : Sci.toRPN_step ([], []) sym = ([], [sym])).
  { cbn [In] in Hs.
    destruct Hs as [<- | [<- | [<- | [<- | [] ] ] ] ]; reflexivity. }
  assert (S2 : Sci.toRPN_step ([], [sym]) digit = ([digit], [sym])).
  { unfold Sci.toRPN_step. now rewrite Hd. }
  assert (E1 : Sci.evalRPN_step degMode [] digit
               = Sci.Returns [parseFloat digit]).
  { unfold Sci.evalRPN_step. now rewrite Hd. }
  assert (E2 : Sci.evalRPN_step degMode [parseFloat digit] sym
               = Sci.Returns [NaN]).
  { cbn [In] in Hs.
    destruct Hs as [<- | [<- | [<- | [<- | [] ] ] ] ]; reflexivity. }
  unfold Sci.evaluateExpression, Sci.toRPN. cbn [fold_left].
  rewrite S1, S2. cbn [Sci.flush app]. unfold Sci.evalRPN.
  cbn [Sci.evalRPN_loop]. rewrite E1, E2. reflexivity.
Qed.

(** X16. Scientific script: the result of [=] is displayed but not kept as
    an operand. An operator key after [=] starts the next expression with
    the operator, so that a number and [=] after it display [Error]. *)
Theorem result_is_not_carried {rt : MathImpl} (st : Sci.state)
  (op digit : string) :
  Sci.exprTokens (Sci.push_current st) <> [] ->
  In op ["add"; "subtract"; "multiply"; "divide"] ->
  Sci.isNumberToken digit = true ->
  Sci.exprTokens (Sci.handleOperator op (Sci.equals st))
  = [Sci.operator_symbol op]
  /\ Sci.displayValue
       (Sci.equals
          (Sci.inputDigit digit (Sci.handleOperator op (Sci.equals st))))
     = "Error".
Proof.
  intros Hne Hop Hd. rewrite (equals_unfold st Hne). cbv zeta.
  set (d := if isFinite _ then _ else _). clearbody d.
  split; [ reflexivity | ].
  assert (Ht : truthy digit = true) by (destruct digit; [ discriminate Hd | reflexivity ]).
  unfold Sci.handleOperator, Sci.push_current, Sci.inputDigit.
  cbn [Sci.currentToken truthy is_empty negb Sci.set_tokens Sci.exprTokens
       app Sci.set_token Sci.set_display String.eqb String.append
       Sci.displayValue Sci.firstOperand Sci.operator Sci.memory Sci.degMode
       Sci.waitingForSecondOperand].
  unfold Sci.equals, Sci.push_current.
  cbn [Sci.currentToken Sci.set_tokens Sci.exprTokens
       app Sci.set_token Sci.set_display
       Sci.displayValue Sci.firstOperand Sci.operator Sci.memory Sci.degMode
       Sci.waitingForSecondOperand].
  rewrite Ht.
  cbn [Sci.currentToken Sci.set_tokens Sci.exprTokens
       app Sci.set_token Sci.set_display
       Sci.displayValue Sci.firstOperand Sci.operator Sci.memory Sci.degMode
       Sci.waitingForSecondOperand].
  rewrite (operator_then_number (Sci.degMode st) _ digit); [ reflexivity | | exact Hd ].
  cbn [In] in Hop |- *.
  destruct Hop as [<- | [<- | [<- | [<- | [] ] ] ] ]; cbn; auto.
Qed.

Lemma result_is_not_carried_witness :
  @Sci.displayValue
    (@Sci.equals integer_powers
       (Sci.inputDigit "4"
          (Sci.handleOperator "add"
             (@Sci.equals integer_powers
                (Sci.inputDigit "3"
                   (Sci.handleOperator "add"
                      (Sci.inputDigit "2" Sci.initial)))))))
  = "Error".
Proof.
  refine (proj2 (@result_is_not_carried integer_powers
                   (Sci.inputDigit "3"
                      (Sci.handleOperator "add"
                         (Sci.inputDigit "2" Sci.initial)))
                   "add" "4" _ _ eq_refl)).
  - discriminate.
  - left. reflexivity.
Defined.

(** X17. In both scripts a second [=] changes nothing: [equals] does not
    repeat the last operation. *)
Theorem equals_twice {rt : MathImpl} :
  (forall st : Sci.state, Sci.equals (Sci.equals st) = Sci.equals st)
  /\ (forall st : Basic.state, Basic.equals (Basic.equals st) = Basic.equals st).
Proof.
  split; intro st.
  - assert (F : forall s, Sci.currentToken s = "" -> Sci.exprTokens s = [] ->
                          Sci.equals s = s).
    { intros s Hc He. unfold Sci.equals, Sci.push_current.
      rewrite Hc. cbn [truthy is_empty negb]. now rewrite He. }
    apply F.
    + unfold Sci.equals.
      destruct (Sci.exprTokens (Sci.push_current st));
        cbn [Sci.currentToken]; apply push_current_token.
    + unfold Sci.equals.
      destruct (Sci.exprTokens (Sci.push_current st)) eqn:E;
        [ exact E | reflexivity ].
  - unfold Basic.equals at 2 3.
    destruct (Basic.operator st) eqn:Eo.
    + destruct (Basic.waitingForSecondOperand st) eqn:Ew.
      * unfold Basic.equals. now rewrite Eo, Ew.
      * reflexivity.
    + unfold Basic.equals. now rewrite Eo.
Qed.

(** ** The basic calculator: one operation *)

(** X18. Basic script: an operator key on a fresh entry, a digit and [=]
    display the formatted result of the operation on the number read from
    the display and the digit, and leave no operation pending. *)
Theorem basic_binary_operation (st : Basic.state) (op digit : string) :
  is_nan (parseFloat (Basic.displayValue st)) = false ->
  Basic.firstOperand st = None ->
  Basic.pending (Basic.operator st) && Basic.waitingForSecondOperand st
  = false ->
  Basic.equals (Basic.inputDigit digit (Basic.handleOperator op st))
  = {| Basic.displayValue :=
         formatNumber
           (Basic.calculate (Some (parseFloat (Basic.displayValue st)))
                            (parseFloat digit) op);
       Basic.firstOperand := None; Basic.operator := None;
       Basic.waitingForSecondOperand := false;
       Basic.memory := Basic.memory st |}.
Proof.
  intros Hn Hf Hp. unfold Basic.handleOperator.
  rewrite Hn, Hp, Hf. cbv zeta. reflexivity.
Qed.

Lemma basic_binary_operation_witness :
  Basic.displayValue
    (Basic.equals
       (Basic.inputDigit "4"
          (Basic.handleOperator "divide"
             (Basic.inputDigit "0" (Basic.inputDigit "1" Basic.initial)))))
  = "2.5".
Proof.
  exact (f_equal Basic.displayValue
           (basic_binary_operation
              (Basic.inputDigit "0" (Basic.inputDigit "1" Basic.initial))
              "divide" "4" eq_refl eq_refl eq_refl)).
Defined.



(** X20. Basic script: when no calculation is due (no operation pending, or
    the second operand not yet typed), of two operator keys in a row the
    last one counts. *)
Theorem basic_last_operator_counts (st : Basic.state) (op1 op2 : string) :
  truthy op1 = true ->
  Basic.pending (Basic.operator st)
  && negb (Basic.waitingForSecondOperand st) = false ->
  Basic.handleOperator op2 (Basic.handleOperator op1 st)
  = Basic.handleOperator op2 st.
Proof.
  intros Ht Hdue. destruct st as [dv fo op w m].
  unfold Basic.handleOperator.
  cbn [Basic.waitingForSecondOperand Basic.displayValue Basic.firstOperand
       Basic.operator Basic.memory] in *.
  destruct (is_nan (parseFloat dv)) eqn:Hn.
  - cbn [Basic.waitingForSecondOperand Basic.displayValue Basic.firstOperand
         Basic.operator Basic.memory]. now rewrite Hn.
  - destruct (Basic.pending op) eqn:Hp; destruct w; try discriminate Hdue;
      cbn [andb negb].
    + cbn [Basic.waitingForSecondOperand Basic.displayValue
           Basic.firstOperand Basic.operator Basic.memory Basic.pending].
      now rewrite Hn, Ht.
    + destruct fo as [ first | ]; destruct op as [ name | ];
        cbn [Basic.pending] in Hp; rewrite ?Hp;
        cbn [Basic.waitingForSecondOperand Basic.displayValue
             Basic.firstOperand Basic.operator Basic.memory Basic.pending];
        now rewrite Hn, Ht.
    + destruct fo as [ first | ]; destruct op as [ name | ];
        cbn [Basic.pending] in Hp; rewrite ?Hp;
        cbn [Basic.waitingForSecondOperand Basic.displayValue
             Basic.firstOperand Basic.operator Basic.memory Basic.pending];
        now rewrite Hn, Ht.
Qed.

Lemma basic_last_operator_counts_witness :
  Basic.displayValue
    (Basic.equals
       (Basic.inputDigit "3"
          (Basic.handleOperator "multiply"
             (Basic.handleOperator "add"
                (Basic.inputDigit "2" Basic.initial)))))
  = "6".
Proof.
  exact (f_equal
           (fun s => Basic.displayValue
                       (Basic.equals (Basic.inputDigit "3" s)))
           (basic_last_operator_counts (Basic.inputDigit "2" Basic.initial)
              "add" "multiply" eq_refl eq_refl)).
Defined.

Lemma zero_is_a_number (x : number) :
  strict_eq x zero = true -> is_nan x = false.
Proof. destruct x; [ reflexivity | reflexivity | discriminate | reflexivity ]. Qed.



(** ** The length of the display *)


(** X22. Basic script: the digit buttons never make the display longer than
    [MAX_DISPLAY_LENGTH]. *)
Theorem basic_click_keeps_display_bounded (st : Basic.state)
  (digit : string) :
  slen digit = 1 ->
  slen (Basic.displayValue st) <= MAX_DISPLAY_LENGTH ->
  slen (Basic.displayValue (Basic.click_number digit st))
  <= MAX_DISPLAY_LENGTH.
Proof.
  unfold MAX_DISPLAY_LENGTH. intros Hd H.
  unfold Basic.click_number, Basic.inputDigit, MAX_DISPLAY_LENGTH.
  destruct (Basic.waitingForSecondOperand st).
  - rewrite andb_false_r. cbn [Basic.displayValue]. lia.
  - rewrite andb_true_r.
    destruct (Z.leb_spec 16 (slen (Basic.displayValue st))); [ exact H | ].
    cbn [Basic.displayValue].
    destruct (String.eqb (Basic.displayValue st) "0");
      rewrite ?slen_append; lia.
Qed.

Lemma basic_click_keeps_display_bounded_witness :
  slen (Basic.displayValue (Basic.click_number "7" Basic.initial))
  <= MAX_DISPLAY_LENGTH.
Proof.
  refine (basic_click_keeps_display_bounded Basic.initial "7" eq_refl _).
  vm_compute. discriminate.
Defined.

(** ** Keys on a display that is no number *)

(** X23. When the text the key reads is no number (the display [Error], for
    one), the operator keys of the basic script and, in both scripts, the
    percent key, the unary keys and the two memory keys leave the state as
    it is. In the scientific script the text read is the current token, or
    the display when the token is empty. *)
Theorem keys_ignored_on_no_number {rt : MathImpl} (key : string) :
  In key numeric_keys ->
  (forall st : Basic.state,
      is_nan (parseFloat (Basic.displayValue st)) = true ->
      Basic.click_action key st = st)
  /\ (forall st : Sci.state,
      Sci.currentToken st = "" ->
      is_nan (parseFloat (Sci.displayValue st)) = true ->
      In key ["percent"; "negate"; "sqrt"; "square"; "reciprocal";
              "mem-plus"; "mem-minus"] ->
      Sci.click_action key st = st).
Proof.
  intro Hk. split.
  - intros st Hn. unfold numeric_keys in Hk. cbn [In] in Hk.
    repeat (destruct Hk as [<- | Hk];
            [ cbn; unfold Basic.handleOperator, Basic.inputPercent,
                Basic.applyUnary, Basic.memoryPlus, Basic.memoryMinus;
              now rewrite Hn | ]).
    destruct Hk.
  - intros st Hc Hn Hs. clear Hk. cbn [In] in Hs.
    repeat (destruct Hs as [<- | Hs];
            [ cbn; unfold Sci.inputPercent, Sci.applyUnary, Sci.memoryPlus,
                Sci.memoryMinus; rewrite ?Hc; cbn [truthy is_empty negb];
              now rewrite Hn | ]).
    destruct Hs.
Qed.

Lemma keys_ignored_on_no_number_witness :
  Basic.click_action "add" basic_error_state = basic_error_state.
Proof.
  refine (proj1 (@keys_ignored_on_no_number integer_powers "add" _)
            basic_error_state eq_refl).
  left. reflexivity.
Defined.

(** ** Typing an expression on the buttons *)

Section Typing.
Context {rt : MathImpl}.

Lemma entered_same (st : Sci.state) :
  Sci.displayValue st = Sci.currentToken st ->
  entered (Sci.currentToken st) st = st.
Proof. destruct st. cbn. now intros ->. Qed.

Lemma press_digit (c : ascii) (st : Sci.state) :
  Sci.waitingForSecondOperand st = false ->
  slen (Sci.displayValue st) < MAX_DISPLAY_LENGTH ->
  press st (digit_button c) = Sci.inputDigit (String c "") st.
Proof.
  intros Hw Hl. unfold press, digit_button, Sci.click, Sci.click_number.
  cbn [fst snd]. rewrite Hw.
  destruct (Z.leb_spec MAX_DISPLAY_LENGTH (slen (Sci.displayValue st)));
    [ lia | reflexivity ].
Qed.

Lemma press_operator (o : binop) (st : Sci.state) :
  press st (action_button (action_of o))
  = Sci.push_token (symbol o) (Sci.push_current st).
Proof. destruct o; reflexivity. Qed.

Lemma digit_not_dot (c : ascii) : is_digit c = true -> Ascii.eqb c "." = false.
Proof.
  intro H. destruct (Ascii.eqb_spec c "."); [ subst c; discriminate H | easy ].
Qed.

Lemma longer_than_zero (p : string) (c : ascii) :
  truthy p = true -> p +++ String c "" <> "0".
Proof.
  destruct p as [| a [| b p ] ]; cbn; intros H E; try discriminate.
Qed.

(** Digits typed after a token that a digit does not replace. *)
Lemma type_digits (ds : string) :
  forall st : Sci.state,
    all_digits ds = true ->
    Sci.waitingForSecondOperand st = false ->
    Sci.displayValue st = Sci.currentToken st ->
    truthy (Sci.currentToken st) = true ->
    Sci.currentToken st <> "0" ->
    slen (Sci.currentToken st) + slen ds <= MAX_DISPLAY_LENGTH ->
    fold_left press (literal_buttons ds) st
    = entered (Sci.currentToken st +++ ds) st.
Proof.
  induction ds as [| c r IH]; intros st Hd Hw Hdisp Ht H0 Hl.
  - cbn [literal_buttons fold_left]. rewrite append_nil_r.
    symmetry. now apply entered_same.
  - cbn [all_digits] in Hd. apply andb_prop in Hd as [Hc Hr].
    cbn [literal_buttons fold_left]. rewrite (digit_not_dot c Hc).
    assert (Hlen : slen (String c r) = 1 + slen r).
    { unfold slen. cbn [String.length]. lia. }
    assert (0 <= slen r) by (unfold slen; lia).
    rewrite press_digit; [ | exact Hw | rewrite Hdisp; lia ].
    unfold Sci.inputDigit. apply eqb_false_iff in H0. rewrite H0.
    change (Sci.set_display _ _)
      with (entered (Sci.currentToken st +++ String c "") st).
    rewrite IH; try assumption.
    + cbn [entered Sci.set_display Sci.set_token Sci.currentToken].
      rewrite append_assoc. reflexivity.
    + reflexivity.
    + cbn. now apply truthy_append.
    + cbn [entered Sci.set_display Sci.set_token Sci.currentToken].
      now apply longer_than_zero.
    + cbn [entered Sci.set_display Sci.set_token Sci.currentToken].
      rewrite slen_append. change (slen (String c "")) with 1. lia.
Qed.

(** The integer part, typed on an empty token. *)
Lemma type_integer (c : ascii) (r : string) (st : Sci.state) :
  all_digits (String c r) = true ->
  (r <> "" -> c <> "0"%char) ->
  Sci.currentToken st = "" ->
  Sci.waitingForSecondOperand st = false ->
  slen (Sci.displayValue st) < MAX_DISPLAY_LENGTH ->
  slen (String c r) <= MAX_DISPLAY_LENGTH ->
  fold_left press (literal_buttons (String c r)) st = entered (String c r) st.
Proof.
  intros Hd Hlead Hc Hw Hdisp Hl.
  cbn [all_digits] in Hd. apply andb_prop in Hd as [Hdc Hr].
  cbn [literal_buttons fold_left]. rewrite (digit_not_dot c Hdc).
  rewrite press_digit by assumption.
  unfold Sci.inputDigit. rewrite Hc. cbn [String.eqb String.append].
  change (Sci.set_display _ _) with (entered (String c "") st).
  destruct r as [| c' r' ]; [ reflexivity | ].
  rewrite type_digits.
  - reflexivity.
  - exact Hr.
  - exact Hw.
  - reflexivity.
  - reflexivity.
  - cbn [entered Sci.set_display Sci.set_token Sci.currentToken].
    intro E. inversion E. apply Hlead; [ discriminate | assumption ].
  - cbn [entered Sci.set_display Sci.set_token Sci.currentToken].
    unfold slen in *. cbn [String.length] in *. lia.
Qed.

Lemma span_digits_spec (s : string) :
  all_digits (fst (span_digits s)) = true
  /\ s = fst (span_digits s) +++ snd (span_digits s)
  /\ no_digit_head (snd (span_digits s)).
Proof.
  induction s as [| c s (IH1 & IH2 & IH3) ]; [ repeat split | ].
  cbn [span_digits]. destruct (is_digit c) eqn:Hc.
  - destruct (span_digits s) as [d t].
    cbn [fst snd all_digits String.append] in *.
    rewrite Hc, IH1. repeat split; [ now f_equal | exact IH3 ].
  - cbn [fst snd all_digits String.append no_digit_head]. repeat split.
    exact Hc.
Qed.

Lemma literal_buttons_append (a b : string) :
  literal_buttons (a +++ b) = literal_buttons a ++ literal_buttons b.
Proof.
  induction a as [| c a IH]; [ reflexivity | ].
  cbn [String.append literal_buttons app]. now rewrite IH.
Qed.

Lemma includes_dot_digits (s : string) :
  all_digits s = true -> includes_dot s = false.
Proof.
  intro H. rewrite includes_dot_dots, (dots_digits s H). reflexivity.
Qed.

(** A literal, typed on an empty token. *)
Lemma type_literal (t : string) (st : Sci.state) :
  typed_as_written t = true ->
  Sci.currentToken st = "" ->
  Sci.waitingForSecondOperand st = false ->
  slen (Sci.displayValue st) < MAX_DISPLAY_LENGTH ->
  fold_left press (literal_buttons t) st = entered t st.
Proof.
  unfold typed_as_written. intros Ht Hc Hw Hdisp.
  pose proof (eq_refl : MAX_DISPLAY_LENGTH = 16) as HM.
  apply andb_prop in Ht as [Ht Hshape]. apply andb_prop in Ht as [Htok Hlen].
  apply Z.ltb_lt in Hlen.
  assert (Hstrip : Sci.strip_minus t = t).
  { destruct t as [| c r ]; [ reflexivity | ].
    destruct (Ascii.eqb_spec c "-"); [ subst c; discriminate Hshape | ].
    unfold Sci.strip_minus.
    destruct c as [[] [] [] [] [] [] [] []]; try reflexivity.
    now destruct n. }
  unfold Sci.isNumberToken in Htok. rewrite Hstrip in Htok.
  destruct (span_digits_spec t) as (Hip & Hsplit & _).
  destruct (span_digits t) as [ip rest]. cbn [fst snd] in *.
  apply andb_prop in Htok as [Hne Hrest].
  destruct ip as [| c r ]; [ discriminate Hne | ].
  assert (Hlead : r <> "" -> c <> "0"%char).
  { intros Hr E. subst c. destruct r as [| c' r' ]; [ now destruct Hr | ].
    rewrite Hsplit in Hshape. cbn [String.append] in Hshape.
    cbn [all_digits] in Hip. apply andb_prop in Hip as [_ Hip].
    apply andb_prop in Hip as [Hc' _]. now rewrite Hc' in Hshape. }
  assert (Hl : slen t = slen (String c r) + slen rest).
  { rewrite Hsplit at 1. apply slen_append. }
  assert (0 <= slen rest) by (unfold slen; lia).
  destruct rest as [| d f ].
  - rewrite append_nil_r in Hsplit. subst t.
    apply type_integer; try assumption. now apply Z.lt_le_incl.
  - destruct (Ascii.eqb_spec d "."); [ subst d | ].
    2:{ destruct d as [[] [] [] [] [] [] [] []]; try discriminate Hrest.
        now destruct n. }
    apply andb_prop in Hrest as [_ Hf].
    rewrite Hsplit at 1. rewrite literal_buttons_append, fold_left_app.
    rewrite (type_integer c r st); try assumption; [ | lia ].
    cbn [literal_buttons fold_left Ascii.eqb Bool.eqb].
    assert (Hdec : press (entered (String c r) st) (action_button "decimal")
                   = entered (String c r +++ ".") st).
    { change (press (entered (String c r) st) (action_button "decimal"))
        with (Sci.inputDecimal (entered (String c r) st)).
      unfold Sci.inputDecimal.
      cbn [entered Sci.set_display Sci.set_token Sci.currentToken truthy
           is_empty negb].
      rewrite (includes_dot_digits _ Hip). reflexivity. }
    change (if Ascii.eqb "." "." then action_button "decimal"
            else digit_button ".") with (action_button "decimal").
    rewrite Hdec.
    assert (Hlf : slen (String "." f) = 1 + slen f).
    { unfold slen. cbn [String.length]. lia. }
    rewrite type_digits.
    + cbn [entered Sci.set_display Sci.set_token Sci.currentToken].
      rewrite Hsplit, append_assoc. reflexivity.
    + exact Hf.
    + exact Hw.
    + reflexivity.
    + reflexivity.
    + cbn [entered Sci.set_display Sci.set_token Sci.currentToken].
      now apply longer_than_zero.
    + cbn [entered Sci.set_display Sci.set_token Sci.currentToken].
      rewrite slen_append. change (slen ".") with 1. lia.
Qed.

Lemma typed_as_written_bounds (t : string) :
  typed_as_written t = true ->
  truthy t = true /\ slen t < MAX_DISPLAY_LENGTH.
Proof.
  unfold typed_as_written. intro H.
  apply andb_prop in H as [H _]. apply andb_prop in H as [Htok Hlen].
  split; [ | now apply Z.ltb_lt ].
  destruct t; [ discriminate Htok | reflexivity ].
Qed.

(** The buttons of an expression add its tokens to the pending ones; the
    last literal may still be under entry. *)
Lemma type_expr (e : expr) :
  forall st : Sci.state,
    typable e = true ->
    Sci.currentToken st = "" ->
    Sci.waitingForSecondOperand st = false ->
    slen (Sci.displayValue st) < MAX_DISPLAY_LENGTH ->
    let st' := fold_left press (buttons e) st in
    Sci.exprTokens (Sci.push_current st') = Sci.exprTokens st ++ tokens e
    /\ Sci.waitingForSecondOperand st' = false
    /\ slen (Sci.displayValue st') < MAX_DISPLAY_LENGTH
    /\ Sci.degMode st' = Sci.degMode st
    /\ Sci.memory st' = Sci.memory st.
Proof.
  induction e as [ t | o a IHa b IHb | a IHa ]; intros st Ht Hc Hw Hd;
    cbn [buttons typable tokens] in *.
  - rewrite type_literal by assumption.
    destruct (typed_as_written_bounds t Ht) as [Hne Hl].
    unfold Sci.push_current.
    cbn [entered Sci.set_display Sci.set_token Sci.currentToken
         Sci.displayValue Sci.set_tokens Sci.exprTokens
         Sci.waitingForSecondOperand Sci.degMode Sci.memory].
    rewrite Hne.
    cbn [entered Sci.set_display Sci.set_token Sci.currentToken
         Sci.displayValue Sci.set_tokens Sci.exprTokens
         Sci.waitingForSecondOperand Sci.degMode Sci.memory].
    repeat split; assumption.
  - apply andb_prop in Ht as [Hta Htb].
    rewrite fold_left_app. cbn [fold_left]. cbv zeta.
    destruct (IHa st Hta Hc Hw Hd) as (Ea & Wa & Da & Ga & Ma).
    set (sa := fold_left press (buttons a) st) in *.
    rewrite press_operator.
    destruct (push_current_frame sa) as (Fd & Fm & Fv).
    assert (Fw : Sci.waitingForSecondOperand (Sci.push_current sa)
                 = Sci.waitingForSecondOperand sa).
    { unfold Sci.push_current. now destruct (truthy (Sci.currentToken sa)). }
    set (sm := Sci.push_token (symbol o) (Sci.push_current sa)).
    destruct (IHb sm Htb) as (Eb & Wb & Db & Gb & Mb).
    + apply push_current_token.
    + cbn. now rewrite Fw.
    + cbn. now rewrite Fv.
    + split; [ | split; [ exact Wb | split; [ exact Db | split ] ] ].
      * rewrite Eb. unfold sm.
        cbn [Sci.push_token Sci.set_tokens Sci.exprTokens].
        rewrite Ea, <- !app_assoc. reflexivity.
      * rewrite Gb. unfold sm. cbn [Sci.push_token Sci.set_tokens Sci.degMode].
        congruence.
      * rewrite Mb. unfold sm. cbn [Sci.push_token Sci.set_tokens Sci.memory].
        congruence.
  - cbn [fold_left]. rewrite fold_left_app. cbn [fold_left]. cbv zeta.
    change (press st (action_button "paren-open"))
      with (Sci.push_token "(" st).
    set (s0 := Sci.push_token "(" st).
    destruct (IHa s0 Ht) as (Ea & Wa & Da & Ga & Ma);
      [ exact Hc | exact Hw | exact Hd | ].
    set (sa := fold_left press (buttons a) s0) in *.
    change (press sa (action_button "paren-close"))
      with (Sci.push_token ")" (Sci.push_current sa)).
    destruct (push_current_frame sa) as (Fd & Fm & Fv).
    assert (Fw : Sci.waitingForSecondOperand (Sci.push_current sa)
                 = Sci.waitingForSecondOperand sa).
    { unfold Sci.push_current. now destruct (truthy (Sci.currentToken sa)). }
    assert (Fc : Sci.push_current (Sci.push_token ")" (Sci.push_current sa))
                 = Sci.push_token ")" (Sci.push_current sa)).
    { unfold Sci.push_current at 1.
      cbn [Sci.push_token Sci.set_tokens Sci.currentToken].
      now rewrite push_current_token. }
    rewrite Fc.
    cbn [Sci.push_token Sci.set_tokens Sci.exprTokens Sci.displayValue
         Sci.waitingForSecondOperand Sci.degMode Sci.memory].
    split; [ | split; [ congruence | split; [ congruence | split ] ] ].
    + rewrite Ea. unfold s0.
      cbn [Sci.push_token Sci.set_tokens Sci.exprTokens].
      rewrite <- !app_assoc. reflexivity.
    + rewrite Fd, Ga. reflexivity.
    + rewrite Fm, Ma. reflexivity.
Qed.

End Typing.

(** X24. Scientific script, end to end: the buttons of a well-formed
    expression whose literals can be typed as written, clicked one by one
    on a state without pending tokens, and then [=], display the formatted
    value of the expression, or [Error] when the value is not finite. *)
Theorem typed_expression_is_evaluated {rt : MathImpl} (e : expr)
  (st : Sci.state) :
  well_formed 1 e = true ->
  typable e = true ->
  Sci.exprTokens st = [] ->
  Sci.currentToken st = "" ->
  Sci.waitingForSecondOperand st = false ->
  slen (Sci.displayValue st) < MAX_DISPLAY_LENGTH ->
  let st' := press (fold_left press (buttons e) st) (action_button "equals") in
  Sci.displayValue st'
  = (if is_finite (denote e) then formatNumber (denote e) else "Error")
  /\ Sci.exprTokens st' = []
  /\ Sci.currentToken st' = "".
Proof.
  intros Hwf Ht He Hc Hw Hd.
  destruct (type_expr e st Ht Hc Hw Hd) as (E & _ & _ & G & _).
  rewrite He in E. cbn [app] in E. cbv zeta.
  set (s1 := fold_left press (buttons e) st) in *.
  change (press s1 (action_button "equals")) with (Sci.equals s1).
  rewrite equals_unfold by (rewrite E; apply tokens_not_empty).
  cbv zeta. rewrite E, (evaluate_well_formed _ e Hwf).
  repeat split.
Qed.

Lemma typed_expression_is_evaluated_witness :
  @Sci.displayValue
    (@press integer_powers
       (fold_left (@press integer_powers)
          (buttons (Bin Add (Lit "2")
                      (Bin Mul (Lit "30")
                         (Paren (Bin Sub (Lit "1.5") (Lit "0.25"))))))
          Sci.initial)
       (action_button "equals"))
  = "39.5".
Proof.
  exact (proj1 (@typed_expression_is_evaluated integer_powers
                  (Bin Add (Lit "2")
                     (Bin Mul (Lit "30")
                        (Paren (Bin Sub (Lit "1.5") (Lit "0.25")))))
                  Sci.initial eq_refl eq_refl eq_refl eq_refl eq_refl
                  eq_refl)).
Defined.

(** ** The keyboard *)

(** X25. In both scripts a key of the keyboard does what its button does.
    A digit key calls [inputDigit] at once: the digit button does the same
    while the display is shorter than [MAX_DISPLAY_LENGTH] or a second
    operand is awaited, and nothing otherwise; the keyboard has no such
    limit. A key that is no digit and has no button is ignored. *)
Theorem keyboard_agrees_with_buttons {rt : MathImpl} (key : string) :
  (forall a : string, button_of_key key = Some a ->
     (forall st, Basic.keydown key st = Basic.click_action a st)
     /\ (forall st, Sci.keydown key st = Sci.click_action a st))
  /\ (is_one_digit key = true ->
      (forall st : Basic.state,
          Basic.keydown key st = Basic.inputDigit key st
          /\ Basic.click_number key st
             = if (MAX_DISPLAY_LENGTH <=? slen (Basic.displayValue st))
                  && negb (Basic.waitingForSecondOperand st)
               then st else Basic.keydown key st)
      /\ (forall st : Sci.state,
          Sci.keydown key st = Sci.inputDigit key st
          /\ Sci.click_number key st
             = if (MAX_DISPLAY_LENGTH <=? slen (Sci.displayValue st))
                  && negb (Sci.waitingForSecondOperand st)
               then st else Sci.keydown key st))
  /\ (is_one_digit key = false -> button_of_key key = None ->
      (forall st, Basic.keydown key st = st)
      /\ (forall st, Sci.keydown key st = st)).
Proof.
  split; [ | split ].
  - intro a. unfold button_of_key.
    repeat match goal with
           | |- context [String.eqb key ?k] =>
               destruct (String.eqb_spec key k);
               [ subst key; cbn [orb]; cbv iota;
                 intro H; injection H as <-; split; reflexivity
               | cbn [orb]; cbv iota ]
           end.
    discriminate.
  - intro Hd. split; intro st.
    + unfold Basic.keydown, Basic.click_number. rewrite Hd.
      split; reflexivity.
    + unfold Sci.keydown, Sci.click_number. rewrite Hd.
      split; reflexivity.
  - intros Hd. unfold button_of_key, Basic.keydown, Sci.keydown.
    rewrite Hd.
    repeat match goal with
           | |- context [String.eqb key ?k] =>
               destruct (String.eqb key k);
               [ cbn [orb]; cbv iota; discriminate
               | cbn [orb]; cbv iota ]
           end.
    intros _. split; reflexivity.
Qed.

Lemma keyboard_agrees_with_buttons_witness :
  (forall st, Basic.keydown "Escape" st = Basic.click_action "clear" st)
  /\ (forall st : Basic.state,
         Basic.keydown "7" st = Basic.inputDigit "7" st).
Proof.
  split.
  - exact (proj1 (proj1 (@keyboard_agrees_with_buttons integer_powers
                           "Escape") "clear" eq_refl)).
  - intro st.
    exact (proj1 (proj1 (proj1 (proj2 (@keyboard_agrees_with_buttons
                                         integer_powers "7")) eq_refl) st)).
Defined.

(** ** The recalled memory *)

(** X26. After [memoryRecall] the basic script uses the recalled value,
    read back from the display, as the second operand of a pending
    operation at [equals]. The scientific script shows the formatted
    memory and leaves the pending tokens and the current token as they
    are: when a token is pending or under entry, [equals] after
    [memoryRecall] gives the state it would have given without it; when
    there is none, [equals] after it changes nothing more. *)
Theorem recalled_memory_as_operand {rt : MathImpl} :
  (forall (st : Basic.state) (name : string),
      Basic.operator st = Some name ->
      Basic.displayValue (Basic.equals (Basic.memoryRecall st))
      = formatNumber
          (Basic.calculate (Basic.firstOperand st)
             (parseFloat (formatNumber (Basic.memory st))) name))
  /\ (forall st : Sci.state,
      Sci.displayValue (Sci.memoryRecall st) = formatNumber (Sci.memory st)
      /\ Sci.exprTokens (Sci.memoryRecall st) = Sci.exprTokens st
      /\ Sci.currentToken (Sci.memoryRecall st) = Sci.currentToken st
      /\ (Sci.exprTokens (Sci.push_current st) <> [] ->
          Sci.equals (Sci.memoryRecall st) = Sci.equals st)
      /\ (Sci.exprTokens (Sci.push_current st) = [] ->
          Sci.equals (Sci.memoryRecall st) = Sci.memoryRecall st)).
Proof.
  split.
  - intros st name Ho. unfold Basic.equals, Basic.memoryRecall.
    cbn [Basic.operator Basic.waitingForSecondOperand Basic.displayValue
         Basic.firstOperand Basic.memory].
    now rewrite Ho.
  - intro st.
    split; [ reflexivity | split; [ reflexivity | split; [ reflexivity | ] ] ].
    assert (E : Sci.exprTokens (Sci.push_current (Sci.memoryRecall st))
                = Sci.exprTokens (Sci.push_current st)).
    { unfold Sci.push_current. cbn [Sci.currentToken Sci.memoryRecall].
      now destruct (truthy (Sci.currentToken st)). }
    split; intro H.
    + rewrite !equals_unfold by (rewrite ?E; exact H).
      now rewrite E.
    + unfold Sci.push_current in H.
      destruct (truthy (Sci.currentToken st)) eqn:Ht.
      * cbn [Sci.exprTokens Sci.set_token Sci.set_tokens] in H.
        now destruct (Sci.exprTokens st).
      * unfold Sci.equals, Sci.push_current.
        cbn [Sci.currentToken Sci.memoryRecall]. rewrite Ht.
        change (Sci.exprTokens (Sci.memoryRecall st))
          with (Sci.exprTokens st).
        cbv iota in H. now rewrite H.
Qed.

Lemma recalled_memory_as_operand_witness :
  Basic.displayValue
    (Basic.equals
       (Basic.memoryRecall
          (Basic.handleOperator "add"
             (Basic.memoryPlus (Basic.inputDigit "2" Basic.initial)))))
  = "4"
  /\ @Sci.equals integer_powers
       (Sci.memoryRecall
          (Sci.handleOperator "add" (Sci.inputDigit "2" Sci.initial)))
     = @Sci.equals integer_powers
         (Sci.handleOperator "add" (Sci.inputDigit "2" Sci.initial)).
Proof.
  split.
  - exact (proj1 (@recalled_memory_as_operand integer_powers)
             (Basic.handleOperator "add"
                (Basic.memoryPlus (Basic.inputDigit "2" Basic.initial)))
             "add" eq_refl).
  - refine (proj1 (proj2 (proj2 (proj2
             (proj2 (@recalled_memory_as_operand integer_powers)
                (Sci.handleOperator "add"
                   (Sci.inputDigit "2" Sci.initial)))))) _).
    discriminate.
Defined.

(** ** Number tokens are numbers *)

Lemma shr_1_nonneg (mrs : shr_record) :
  0 <= shr_m mrs -> 0 <= shr_m (shr_1 mrs).
Proof.
  destruct mrs as [m r s]. cbn [shr_m]. intro H.
  destruct m as [| p | p ]; [ cbn; lia | | lia ].
  destruct p; cbn; lia.
Qed.

Lemma shr_nonneg (mrs : shr_record) (e n : Z) :
  0 <= shr_m mrs -> 0 <= shr_m (fst (shr mrs e n)).
Proof.
  intro H. unfold shr. destruct n as [| p | p ]; cbn [fst]; try exact H.
  revert mrs H. induction p as [ p IH | p IH | ]; intros mrs H; cbn [iter_pos].
  - apply IH, IH. now apply shr_1_nonneg.
  - now apply IH, IH.
  - now apply shr_1_nonneg.
Qed.

Lemma shr_fexp_nonneg (m e : Z) (l : location) :
  0 <= m -> 0 <= shr_m (fst (shr_fexp prec emax m e l)).
Proof.
  intro H. unfold shr_fexp. apply shr_nonneg.
  unfold shr_record_of_loc. destruct l as [| [] ]; exact H.
Qed.

Lemma round_nearest_even_nonneg (m : Z) (l : location) :
  0 <= m -> 0 <= round_nearest_even m l.
Proof.
  intro H. unfold round_nearest_even.
  destruct l as [| [] ]; try destruct (Z.even m); lia.
Qed.

Lemma binary_round_aux_number (s : bool) (m e : Z) (l : location) :
  0 <= m -> is_nan (binary_round_aux prec emax s m e l) = false.
Proof.
  intro H. unfold binary_round_aux.
  pose proof (shr_fexp_nonneg m e l H) as H1.
  destruct (shr_fexp prec emax m e l) as [mrs' e']. cbn [fst] in H1.
  pose proof (shr_fexp_nonneg _ e' loc_Exact
                (round_nearest_even_nonneg _ (loc_of_shr_record mrs') H1))
    as H2.
  destruct (shr_fexp prec emax _ e' loc_Exact) as [mrs'' e''].
  cbn [fst] in H2.
  destruct (shr_m mrs'') as [| p | p ]; [ reflexivity | | lia ].
  destruct (e'' <=? emax - prec); reflexivity.
Qed.

Lemma round_ratio_number (s : bool) (num den : positive) :
  is_nan (round_ratio s num den) = false.
Proof.
  unfold round_ratio, SFdiv_core_binary.
  set (m' := match _ with Z0 => _ | Zpos _ => _ | Zneg _ => _ end).
  assert (Hm : 0 <= m').
  { unfold m'. destruct (_ - _ - _); try lia.
    apply Z.shiftl_nonneg. lia. }
  pose proof (Z_div_mod m' (Zpos den) eq_refl) as Hq.
  destruct (Z.div_eucl m' (Zpos den)) as [q r].
  apply binary_round_aux_number.
  destruct Hq as [Hq Hr]. nia.
Qed.

Lemma dec_to_number_number (s : bool) (d e : Z) :
  is_nan (dec_to_number s d e) = false.
Proof.
  unfold dec_to_number. destruct d; try reflexivity.
  apply round_ratio_number.
Qed.

(** X27. A Number token always reads as a number: [parseFloat] on a token
    the pattern of [isNumberToken] accepts is never [NaN] (it is an
    infinity when the digits are too many for a double), so that the
    evaluator pushes a number for it. *)
Theorem number_token_is_a_number {rt : MathImpl} (degMode : bool)
  (stack : list number) (t : string) :
  Sci.isNumberToken t = true ->
  is_nan (parseFloat t) = false
  /\ Sci.evalRPN_step degMode stack t = Sci.Returns (parseFloat t :: stack).
Proof.
  intro Htok. split; [ | unfold Sci.evalRPN_step; now rewrite Htok ].
  revert Htok.
  unfold Sci.isNumberToken. intro H.
  destruct (span_digits_spec (Sci.strip_minus t)) as (Hip & Hsplit & Hnd).
  destruct (span_digits (Sci.strip_minus t)) as [ip rest] eqn:Espan.
  cbn [fst snd] in *.
  apply andb_prop in H as [Hne Hrest].
  destruct ip as [| c r ]; [ discriminate Hne | ].
  assert (Hc : is_digit c = true).
  { cbn [all_digits] in Hip. now apply andb_prop in Hip as [Hc _]. }
  assert (Hread : forall sg, is_nan (read_unsigned sg (Sci.strip_minus t))
                             = false).
  { intro sg. unfold read_unsigned. rewrite Hsplit at 1.
    cbn [String.append].
    destruct (digit_head c (r +++ rest) Hc) as (_ & _ & -> & _).
    rewrite Espan.
    destruct (match rest with
              | String "."%char r0 => span_digits r0
              | _ => ("", rest)
              end) as [fp s4].
    cbn [is_empty andb]. apply dec_to_number_number. }
  unfold parseFloat.
  destruct t as [| a t' ]; [ discriminate Hsplit | ].
  destruct (Ascii.eqb_spec a "-") as [-> | Hna].
  - cbn [Sci.strip_minus] in *. cbn [skip_white is_white N_of_ascii].
    cbn. apply Hread.
  - assert (Hs : Sci.strip_minus (String a t') = String a t').
    { unfold Sci.strip_minus.
      destruct a as [[] [] [] [] [] [] [] []]; try reflexivity.
      now destruct Hna. }
    rewrite Hs in *. cbn [String.append] in Hsplit.
    injection Hsplit as -> Ht'.
    destruct (digit_head c t' Hc) as (-> & -> & _ & _).
    apply Hread.
Qed.

Lemma number_token_is_a_number_witness :
  is_nan (parseFloat "-12.50") = false.
Proof.
  exact (proj1 (@number_token_is_a_number integer_powers false []
                  "-12.50" eq_refl)).
Defined.
